(** * patentflow: the vectorization service

    A shallow embedding of [backend/app/services/vectorization_service.py]
    (class [VectorizationService]): binarization of the grayscale raster, the
    two tracing backends (the in-process [pypotrace] extension and the
    [potrace] command-line binary run in a temporary directory), the SVG
    builder [_path_to_svg], the placeholder SVG and the fallback optimizer
    [_basic_svg_optimization] with [_indent_xml].

    Python values are modelled as follows.
    - [int] is [Z]; [str(int)] is stdpp's [pretty].
    - A [float] is carried by its [repr] (the service never computes with
      floats, it only passes them on and formats them).
    - [str] is [string]; a character is a code point below 256.  [bytes]
      are strings too, a character being one byte.
    - A call that may raise returns an [Outcome]; where a call ends with a
      text or on an input that the model cannot express, the outcome is
      [Beyond] and nothing is said about it.
    - The file system touched by the command-line backend is an explicit
      state: a set of directories and a finite map from paths to contents.
    - A [dict] of attributes is an association list in insertion order, the
      order in which the serializer writes it.

    The libraries the service calls are not part of it.  PIL's [point],
    numpy's conversion to a boolean array and PIL's PBM encoder are modelled
    by what they compute on pixels; the tracer, the child process and the
    name of the temporary directory are parameters; [subprocess.run] and
    reading a file as text are modelled with the decoding they do;
    [ElementTree]'s serializer and parser are modelled for the documents
    described at [XMLParser]; scour is a parameter of [optimize_svg]. *)

From Stdlib Require Import ZArith Ascii String List Bool Lia.
From stdpp Require Import base decidable option list strings pretty gmap fin_maps.

Local Open Scope string_scope.
Local Open Scope Z_scope.
Local Open Scope list_scope.
Local Set Warnings "-register-all".

(** ** Python basics *)

Module Py.

(** Exceptions that the modelled code can raise or catch.  The captured
    output a [CalledProcessError] carries is used for a log line only and is
    left out. *)
Inductive Exn : Type :=
  | FileNotFoundError
  | CalledProcessError (returncode : Z)
  | TimeoutExpired
  | ValueError
  | ParseError
  | UnicodeDecodeError
  | PermissionError
  | IsADirectoryError.

(** How a call ends: with a value, with an exception, or [Beyond] what this
    model can express: the call does end, but with a text that holds a code
    point above 255, or on an input the model does not cover (see
    [XMLParser.outside] and [VectorizationService.covered_depth]).  Nothing
    is claimed about such a call. *)
Inductive Outcome (A : Type) : Type :=
  | Returned (a : A)
  | Raised (e : Exn)
  | Beyond.
Arguments Returned {A} a.
Arguments Raised {A} e.
Arguments Beyond {A}.

Definition bind {A B} (m : Outcome A) (k : A -> Outcome B) : Outcome B :=
  match m with
  | Returned a => k a
  | Raised e => Raised e
  | Beyond => Beyond
  end.

Definition raises {A} (m : Outcome A) : Prop :=
  match m with Raised _ => True | Returned _ | Beyond => False end.

(** A float, identified by the text [repr] prints for it. *)
Record float : Type := Float { float_repr : string }.

Definition str_int (n : Z) : string := pretty n.
Definition str_float (f : float) : string := float_repr f.

(** The characters of decimal numerals and the blank between them. *)
Definition is_plain (c : ascii) : bool :=
  let n := N_of_ascii c in
  ((48 <=? n)%N && (n <=? 57)%N) || (n =? 45)%N || (n =? 32)%N.

Definition all_plain (s : string) : bool :=
  forallb is_plain (list_ascii_of_string s).

(** [sep.join(parts)] *)
Fixpoint join (sep : string) (parts : list string) : string :=
  match parts with
  | [] => ""
  | [p] => p
  | p :: rest => p +:+ sep +:+ join sep rest
  end.

(** [os.path.join(a, b)] for a relative [b] on a POSIX system. *)
Definition ends_with_slash (a : string) : bool :=
  match String.rev a with
  | String c _ => Ascii.eqb c "/"
  | EmptyString => false
  end.

Definition path_join (a b : string) : string :=
  if String.eqb a "" then b
  else if ends_with_slash a then a +:+ b
  else a +:+ "/" +:+ b.

End Py.
Export Py.

Global Instance outcome_ret : MRet Outcome := @Returned.
Global Instance outcome_bind : MBind Outcome := λ A B k m, Py.bind m k.

(** ** Binarization (lines 83-89 and 121-126) *)

Module Raster.

(** A decoded 8-bit grayscale image ([img.convert('L')]): its [size] and its
    rows of luminance values. *)
Record Image : Type := mkImage {
  width : Z;
  height : Z;
  rows : list (list Z)
}.

(** [Image.point(lut)]: every pixel is replaced by the value of the lookup
    function at it. *)
Definition point (lut : Z -> Z) (im : Image) : Image :=
  mkImage (width im) (height im) (map (map lut) (rows im)).

(** [lambda x: 255 if x > threshold else 0] *)
Definition threshold_lut (threshold : Z) (x : Z) : Z :=
  if x >? threshold then 255 else 0.

(** [lambda x: 255 - x] *)
Definition invert_lut (x : Z) : Z := 255 - x.

(** The binarized image [img_bw] that both backends compute. *)
Definition img_bw (img_gray : Image) (threshold : Z) (invert : bool) : Image :=
  let img_bw := point (threshold_lut threshold) img_gray in
  if invert then point invert_lut img_bw else img_bw.

(** [np.array(img_bw, dtype=bool)]: a pixel is [True] when it is not zero. *)
Definition bitmap_array (im : Image) : list (list bool) :=
  map (map (fun v => negb (v =? 0))) (rows im).

(** The pixel in row [r] and column [c]. *)
Definition pixel {A} (m : list (list A)) (r c : nat) : option A :=
  row ← m !! r; row !! c.

(** What each backend hands to its tracer: the in-process one the boolean
    array, whose [True] entries [pypotrace] traces; the command-line one the
    1-bit image it saves as [input.pbm]. *)
Definition pypotrace_bitmap (img_gray : Image) (threshold : Z) (invert : bool)
  : list (list bool) :=
  bitmap_array (img_bw img_gray threshold invert).

Definition cli_bitmap (img_gray : Image) (threshold : Z) (invert : bool)
  : list (list Z) :=
  rows (img_bw img_gray threshold invert).

(** [img_bw.save(pbm_path)]: PIL writes a 1-bit image as a raw PBM file:
    the header [P4], the size, and then every row packed eight pixels to a
    byte, first pixel in the highest bit, the last byte of a row filled up
    with zero bits.  PIL packs with its raw mode ["1;I"]: the bit is one
    where the pixel is 0 and zero where it is 255, because in a PBM file a
    one bit is black, and black is what [potrace] traces. *)
Definition pbm_bits (m : list (list Z)) : list (list bool) :=
  map (map (λ v, v =? 0)) m.

Fixpoint bits_value (weight : N) (bits : list bool) : N :=
  match bits with
  | [] => 0%N
  | b :: rest => ((if b then weight else 0) + bits_value (N.div2 weight) rest)%N
  end.

Fixpoint pack_bits (fuel : nat) (bits : list bool) : string :=
  match fuel, bits with
  | S fuel, _ :: _ =>
      String (ascii_of_N (bits_value 128 (take 8 bits)))
             (pack_bits fuel (drop 8 bits))
  | _, _ => EmptyString
  end.

Definition pack_row (bits : list bool) : string := pack_bits (length bits) bits.

Definition save_pbm (im : Image) : string :=
  "P4" +:+ String "010" (str_int (width im) +:+ " " +:+ str_int (height im))
       +:+ String "010" (fold_right String.append "" (map pack_row (pbm_bits (rows im)))).

(** A bitmap has no foreground when no entry of the boolean array is set,
    and is all foreground when every entry is. *)
Definition no_foreground (bm : list (list bool)) : Prop :=
  forallb (forallb negb) bm = true.

Definition all_foreground (bm : list (list bool)) : Prop :=
  forallb (forallb id) bm = true.

Definition solid (w h : nat) (v : Z) : Image :=
  mkImage (Z.of_nat w) (Z.of_nat h) (replicate h (replicate w v)).

End Raster.

(** ** Element trees ([xml.etree.ElementTree]) *)

Module ET.

(** [elem.tag] is a name, or one of the markers [ET.Comment] and
    [ET.ProcessingInstruction]. *)
Inductive Tag : Type :=
  | Name (qname : string)
  | Comment
  | ProcessingInstruction.

Inductive Element : Type :=
  mkElement (tag : Tag) (attrib : list (string * string))
            (text tail : option string) (children : list Element).

Definition tag (e : Element) : Tag :=
  match e with mkElement t _ _ _ _ => t end.
Definition attrib (e : Element) : list (string * string) :=
  match e with mkElement _ a _ _ _ => a end.
Definition text (e : Element) : option string :=
  match e with mkElement _ _ x _ _ => x end.
Definition tail (e : Element) : option string :=
  match e with mkElement _ _ _ x _ => x end.
Definition children (e : Element) : list Element :=
  match e with mkElement _ _ _ _ c => c end.

Definition set_tail (x : option string) (e : Element) : Element :=
  match e with mkElement t a tx _ c => mkElement t a tx x c end.

(** [ET.Element(tag, attrib)] *)
Definition new_element (name : string) (attrs : list (string * string)) : Element :=
  mkElement (Name name) attrs None None [].

(** [elem.append(child)] *)
Definition append (child : Element) (e : Element) : Element :=
  match e with mkElement t a tx tl c => mkElement t a tx tl (c ++ [child]) end.

(** [elem.get(key)] *)
Fixpoint assoc (key : string) (items : list (string * string)) : option string :=
  match items with
  | [] => None
  | (k, v) :: rest => if String.eqb k key then Some v else assoc key rest
  end.

Definition get (e : Element) (key : string) : option string :=
  assoc key (attrib e).

Definition is_comment (e : Element) : bool :=
  match tag e with Comment => true | _ => false end.

(** The elements of [elem.iter()], in document order. *)
Fixpoint iter (e : Element) : list Element :=
  match e with
  | mkElement _ _ _ _ c => e :: flat_map iter c
  end.

(** The number of elements on the longest way down from [e]. *)
Fixpoint depth (e : Element) : nat :=
  match e with
  | mkElement _ _ _ _ c => S (fold_right (λ k m, Nat.max (depth k) m) O c)
  end.

(** No element of the trees is a comment. *)
Definition no_comments (l : list Element) : bool :=
  negb (existsb is_comment (flat_map iter l)).

Definition comment_free (e : Element) : bool := no_comments [e].

(** *** Serialization: [ET.tostring(elem, encoding='unicode')] *)

Fixpoint replace_char (c : ascii) (by_ : string) (s : string) : string :=
  match s with
  | EmptyString => EmptyString
  | String d rest =>
      if Ascii.eqb d c then by_ +:+ replace_char c by_ rest
      else String d (replace_char c by_ rest)
  end.

(** [_escape_cdata] *)
Definition escape_cdata (s : string) : string :=
  replace_char ">" "&gt;" (replace_char "<" "&lt;" (replace_char "&" "&amp;" s)).

(** [_escape_attrib] *)
Definition escape_attrib (s : string) : string :=
  replace_char "009" "&#09;"
    (replace_char "010" "&#10;"
      (replace_char "013" "&#13;"
        (replace_char "034" "&quot;" (escape_cdata s)))).

(** [_namespace_map], the prefixes the library knows. *)
Definition namespace_map : list (string * string) :=
  [ ("http://www.w3.org/XML/1998/namespace", "xml");
    ("http://www.w3.org/1999/xhtml", "html");
    ("http://www.w3.org/1999/02/22-rdf-syntax-ns#", "rdf");
    ("http://schemas.xmlsoap.org/wsdl/", "wsdl");
    ("http://www.w3.org/2001/XMLSchema", "xs");
    ("http://www.w3.org/2001/XMLSchema-instance", "xsi");
    ("http://purl.org/dc/elements/1.1/", "dc") ].

(** [s.rsplit("}", 1)], when [s] holds a closing brace. *)
Fixpoint rsplit_brace (s : string) : option (string * string) :=
  match s with
  | EmptyString => None
  | String c rest =>
      match rsplit_brace rest with
      | Some (u, t) => Some (String c u, t)
      | None => if Ascii.eqb c "}" then Some (EmptyString, rest) else None
      end
  end.

(** A universal name [{uri}local] split into its parts. *)
Definition split_qname (q : string) : option (string * string) :=
  match q with
  | String "{" rest => rsplit_brace rest
  | _ => None
  end.

(** [add_qname] of [_namespaces]: the prefix table after [q] was seen. *)
Definition add_qname (namespaces : list (string * string)) (q : string)
  : list (string * string) :=
  match split_qname q with
  | Some (uri, _) =>
      match assoc uri namespaces with
      | Some _ => namespaces
      | None =>
          let prefix :=
            match assoc uri namespace_map with
            | Some p => p
            | None => "ns" +:+ pretty (length namespaces)
            end in
          if String.eqb prefix "xml" then namespaces
          else namespaces ++ [(uri, prefix)]
      end
  | None => namespaces
  end.

Definition names_of (e : Element) : list string :=
  match tag e with
  | Name q => q :: map fst (attrib e)
  | _ => map fst (attrib e)
  end.

(** [_namespaces(elem)]: the prefix table of a whole tree. *)
Definition collect_namespaces (root : Element) : list (string * string) :=
  fold_left add_qname (flat_map names_of (iter root)) [].

(** [qnames[q]] *)
Definition qname (namespaces : list (string * string)) (q : string) : string :=
  match split_qname q with
  | Some (uri, local) =>
      let prefix :=
        match assoc uri namespaces with
        | Some p => p
        | None => default "" (assoc uri namespace_map)
        end in
      if String.eqb prefix "" then local else prefix +:+ ":" +:+ local
  | None => q
  end.

(** [sorted(namespaces.items(), key=lambda x: x[1])] *)
Fixpoint insert_by_prefix (d : string * string) (l : list (string * string))
  : list (string * string) :=
  match l with
  | [] => [d]
  | d' :: rest =>
      if String.ltb (snd d) (snd d') then d :: l
      else d' :: insert_by_prefix d rest
  end.

Definition sorted_by_prefix (l : list (string * string)) : list (string * string) :=
  fold_left (fun acc d => insert_by_prefix d acc) l [].

(** The one-character string holding a double quote. *)
Definition dquote : string := String "034" EmptyString.

Definition write_declaration (d : string * string) : string :=
  let k := if String.eqb (snd d) "" then "" else ":" +:+ snd d in
  " xmlns" +:+ k +:+ "=" +:+ dquote +:+ escape_attrib (fst d) +:+ dquote.

Definition write_attribute (namespaces : list (string * string))
  (kv : string * string) : string :=
  " " +:+ qname namespaces (fst kv) +:+ "=" +:+ dquote +:+ escape_attrib (snd kv) +:+ dquote.

Definition concat_strings (l : list string) : string :=
  fold_right String.append "" l.

(** ["%s" % text] *)
Definition format_text (x : option string) : string := default "None" x.

(** [if text:] *)
Definition truthy (x : option string) : bool :=
  match x with
  | Some (String _ _) => true
  | _ => false
  end.

Definition write_text (x : option string) : string :=
  if truthy x then escape_cdata (default "" x) else "".

(** [_serialize_xml]; [declarations] is the prefix table at the root and empty
    below it. *)
Fixpoint serialize_xml (namespaces declarations : list (string * string))
  (e : Element) : string :=
  match e with
  | mkElement tg attrs tx tl kids =>
      (match tg with
       | Comment => "<!--" +:+ format_text tx +:+ "-->"
       | ProcessingInstruction => "<?" +:+ format_text tx +:+ "?>"
       | Name q =>
           "<" +:+ qname namespaces q
           +:+ concat_strings (map write_declaration (sorted_by_prefix declarations))
           +:+ concat_strings (map (write_attribute namespaces) attrs)
           +:+ (if truthy tx || negb (bool_decide (kids = []))
                then ">" +:+ write_text tx
                     +:+ concat_strings (map (serialize_xml namespaces []) kids)
                     +:+ "</" +:+ qname namespaces q +:+ ">"
                else " />")
       end)
      +:+ write_text tl
  end.

Definition tostring (root : Element) : string :=
  let namespaces := collect_namespaces root in
  serialize_xml namespaces namespaces root.

End ET.

(** ** Parsing: [ET.fromstring]

    A model of the library's parser (expat feeding the default [TreeBuilder])
    on documents made of an XML declaration, elements, attributes, character
    data, CDATA sections, the predefined entities, character references
    below 256, comments and processing instructions, with namespaces.  The
    default [TreeBuilder] is created with [insert_comments=False] and
    [insert_pis=False]: comments and processing instructions are read and
    dropped, and the character data on both sides of one is joined.

    Two things the library accepts lie outside the model: a document type
    declaration, and a character reference to a code point above 255, which
    the strings here cannot hold.  [outside] recognises the texts that have
    one; on them [fromstring] does not speak for the library. *)

Module XMLParser.
Import ET.

Definition code (c : ascii) : N := N_of_ascii c.

Definition is_space (c : ascii) : bool :=
  let n := code c in (n =? 32)%N || (n =? 9)%N || (n =? 10)%N || (n =? 13)%N.

Definition is_digit (c : ascii) : bool :=
  let n := code c in (48 <=? n)%N && (n <=? 57)%N.

Definition is_name_start (c : ascii) : bool :=
  let n := code c in
  ((65 <=? n)%N && (n <=? 90)%N) || ((97 <=? n)%N && (n <=? 122)%N)
  || (n =? 95)%N || (n =? 58)%N
  || ((192 <=? n)%N && (n <=? 214)%N) || ((216 <=? n)%N && (n <=? 246)%N)
  || (248 <=? n)%N.

Definition is_name_char (c : ascii) : bool :=
  let n := code c in
  is_name_start c || is_digit c || (n =? 45)%N || (n =? 46)%N || (n =? 183)%N.

(** A character the XML grammar allows in a document. *)
Definition is_char (c : ascii) : bool :=
  let n := code c in (32 <=? n)%N || (n =? 9)%N || (n =? 10)%N || (n =? 13)%N.

Definition newline : ascii := "010".
Definition space : ascii := " ".

(** Line ends are normalized before anything is parsed. *)
Fixpoint normalize_newlines (s : string) : string :=
  match s with
  | EmptyString => EmptyString
  | String c rest =>
      if (code c =? 13)%N then
        match rest with
        | String d rest' =>
            if (code d =? 10)%N then String newline (normalize_newlines rest')
            else String newline (normalize_newlines rest)
        | EmptyString => String newline EmptyString
        end
      else String c (normalize_newlines rest)
  end.

Fixpoint strip_prefix (p s : string) : option string :=
  match p, s with
  | EmptyString, _ => Some s
  | String a p', String b s' => if Ascii.eqb a b then strip_prefix p' s' else None
  | String _ _, EmptyString => None
  end.

(** The text before the first occurrence of [pat], and the text after it. *)
Fixpoint scan_until (pat s : string) : option (string * string) :=
  match strip_prefix pat s with
  | Some rest => Some (EmptyString, rest)
  | None =>
      match s with
      | EmptyString => None
      | String c s' =>
          match scan_until pat s' with
          | Some (b, r) => Some (String c b, r)
          | None => None
          end
      end
  end.

Fixpoint skip_spaces (s : string) : string :=
  match s with
  | String c rest => if is_space c then skip_spaces rest else s
  | EmptyString => s
  end.

Fixpoint scan_name_chars (s : string) : string * string :=
  match s with
  | String c rest =>
      if is_name_char c then
        let '(n, r) := scan_name_chars rest in (String c n, r)
      else (EmptyString, s)
  | EmptyString => (EmptyString, s)
  end.

Definition scan_name (s : string) : option (string * string) :=
  match s with
  | String c _ => if is_name_start c then Some (scan_name_chars s) else None
  | EmptyString => None
  end.

Definition all_chars (s : string) : bool :=
  forallb is_char (list_ascii_of_string s).

(** A comment, after its opening [<!--]. *)
Definition skip_comment (s : string) : option string :=
  match scan_until "--" s with
  | Some (body, String ">" rest) => if all_chars body then Some rest else None
  | _ => None
  end.

Definition lower (c : ascii) : ascii :=
  let n := code c in
  if (65 <=? n)%N && (n <=? 90)%N then ascii_of_N (n + 32) else c.

Fixpoint lowercase (s : string) : string :=
  match s with
  | EmptyString => EmptyString
  | String c rest => String (lower c) (lowercase rest)
  end.

(** A processing instruction, after its opening [<?].  With namespaces
    on, a target holds no colon. *)
Definition skip_pi (s : string) : option string :=
  match scan_name s with
  | Some (target, rest) =>
      if String.eqb (lowercase target) "xml"
         || existsb (Ascii.eqb ":") (list_ascii_of_string target)
      then None
      else
        match strip_prefix "?>" rest with
        | Some rest' => Some rest'
        | None =>
            match rest with
            | String c rest' =>
                if is_space c then
                  match scan_until "?>" rest' with
                  | Some (body, r) => if all_chars body then Some r else None
                  | None => None
                  end
                else None
            | EmptyString => None
            end
        end
  | None => None
  end.

(** Decimal and hexadecimal digits of a character reference. *)
Definition hex_value (c : ascii) : option N :=
  let n := code c in
  if is_digit c then Some (n - 48)%N
  else if (65 <=? n)%N && (n <=? 70)%N then Some (n - 55)%N
  else if (97 <=? n)%N && (n <=? 102)%N then Some (n - 87)%N
  else None.

Fixpoint scan_number (base : N) (acc : N) (seen : bool) (s : string)
  : option (N * string) :=
  match s with
  | String ";" rest => if seen then Some (acc, rest) else None
  | String c rest =>
      match hex_value c with
      | Some d =>
          if (d <? base)%N then scan_number base (acc * base + d)%N true rest
          else None
      | None => None
      end
  | EmptyString => None
  end.

(** A reference, after its [&]: the character it stands for. *)
Definition scan_reference (s : string) : option (ascii * string) :=
  match s with
  | String "#" rest =>
      let number :=
        match rest with
        | String "x" rest' => scan_number 16 0 false rest'
        | _ => scan_number 10 0 false rest
        end in
      match number with
      | Some (n, r) =>
          if (n <? 256)%N && is_char (ascii_of_N n) then Some (ascii_of_N n, r)
          else None
      | None => None
      end
  | _ =>
      match strip_prefix "lt;" s, strip_prefix "gt;" s, strip_prefix "amp;" s,
            strip_prefix "quot;" s, strip_prefix "apos;" s with
      | Some r, _, _, _, _ => Some ("<"%char, r)
      | _, Some r, _, _, _ => Some (">"%char, r)
      | _, _, Some r, _, _ => Some ("&"%char, r)
      | _, _, _, Some r, _ => Some ("034"%char, r)
      | _, _, _, _, Some r => Some ("'"%char, r)
      | _, _, _, _, _ => None
      end
  end.

Definition snoc (s : string) (c : ascii) : string := s +:+ String c EmptyString.

(** An attribute value after its opening quote [q]: literal white space
    becomes a space, references are replaced. *)
Fixpoint scan_attr_value (fuel : nat) (q : ascii) (acc s : string)
  : option (string * string) :=
  match fuel with
  | O => None
  | S fuel =>
      match s with
      | EmptyString => None
      | String c rest =>
          if Ascii.eqb c q then Some (acc, rest)
          else if Ascii.eqb c "<" then None
          else if Ascii.eqb c "&" then
            match scan_reference rest with
            | Some (d, rest') => scan_attr_value fuel q (snoc acc d) rest'
            | None => None
            end
          else if is_space c then scan_attr_value fuel q (snoc acc space) rest
          else if is_char c then scan_attr_value fuel q (snoc acc c) rest
          else None
      end
  end.

(** The attributes of a start tag, as written; the result ends at [>] or
    [/>]. *)
Fixpoint scan_attributes (fuel : nat) (s : string)
  : option (list (string * string) * string) :=
  match fuel with
  | O => None
  | S fuel =>
      let s' := skip_spaces s in
      match s' with
      | EmptyString => None
      | String c _ =>
          if Ascii.eqb c ">" || Ascii.eqb c "/" then Some ([], s')
          else if String.eqb s s' then None
          else
            match scan_name s' with
            | Some (name, r1) =>
                match strip_prefix "=" (skip_spaces r1) with
                | Some r2 =>
                    match skip_spaces r2 with
                    | String q r3 =>
                        if Ascii.eqb q "034" || Ascii.eqb q "'" then
                          match scan_attr_value (S (String.length r3)) q EmptyString r3 with
                          | Some (value, r4) =>
                              match scan_attributes fuel r4 with
                              | Some (more, r5) => Some ((name, value) :: more, r5)
                              | None => None
                              end
                          | None => None
                          end
                        else None
                    | EmptyString => None
                    end
                | None => None
                end
            | None => None
            end
      end
  end.

(** A name, and a character that may stand as it is in an attribute value
    between double quotes. *)
Definition is_name (s : string) : bool :=
  match s with
  | String c rest =>
      is_name_start c && forallb is_name_char (list_ascii_of_string rest)
  | EmptyString => false
  end.

Definition is_value_char (c : ascii) : bool :=
  is_char c && negb (Ascii.eqb c "034") && negb (Ascii.eqb c "<")
  && negb (Ascii.eqb c "&") && (negb (is_space c) || Ascii.eqb c " ").

Definition is_value (v : string) : bool :=
  forallb is_value_char (list_ascii_of_string v).

(** An attribute written out with its value as it is. *)
Definition written_attribute (kv : string * string) : string :=
  " " +:+ fst kv +:+ "=" +:+ dquote +:+ snd kv +:+ dquote.

Definition ok_attribute (kv : string * string) : bool :=
  is_name (fst kv) && is_value (snd kv).

Definition no_carriage_return (s : string) : bool :=
  forallb (λ c, negb (code c =? 13)%N) (list_ascii_of_string s).

(** *** Namespaces *)

(** [prefix:local] split at its colon; a name without one has the empty
    prefix. *)
Fixpoint split_colon (s : string) : string * option string :=
  match s with
  | EmptyString => (EmptyString, None)
  | String c rest =>
      if Ascii.eqb c ":" then (EmptyString, Some rest)
      else let '(a, b) := split_colon rest in (String c a, b)
  end.

Definition has_colon (s : string) : bool :=
  match split_colon s with (_, Some _) => true | _ => false end.

Definition xml_namespace : string := "http://www.w3.org/XML/1998/namespace".

(** The declaration an attribute makes, if it is one: prefix and URI.  The
    name [xmlns:] declares nothing; it is a name without a local part, which
    [resolve] refuses. *)
Definition declaration (kv : string * string) : option (string * string) :=
  match split_colon (fst kv) with
  | ("xmlns", None) => Some (EmptyString, snd kv)
  | ("xmlns", Some p) => if String.eqb p "" then None else Some (p, snd kv)
  | _ => None
  end.

Definition declarations (attrs : list (string * string)) : list (string * string) :=
  omap declaration attrs.

Definition xmlns_namespace : string := "http://www.w3.org/2000/xmlns/".

(** A declaration the parser accepts: the reserved names stay reserved, a
    prefix is never undeclared, and no URI holds the closing brace that
    separates it from the local name. *)
Definition well_declared (d : string * string) : bool :=
  let '(p, uri) := d in
  negb (String.eqb uri xmlns_namespace)
  && negb (existsb (Ascii.eqb "}") (list_ascii_of_string uri))
  && (if String.eqb p "" then negb (String.eqb uri xml_namespace)
      else
        negb (String.eqb uri "") && negb (has_colon p)
        && negb (String.eqb p "xmlns")
        && (if String.eqb p "xml" then String.eqb uri xml_namespace
            else negb (String.eqb uri xml_namespace))).

(** The universal name of an element ([is_attr] false) or of an attribute. *)
Definition resolve (env : list (string * string)) (is_attr : bool) (name : string)
  : option string :=
  match split_colon name with
  | (local, None) =>
      if is_attr then Some local
      else
        match assoc EmptyString env with
        | Some (String c u) => Some ("{" +:+ String c u +:+ "}" +:+ local)
        | _ => Some local
        end
  | (p, Some local) =>
      if String.eqb p "" || String.eqb local "" || has_colon local then None
      else
        match assoc p env with
        | Some uri => Some ("{" +:+ uri +:+ "}" +:+ local)
        | None => None
        end
  end.

Fixpoint resolve_attributes (env : list (string * string))
  (attrs : list (string * string)) : option (list (string * string)) :=
  match attrs with
  | [] => Some []
  | kv :: rest =>
      match declaration kv with
      | Some _ => resolve_attributes env rest
      | None =>
          match resolve env true (fst kv), resolve_attributes env rest with
          | Some k, Some more => Some ((k, snd kv) :: more)
          | _, _ => None
          end
      end
  end.

Fixpoint distinct (l : list string) : bool :=
  match l with
  | [] => true
  | k :: rest => negb (existsb (String.eqb k) rest) && distinct rest
  end.

(** The start tag after namespace processing: the universal tag, the
    attributes that are not declarations, and the bindings in scope inside. *)
Definition open_element (env : list (string * string)) (name : string)
  (attrs : list (string * string))
  : option (string * list (string * string) * list (string * string)) :=
  if negb (distinct (map fst attrs)) then None
  else if negb (forallb well_declared (declarations attrs)) then None
  else
    let env' := (declarations attrs ++ env)%list in
    match resolve env' false name, resolve_attributes env' attrs with
    | Some tag, Some items =>
        if distinct (map fst items) then Some (tag, items, env') else None
    | _, _ => None
    end.

(** [_flush]: collected character data is stored only when there is some. *)
Definition flushed (data : string) : option string :=
  match data with
  | EmptyString => None
  | _ => Some data
  end.

(** *** Elements and their content *)

(** [parse_content] reads up to the end tag of the enclosing element and
    returns the character data before the first child, the children (each
    with its tail) and what follows the [</]; [parse_element] reads one
    element after its [<]. *)
Fixpoint parse_content (fuel : nat) (env : list (string * string))
  (data s : string) {struct fuel} : option (string * list Element * string) :=
  match fuel with
  | O => None
  | S fuel =>
      match s with
      | EmptyString => None
      | String c s1 =>
          if Ascii.eqb c "<" then
            match strip_prefix "/" s1, strip_prefix "!--" s1,
                  strip_prefix "![CDATA[" s1, strip_prefix "?" s1 with
            | Some s2, _, _, _ => Some (data, [], s2)
            | None, Some s2, _, _ =>
                match skip_comment s2 with
                | Some s3 => parse_content fuel env data s3
                | None => None
                end
            | None, None, Some s2, _ =>
                match scan_until "]]>" s2 with
                | Some (cdata, s3) =>
                    if all_chars cdata
                    then parse_content fuel env (data +:+ cdata) s3
                    else None
                | None => None
                end
            | None, None, None, Some s2 =>
                match skip_pi s2 with
                | Some s3 => parse_content fuel env data s3
                | None => None
                end
            | None, None, None, None =>
                match parse_element fuel env s1 with
                | Some (child, s2) =>
                    match parse_content fuel env EmptyString s2 with
                    | Some (tail_data, siblings, s3) =>
                        Some (data, set_tail (flushed tail_data) child :: siblings, s3)
                    | None => None
                    end
                | None => None
                end
            end
          else if Ascii.eqb c "&" then
            match scan_reference s1 with
            | Some (d, s2) => parse_content fuel env (snoc data d) s2
            | None => None
            end
          else
            match strip_prefix "]]>" s with
            | Some _ => None
            | None =>
                if is_char c then parse_content fuel env (snoc data c) s1 else None
            end
      end
  end
with parse_element (fuel : nat) (env : list (string * string)) (s : string)
  {struct fuel} : option (Element * string) :=
  match fuel with
  | O => None
  | S fuel =>
      match scan_name s with
      | Some (name, s1) =>
          match scan_attributes (S (String.length s1)) s1 with
          | Some (attrs, s2) =>
              match open_element env name attrs with
              | Some (tag, items, env') =>
                  match strip_prefix "/>" s2, strip_prefix ">" s2 with
                  | Some s3, _ =>
                      Some (mkElement (Name tag) items None None [], s3)
                  | None, Some s3 =>
                      match parse_content fuel env' EmptyString s3 with
                      | Some (data, kids, s4) =>
                          match scan_name s4 with
                          | Some (name', s5) =>
                              match strip_prefix ">" (skip_spaces s5) with
                              | Some s6 =>
                                  if String.eqb name name'
                                  then Some (mkElement (Name tag) items (flushed data) None kids, s6)
                                  else None
                              | None => None
                              end
                          | None => None
                          end
                      | None => None
                      end
                  | None, None => None
                  end
              | None => None
              end
          | None => None
          end
      | None => None
      end
  end.

(** *** The document *)

(** White space, comments and processing instructions around the root. *)
Fixpoint skip_misc (fuel : nat) (s : string) : option string :=
  match fuel with
  | O => None
  | S fuel =>
      let s' := skip_spaces s in
      match strip_prefix "<!--" s', strip_prefix "<?" s' with
      | Some r, _ =>
          match skip_comment r with
          | Some r' => skip_misc fuel r'
          | None => None
          end
      | None, Some r =>
          match skip_pi r with
          | Some r' => skip_misc fuel r'
          | None => None
          end
      | None, None => Some s'
      end
  end.

(** The pseudo-attributes of an XML declaration: each after white space,
    its value between quotes and taken as written. *)
Fixpoint scan_pseudo_attributes (fuel : nat) (s : string)
  : option (list (string * string)) :=
  match fuel with
  | O => None
  | S fuel =>
      let s' := skip_spaces s in
      match s' with
      | EmptyString => Some []
      | String _ _ =>
          if String.eqb s s' then None
          else
            match scan_name s' with
            | Some (name, r1) =>
                match skip_spaces r1 with
                | String e r2 =>
                    if Ascii.eqb e "=" then
                      match skip_spaces r2 with
                      | String q r3 =>
                          if Ascii.eqb q "034" || Ascii.eqb q "'" then
                            match scan_until (String q EmptyString) r3 with
                            | Some (value, r4) =>
                                match scan_pseudo_attributes fuel r4 with
                                | Some more => Some ((name, value) :: more)
                                | None => None
                                end
                            | None => None
                            end
                          else None
                      | EmptyString => None
                      end
                    else None
                | EmptyString => None
                end
            | None => None
            end
      end
  end.

Definition is_letter (c : ascii) : bool :=
  let n := code c in
  ((65 <=? n)%N && (n <=? 90)%N) || ((97 <=? n)%N && (n <=? 122)%N).

Definition is_version_char (c : ascii) : bool :=
  let n := code c in
  is_letter c || is_digit c || (n =? 95)%N || (n =? 46)%N || (n =? 45)%N.

Definition is_encoding_char (c : ascii) : bool :=
  let n := code c in
  is_letter c || is_digit c || (n =? 95)%N || (n =? 46)%N || (n =? 45)%N.

Definition version_ok (v : string) : bool :=
  forallb is_version_char (list_ascii_of_string v).

Definition encoding_ok (e : string) : bool :=
  match e with
  | String c rest =>
      is_letter c && forallb is_encoding_char (list_ascii_of_string rest)
  | EmptyString => false
  end.

Definition standalone_ok (v : string) : bool :=
  String.eqb v "yes" || String.eqb v "no".

Definition declaration_ok (attrs : list (string * string)) : bool :=
  match attrs with
  | [ ("version", v) ] => version_ok v
  | [ ("version", v); ("encoding", e) ] => version_ok v && encoding_ok e
  | [ ("version", v); ("standalone", d) ] => version_ok v && standalone_ok d
  | [ ("version", v); ("encoding", e); ("standalone", d) ] =>
      version_ok v && encoding_ok e && standalone_ok d
  | _ => false
  end.

(** The XML declaration, which may only stand at the very start.  The
    encoding it names is not used: the text is already decoded. *)
Definition skip_xml_declaration (s : string) : option string :=
  match strip_prefix "<?xml" s with
  | Some (String c rest) =>
      if is_space c then
        match scan_until "?>" (String c rest) with
        | Some (body, r) =>
            match scan_pseudo_attributes (S (String.length body)) body with
            | Some attrs => if declaration_ok attrs then Some r else None
            | None => None
            end
        | None => None
        end
      else Some s
  | _ => Some s
  end.

Definition initial_env : list (string * string) := [ ("xml", xml_namespace) ].

(** [ET.fromstring(text)] on a text that [outside], below, does not flag:
    [Some root] when the call returns [root], [None] when it raises
    [ParseError]. *)
Definition fromstring (text : string) : option Element :=
  let s := normalize_newlines text in
  let fuel := S (String.length s) in
  s ← skip_xml_declaration s;
  s ← skip_misc fuel s;
  s ← strip_prefix "<" s;
  '(root, s) ← parse_element fuel initial_env s;
  s ← skip_misc fuel s;
  match s with
  | EmptyString => Some root
  | String _ _ => None
  end.

(** The texts with something the model does not cover: the opening of a
    document type declaration, or a character reference, decimal or
    hexadecimal, to a code point above 255, wherever in the text it
    stands. *)
Fixpoint has_doctype (s : string) : bool :=
  match strip_prefix "<!DOCTYPE" s with
  | Some _ => true
  | None =>
      match s with
      | String _ rest => has_doctype rest
      | EmptyString => false
      end
  end.

Definition wide_number (s : string) : bool :=
  let number :=
    match s with
    | String "x" rest => scan_number 16 0 false rest
    | _ => scan_number 10 0 false s
    end in
  match number with
  | Some (n, _) => (256 <=? n)%N
  | None => false
  end.

Fixpoint wide_reference (s : string) : bool :=
  match strip_prefix "&#" s with
  | Some rest =>
      wide_number rest
      || match s with
         | String _ rest' => wide_reference rest'
         | EmptyString => false
         end
  | None =>
      match s with
      | String _ rest' => wide_reference rest'
      | EmptyString => false
      end
  end.

Definition outside (text : string) : bool :=
  has_doctype text || wide_reference text.

End XMLParser.

(** ** The tracer interface and the file system *)

Module Potrace.

(** [self.default_params], and the keyword arguments of [bmp.trace]. *)
Record TraceParams : Type := mkParams {
  turnpolicy : string;
  turdsize : Z;
  alphamax : float;
  opticurve : bool;
  opttolerance : float
}.

(** The path objects [pypotrace] returns. *)
Record Point : Type := mkPoint { x : float; y : float }.

Inductive Segment : Type :=
  | Corner (c end_point : Point)
  | Bezier (c1 c2 end_point : Point).

Definition is_corner (s : Segment) : bool :=
  match s with Corner _ _ => true | Bezier _ _ _ => false end.

Record Curve : Type := mkCurve {
  start_point : Point;
  segments : list Segment
}.

(** [pypotrace.Bitmap(bitmap_array).trace] with its keyword arguments. *)
Definition Tracer : Type := list (list bool) → TraceParams → list Curve.

End Potrace.

Module OS.

(** The part of the file system the service touches: the directories, and
    the files with the bytes they hold.  Access rights are not modelled: a
    file that exists can be read. *)
Record FS : Type := mkFS {
  dirs : gset string;
  files : gmap string string
}.

(** [p] is the directory [d] or lies below it. *)
Definition under (d p : string) : bool :=
  String.eqb p d || String.prefix (d +:+ "/") p.

Definition mkdir (d : string) (fs : FS) : FS :=
  mkFS ({[ d ]} ∪ dirs fs) (files fs).

Definition write_file (p content : string) (fs : FS) : FS :=
  mkFS (dirs fs) (<[ p := content ]> (files fs)).

(** [shutil.rmtree(d)] *)
Definition rmtree (d : string) (fs : FS) : FS :=
  mkFS (filter (λ p, ¬ under d p) (dirs fs))
       (filter (λ kv, ¬ under d kv.1) (files fs)).

(** *** Bytes and text

    A file holds bytes, written here as a string of their codes.  Decoding
    bytes as UTF-8, strictly, gives a text of this model when every code
    point is below 256, fails on a byte sequence that is not UTF-8, and
    otherwise gives a text the model cannot hold. *)
Inductive Decoded : Type :=
  | Text (text : string)
  | Wide
  | Invalid.

Definition decoded_cons (c : ascii) (d : Decoded) : Decoded :=
  match d with
  | Text text => Text (String c text)
  | Wide => Wide
  | Invalid => Invalid
  end.

Definition decoded_wide (d : Decoded) : Decoded :=
  match d with
  | Invalid => Invalid
  | Text _ | Wide => Wide
  end.

Definition between (lo n hi : N) : bool := ((lo <=? n) && (n <=? hi))%N.

(** A continuation byte. *)
Definition is_continuation (b : ascii) : bool := between 128 (N_of_ascii b) 191.

Fixpoint utf8_decode (bytes : string) : Decoded :=
  match bytes with
  | EmptyString => Text EmptyString
  | String b1 r1 =>
      let n1 := N_of_ascii b1 in
      if (n1 <? 128)%N then decoded_cons b1 (utf8_decode r1)
      else if (n1 <? 194)%N then Invalid
      else if (n1 <? 224)%N then
        match r1 with
        | String b2 r2 =>
            if is_continuation b2 then
              if (n1 <? 196)%N
              then decoded_cons (ascii_of_N ((n1 - 192) * 64 + (N_of_ascii b2 - 128)))
                                (utf8_decode r2)
              else decoded_wide (utf8_decode r2)
            else Invalid
        | EmptyString => Invalid
        end
      else if (n1 <? 240)%N then
        match r1 with
        | String b2 (String b3 r3) =>
            if between (if (n1 =? 224)%N then 160 else 128) (N_of_ascii b2)
                       (if (n1 =? 237)%N then 159 else 191)
               && is_continuation b3
            then decoded_wide (utf8_decode r3)
            else Invalid
        | _ => Invalid
        end
      else if (n1 <? 245)%N then
        match r1 with
        | String b2 (String b3 (String b4 r4)) =>
            if between (if (n1 =? 240)%N then 144 else 128) (N_of_ascii b2)
                       (if (n1 =? 244)%N then 143 else 191)
               && is_continuation b3 && is_continuation b4
            then decoded_wide (utf8_decode r4)
            else Invalid
        | _ => Invalid
        end
      else Invalid
  end.

Definition utf8_valid (bytes : string) : bool :=
  match utf8_decode bytes with
  | Invalid => false
  | Text _ | Wide => true
  end.

(** Reading in text mode with universal newlines: a carriage return, with
    the line feed that follows it if there is one, becomes a line feed. *)
Fixpoint translate_newlines (s : string) : string :=
  match s with
  | EmptyString => EmptyString
  | String c rest =>
      if Ascii.eqb c "013" then
        match rest with
        | String d rest' =>
            if Ascii.eqb d "010" then String "010" (translate_newlines rest')
            else String "010" (translate_newlines rest)
        | EmptyString => String "010" EmptyString
        end
      else String c (translate_newlines rest)
  end.

(** [open(p, "r", encoding="utf-8").read()] *)
Definition read_file (p : string) (fs : FS) : Outcome string :=
  match files fs !! p with
  | Some bytes =>
      match utf8_decode bytes with
      | Text text => Returned (translate_newlines text)
      | Wide => Beyond
      | Invalid => Raised UnicodeDecodeError
      end
  | None =>
      if bool_decide (p ∈ dirs fs) then Raised IsADirectoryError
      else Raised FileNotFoundError
  end.

(** *** Child processes

    How the attempt to run a command ends: the process ran to its end, with
    an exit status and the bytes captured from its standard output and
    standard error; the program was not found; it was found but may not be
    executed; or the timeout expired first. *)
Inductive RunResult : Type :=
  | Completed (returncode : Z) (stdout stderr : string)
  | NoSuchBinary
  | NotExecutable
  | TimedOut.

(** What the service asks of its surroundings: the name
    [tempfile.TemporaryDirectory()] picks, and what running a command line
    under a timeout does to the file system and how it ends. *)
Record World : Type := mkWorld {
  mkdtemp : FS → string;
  run_process : list string → Z → FS → RunResult * FS
}.

(** [subprocess.run(cmd, capture_output=True, text=True, timeout=t,
    check=True)].  With [text=True] the captured bytes are decoded, in the
    locale's encoding (UTF-8 here) and strictly, when the process has ended
    and before its exit status is looked at.  The value returned is the
    [CompletedProcess], which the service does not use. *)
Definition subprocess_run (w : World) (cmd : list string) (timeout : Z) (fs : FS)
  : Outcome unit * FS :=
  let '(r, fs') := run_process w cmd timeout fs in
  (match r with
   | Completed rc out err =>
       if utf8_valid out && utf8_valid err then
         if rc =? 0 then Returned () else Raised (CalledProcessError rc)
       else Raised UnicodeDecodeError
   | NoSuchBinary => Raised FileNotFoundError
   | NotExecutable => Raised PermissionError
   | TimedOut => Raised TimeoutExpired
   end, fs').

(** [with tempfile.TemporaryDirectory() as tmpdir: body]: the directory is
    created, the body runs, and the directory is removed however the body
    ends. *)
Definition with_TemporaryDirectory {A} (w : World)
  (body : string → FS → Outcome A * FS) (fs : FS) : Outcome A * FS :=
  let tmpdir := mkdtemp w fs in
  let '(r, fs') := body tmpdir (mkdir tmpdir fs) in
  (r, rmtree tmpdir fs').

End OS.

(** ** The service *)

Module VectorizationService.
Import Raster ET Potrace OS.

(** [__init__] *)
Definition default_params : TraceParams :=
  {| turnpolicy := "minority";
     turdsize := 2;
     alphamax := Float "1.0";
     opticurve := true;
     opttolerance := Float "0.2" |}.

(** Lines 177-183. *)
Definition _placeholder_svg (width height : Z) : string :=
  "<svg xmlns=" +:+ dquote +:+ "http://www.w3.org/2000/svg" +:+ dquote +:+ " "
  +:+ "width=" +:+ dquote +:+ str_int width +:+ dquote
  +:+ " height=" +:+ dquote +:+ str_int height +:+ dquote +:+ " "
  +:+ "viewBox=" +:+ dquote +:+ "0 0 " +:+ str_int width +:+ " " +:+ str_int height
  +:+ dquote +:+ " version=" +:+ dquote +:+ "1.1" +:+ dquote +:+ "></svg>".

(** *** [_path_to_svg] (lines 185-226) *)

Definition coords (p : Point) : string :=
  str_float (x p) +:+ "," +:+ str_float (y p).

(** What one segment appends to [path_data]. *)
Definition segment_data (s : Segment) : list string :=
  match s with
  | Corner c end_ => [ "L " +:+ coords c; "L " +:+ coords end_ ]
  | Bezier c1 c2 end_ =>
      [ "C " +:+ coords c1 +:+ " " +:+ coords c2 +:+ " " +:+ coords end_ ]
  end.

Definition path_data (curve : Curve) : list string :=
  ("M " +:+ coords (start_point curve))
    :: flat_map segment_data (segments curve) ++ [ "Z" ].

Definition path_elem (curve : Curve) : Element :=
  new_element "path"
    [ ("d", join " " (path_data curve)); ("fill", "black"); ("stroke", "none") ].

Definition svg_element (width height : Z) : Element :=
  new_element "svg"
    [ ("xmlns", "http://www.w3.org/2000/svg");
      ("width", str_int width);
      ("height", str_int height);
      ("viewBox", "0 0 " +:+ str_int width +:+ " " +:+ str_int height);
      ("version", "1.1") ].

(** The tree built by the loop over the traced curves. *)
Definition svg_tree (path : list Curve) (width height : Z) : Element :=
  fold_left (λ svg curve, append (path_elem curve) svg) path
            (svg_element width height).

Definition _path_to_svg (path : list Curve) (width height : Z) : string :=
  tostring (svg_tree path width height).

(** *** Backend 1: the in-process tracer (lines 73-102) *)

Definition trace_kwargs : TraceParams :=
  {| turdsize := turdsize default_params;
     turnpolicy := turnpolicy default_params;
     alphamax := alphamax default_params;
     opticurve := opticurve default_params;
     opttolerance := opttolerance default_params |}.

Definition traced_tree (trace : Tracer) (img_gray : Image)
  (threshold : Z) (invert : bool) : Element :=
  let bitmap_array := pypotrace_bitmap img_gray threshold invert in
  let path := trace bitmap_array trace_kwargs in
  svg_tree path (width img_gray) (height img_gray).

Definition _vectorize_with_pypotrace (trace : Tracer) (img_gray : Image)
  (threshold : Z) (invert : bool) : string :=
  tostring (traced_tree trace img_gray threshold invert).

(** *** Backend 2: the command-line binary (lines 108-171) *)

Definition potrace_cmd (p : TraceParams) (pbm_path svg_path : string) : list string :=
  [ "potrace"; pbm_path; "--svg"; "--output"; svg_path;
    "--turdsize"; str_int (turdsize p);
    "--alphamax"; str_float (alphamax p);
    "--opttolerance"; str_float (opttolerance p) ]
  ++ (if negb (opticurve p) then [ "--longcurve" ] else []).

Definition pbm_path (tmpdir : string) : string := path_join tmpdir "input.pbm".
Definition svg_path (tmpdir : string) : string := path_join tmpdir "output.svg".

(** The body of the [with] block. *)
Definition cli_body (w : World) (img_gray : Image) (threshold : Z) (invert : bool)
  (tmpdir : string) (fs : FS) : Outcome string * FS :=
  let fs := write_file (pbm_path tmpdir)
              (save_pbm (img_bw img_gray threshold invert)) fs in
  let cmd := potrace_cmd default_params (pbm_path tmpdir) (svg_path tmpdir) in
  let '(result, fs) := subprocess_run w cmd 60 fs in
  match result with
  | Raised FileNotFoundError =>
      (Returned (_placeholder_svg (width img_gray) (height img_gray)), fs)
  | Raised (CalledProcessError _) =>
      (Returned (_placeholder_svg (width img_gray) (height img_gray)), fs)
  | Raised TimeoutExpired =>
      (Returned (_placeholder_svg (width img_gray) (height img_gray)), fs)
  | Raised e => (Raised e, fs)
  | Beyond => (Beyond, fs)
  | Returned _ => (read_file (svg_path tmpdir) fs, fs)
  end.

Definition _vectorize_with_cli (w : World) (img_gray : Image)
  (threshold : Z) (invert : bool) (fs : FS) : Outcome string * FS :=
  with_TemporaryDirectory w (cli_body w img_gray threshold invert) fs.

(** How the [potrace] process started by the backend ends. *)
Definition potrace_result (w : World) (img_gray : Image)
  (threshold : Z) (invert : bool) (fs : FS) : RunResult :=
  let tmpdir := mkdtemp w fs in
  let fs := write_file (pbm_path tmpdir)
              (save_pbm (img_bw img_gray threshold invert))
              (mkdir tmpdir fs) in
  (run_process w (potrace_cmd default_params (pbm_path tmpdir) (svg_path tmpdir))
               60 fs).1.

(** *** [bitmap_to_svg] (lines 45-67); [pypotrace] is the imported extension,
    or [None] when the import failed ([PYPOTRACE_AVAILABLE] is false). *)
Definition bitmap_to_svg (pypotrace : option Tracer) (w : World)
  (img_gray : Image) (threshold : Z) (invert : bool) (fs : FS)
  : Outcome string * FS :=
  match pypotrace with
  | Some trace => (Returned (_vectorize_with_pypotrace trace img_gray threshold invert), fs)
  | None => _vectorize_with_cli w img_gray threshold invert fs
  end.

(** *** [optimize_svg] and its fallback (lines 228-279) *)

(** [c.isspace()], for a code point below 256. *)
Definition isspace (c : ascii) : bool :=
  let n := N_of_ascii c in
  ((9 <=? n)%N && (n <=? 13)%N) || ((28 <=? n)%N && (n <=? 32)%N)
  || (n =? 133)%N || (n =? 160)%N.

(** [not s or not s.strip()] *)
Definition blank (s : option string) : bool :=
  match s with
  | None => true
  | Some s => forallb isspace (list_ascii_of_string s)
  end.

(** ["  " * level] *)
Fixpoint spaces (level : nat) : string :=
  match level with
  | O => EmptyString
  | S n => "  " +:+ spaces n
  end.

Definition indent_of (level : nat) : string :=
  String "010" (spaces level).

(** [if not child.tail or not child.tail.strip(): child.tail = indent] *)
Definition dedent (indent : string) (child : Element) : Element :=
  if blank (tail child) then set_tail (Some indent) child else child.

(** The statement after the loop of [_indent_xml] acts on the last child
    the loop visited. *)
Fixpoint dedent_last (indent : string) (kids : list Element) : list Element :=
  match kids with
  | [] => []
  | [child] => [ dedent indent child ]
  | child :: rest => child :: dedent_last indent rest
  end.

Fixpoint _indent_xml (elem : Element) (level : nat) : Element :=
  match elem with
  | mkElement t a tx tl kids =>
      let indent := indent_of level in
      match kids with
      | [] =>
          if negb (Nat.eqb level 0) && blank tl
          then mkElement t a tx (Some indent) []
          else elem
      | _ :: _ =>
          let tx := if blank tx then Some (indent +:+ "  ") else tx in
          let tl := if blank tl then Some indent else tl in
          let kids := map (λ child, _indent_xml child (S level)) kids in
          mkElement t a tx tl (dedent_last indent kids)
      end
  end.

(** Some element strictly below [e] is a comment. *)
Definition comment_below (e : Element) : bool :=
  existsb is_comment (flat_map iter (children e)).

(** The loop [for elem in root.iter(): if elem.tag is ET.Comment:
    root.remove(elem)] over the children of the root.  The iterator hands
    out a child and then walks the elements below it, whether or not the
    loop body has taken the child out of the root in between; for an
    element that is not a direct child [root.remove] raises [ValueError].
    Taking a child out of the list the iterator is walking makes the
    sibling that slides into its place be passed over, with everything
    below it. *)
Fixpoint remove_comments (kids : list Element) : Outcome (list Element) :=
  match kids with
  | [] => Returned []
  | child :: rest =>
      if comment_below child then Raised ValueError
      else if is_comment child then
        match rest with
        | [] => Returned []
        | skipped :: rest' =>
            kept ← remove_comments rest'; Returned (skipped :: kept)
        end
      else kept ← remove_comments rest; Returned (child :: kept)
  end.

Definition strip_comments (root : Element) : Outcome Element :=
  match root with
  | mkElement t a tx tl kids =>
      if is_comment root then Raised ValueError
      else kids ← remove_comments kids; Returned (mkElement t a tx tl kids)
  end.

(** [_indent_xml] and the serializer call themselves once for every level
    of the tree, and the interpreter allows only so many nested calls (1000
    by default, the caller's included).  The model covers trees of up to
    [covered_depth] levels; on deeper ones it claims nothing. *)
Definition covered_depth : nat := 100.

Definition _basic_svg_optimization (svg_content : string) : Outcome string :=
  if XMLParser.outside svg_content then Beyond
  else
    match XMLParser.fromstring svg_content with
    | None => Raised ParseError
    | Some root =>
        root ← strip_comments root;
        if Nat.leb (depth root) covered_depth
        then Returned (tostring (_indent_xml root 0))
        else Beyond
    end.

(** [scour] is [scour.scour.scourString] with the options of lines 237-244
    when the import succeeds, and [None] when it raises [ImportError]. *)
Definition optimize_svg (scour : option (string → Outcome string))
  (svg_content : string) : Outcome string :=
  match scour with
  | Some scourString => scourString svg_content
  | None => _basic_svg_optimization svg_content
  end.

End VectorizationService.

(** ** SVG path syntax

    The four kinds of path command the data model names, and how each is
    written in a [d] attribute. *)

Module PathSyntax.
Import Potrace VectorizationService.





Fixpoint last_char (s : string) : option ascii :=
  match s with
  | EmptyString => None
  | String c EmptyString => Some c
  | String _ rest => last_char rest
  end.

End PathSyntax.

(** ** Notions for further properties *)

Module Further.
Import Raster ET Potrace OS VectorizationService.

(** Text that carries content; blank text is layout only. *)
Definition significant (x : option string) : option string :=
  if blank x then None else x.

(** A tree without its layout. *)
Fixpoint content (e : Element) : Element :=
  match e with
  | mkElement t a tx tl kids =>
      mkElement t a (significant tx) (significant tl) (map content kids)
  end.

(** The directory the command-line backend works in, and the file system
    as the [potrace] process leaves it. *)
Definition cli_tmpdir (w : World) (fs : FS) : string := mkdtemp w fs.

Definition potrace_fs (w : World) (img_gray : Image)
  (threshold : Z) (invert : bool) (fs : FS) : FS :=
  let tmpdir := mkdtemp w fs in
  let fs := write_file (pbm_path tmpdir)
              (save_pbm (img_bw img_gray threshold invert))
              (mkdir tmpdir fs) in
  (run_process w (potrace_cmd default_params (pbm_path tmpdir) (svg_path tmpdir))
               60 fs).2.

(** No path at or below [d] exists. *)
Definition fresh (d : string) (fs : FS) : Prop :=
  ∀ p, under d p = true → (p ∉ dirs fs) ∧ files fs !! p = None.

(** Running the service's command for the directory [d] changes nothing
    outside [d]. *)
Definition confined (w : World) (d : string) : Prop :=
  ∀ fs p,
    under d p = false →
    let after :=
      (run_process w (potrace_cmd default_params (pbm_path d) (svg_path d)) 60 fs).2 in
    (p ∈ dirs after ↔ p ∈ dirs fs) ∧ files after !! p = files fs !! p.

(** No two neighbours in the list are both comments. *)
Fixpoint no_adjacent_comments (kids : list Element) : bool :=
  match kids with
  | a :: (b :: _) as rest =>
      negb (is_comment a && is_comment b) && no_adjacent_comments rest
  | _ => true
  end.

Definition without_comments (kids : list Element) : list Element :=
  List.filter (λ e, negb (is_comment e)) kids.

(** Every luminance is an 8-bit value. *)
Definition eight_bit (im : Image) : bool :=
  forallb (forallb (λ v, (0 <=? v) && (v <=? 255))) (rows im).

(** The characters [repr] uses for a float: digits, sign, point, exponent
    mark, and the letters of [inf] and [nan]. *)
Definition is_repr_char (c : ascii) : bool :=
  let n := N_of_ascii c in
  ((48 <=? n)%N && (n <=? 57)%N) || (n =? 43)%N || (n =? 45)%N || (n =? 46)%N
  || (n =? 101)%N || (n =? 105)%N || (n =? 110)%N || (n =? 102)%N || (n =? 97)%N.

Definition repr_ok (f : float) : bool :=
  forallb is_repr_char (list_ascii_of_string (float_repr f)).

Definition point_ok (p : Point) : bool := repr_ok (x p) && repr_ok (y p).

Definition segment_ok (s : Segment) : bool :=
  match s with
  | Corner c e => point_ok c && point_ok e
  | Bezier c1 c2 e => point_ok c1 && point_ok c2 && point_ok e
  end.

Definition curve_ok (curve : Curve) : bool :=
  point_ok (start_point curve) && forallb segment_ok (segments curve).

(** A character that the serializer writes as it is in an attribute value
    and that the parser reads back as it is; the exclamation mark, which
    opens a declaration after [<], is left out as well. *)
Definition is_verbatim (c : ascii) : bool :=
  XMLParser.is_value_char c && negb (Ascii.eqb c ">") && negb (Ascii.eqb c "!").

(** A text without [&] and without [!] has no reference and no
    declaration. *)
Definition is_tame (c : ascii) : bool :=
  negb (Ascii.eqb c "&") && negb (Ascii.eqb c "!").

Definition tame (s : string) : bool := forallb is_tame (list_ascii_of_string s).

(** The endings of the [potrace] process that the three [except] clauses
    of the backend are written for: the binary is missing, the timeout
    expired, or the process exited with a non-zero status and its captured
    output could be decoded. *)
Definition handled_failure (r : RunResult) : Prop :=
  match r with
  | Completed rc out err => rc ≠ 0 ∧ utf8_valid out && utf8_valid err = true
  | NoSuchBinary | TimedOut => True
  | NotExecutable => False
  end.

Definition verbatim (s : string) : bool :=
  forallb is_verbatim (list_ascii_of_string s).

(** The attributes the builder gives a [path] element, and those of the
    root without the namespace declaration. *)
Definition path_items (curve : Curve) : list (string * string) :=
  [ ("d", join " " (path_data curve)); ("fill", "black"); ("stroke", "none") ].

Definition svg_items (width height : Z) : list (string * string) :=
  [ ("width", str_int width);
    ("height", str_int height);
    ("viewBox", "0 0 " +:+ str_int width +:+ " " +:+ str_int height);
    ("version", "1.1") ].

Definition svg_namespace : string := "http://www.w3.org/2000/svg".

(** The builder's output as text: nothing is escaped, an element without
    children is written in the self-closing form. *)
Definition written_path (curve : Curve) : string :=
  "<path" +:+ concat_strings (map XMLParser.written_attribute (path_items curve))
  +:+ " />".

Definition written_svg (path : list Curve) (width height : Z) : string :=
  "<svg"
  +:+ concat_strings
        (map XMLParser.written_attribute
             (("xmlns", svg_namespace) :: svg_items width height))
  +:+ match path with
      | [] => " />"
      | _ :: _ => ">" +:+ concat_strings (map written_path path) +:+ "</svg>"
      end.

(** What the parser makes of the builder's output: the same elements, named
    in the SVG namespace, the [xmlns] attribute consumed as its declaration. *)
Definition parsed_path (curve : Curve) : Element :=
  mkElement (Name ("{" +:+ svg_namespace +:+ "}path")) (path_items curve)
    None None [].

Definition parsed_svg (path : list Curve) (width height : Z) : Element :=
  mkElement (Name ("{" +:+ svg_namespace +:+ "}svg")) (svg_items width height)
    None None (map parsed_path path).

(** The namespace bindings in scope inside the root. *)
Definition svg_env : list (string * string) :=
  ("", svg_namespace) :: XMLParser.initial_env.

(** The text the fallback optimizer returns for the builder's output: the
    serializer names the SVG namespace by the prefix [ns0], every child
    stands on a line of its own, and a line end follows the root. *)
Definition optimized_path (curve : Curve) : string :=
  "<ns0:path" +:+ concat_strings (map XMLParser.written_attribute (path_items curve))
  +:+ " />".

Definition optimized_svg (path : list Curve) (width height : Z) : string :=
  "<ns0:svg xmlns:ns0=" +:+ dquote +:+ svg_namespace +:+ dquote
  +:+ concat_strings (map XMLParser.written_attribute (svg_items width height))
  +:+ match path with
      | [] => " />"
      | _ :: _ =>
          ">" +:+ indent_of 1 +:+ join (indent_of 1) (map optimized_path path)
          +:+ indent_of 0 +:+ "</ns0:svg>" +:+ indent_of 0
      end.

End Further.

(** ** Example surroundings *)

(** A machine without the [potrace] binary, and an empty file system. *)
Definition no_potrace_world : OS.World :=
  OS.mkWorld (λ _, "/tmp/tmpa1b2c3") (λ _ _ fs, (OS.NoSuchBinary, fs)).

Definition empty_fs : OS.FS := OS.mkFS ∅ ∅.

(** A machine whose [potrace] writes a fixed drawing to the path given
    after [--output] and exits with status zero. *)
Definition working_world : OS.World :=
  OS.mkWorld (λ _, "/tmp/tmpa1b2c3")
    (λ cmd _ fs,
       (OS.Completed 0 "" "",
        OS.write_file (nth 4 cmd "") "<svg><path d='M0 0z'/></svg>" fs)).

(** A machine whose [potrace] exits with status zero and writes nothing. *)
Definition silent_world : OS.World :=
  OS.mkWorld (λ _, "/tmp/tmpa1b2c3") (λ _ _ fs, (OS.Completed 0 "" "", fs)).

(** A machine whose [potrace] fails with exit status 2 after writing the
    single byte 255, which is not UTF-8, to its standard error. *)
Definition garbled_world : OS.World :=
  OS.mkWorld (λ _, "/tmp/tmpa1b2c3")
    (λ _ _ fs, (OS.Completed 2 "" (String "255" EmptyString), fs)).

(** A machine whose [potrace] writes its drawing with the line ends of
    another system. *)
Definition crlf_world : OS.World :=
  OS.mkWorld (λ _, "/tmp/tmpa1b2c3")
    (λ cmd _ fs,
       (OS.Completed 0 "" "",
        OS.write_file (nth 4 cmd "")
          ("<svg>" +:+ String "013" (String "010" "</svg>") +:+ String "013" EmptyString)
          fs)).

(** A machine whose [potrace] fails with exit status 2 and a message. *)
Definition failing_world : OS.World :=
  OS.mkWorld (λ _, "/tmp/tmpa1b2c3")
    (λ _ _ fs, (OS.Completed 2 "" "potrace: cannot read input", fs)).

(** A one-row image around the default threshold, and a contour with a
    corner and a curve. *)
Definition row3 : Raster.Image := Raster.mkImage 3 1 [ [ 0; 128; 129 ] ].

Definition pt (a b : string) : Potrace.Point := Potrace.mkPoint (Float a) (Float b).

Definition leaf_curve : Potrace.Curve :=
  Potrace.mkCurve (pt "0.0" "0.0")
    [ Potrace.Corner (pt "4.0" "0.0") (pt "4.0" "2.0");
      Potrace.Bezier (pt "3.5" "3.0") (pt "1.0" "3.0") (pt "0.0" "0.0") ].

(** A comment node and a group element, for trees built by hand. *)
Definition note : ET.Element := ET.mkElement ET.Comment [] (Some " note ") None [].

Definition group (kids : list ET.Element) : ET.Element :=
  ET.mkElement (ET.Name "g") [] None None kids.



(** A document whose text holds a carriage return, written as a character
    reference. *)
Definition carriage_return_svg : string := "<svg><text>a&#13;b</text></svg>".

(** A tracer for examples: one empty contour when some pixel is set, nothing
    otherwise. *)
Definition toy_tracer : Potrace.Tracer :=
  λ bitmap _,
    if forallb (forallb negb) bitmap then []
    else [ Potrace.mkCurve (Potrace.mkPoint (Float "0.0") (Float "0.0")) [] ].

(** * Properties *)

(** ** Strings and numerals *)

Section TextFacts.

Lemma append_nil_l (s : string) : EmptyString +:+ s = s.
Proof. reflexivity. Qed.

Lemma append_cons (c : ascii) (a b : string) : String c a +:+ b = String c (a +:+ b).
Proof. reflexivity. Qed.

Lemma append_assoc (a b c : string) : (a +:+ b) +:+ c = a +:+ b +:+ c.
Proof.
  induction a as [|x a IH]; [reflexivity|].
  rewrite !append_cons, IH. reflexivity.
Qed.

Lemma list_ascii_of_string_app (a b : string) :
  list_ascii_of_string (a +:+ b) = list_ascii_of_string a ++ list_ascii_of_string b.
Proof.
  induction a as [|c a IH]; [reflexivity|].
  rewrite append_cons. simpl. rewrite IH. reflexivity.
Qed.

Lemma length_append (a b : string) :
  String.length (a +:+ b) = (String.length a + String.length b)%nat.
Proof.
  induction a as [|c a IH]; [reflexivity|].
  rewrite append_cons. simpl. rewrite IH. reflexivity.
Qed.

Lemma all_plain_app (a b : string) :
  all_plain (a +:+ b) = all_plain a && all_plain b.
Proof. unfold all_plain. rewrite list_ascii_of_string_app. apply forallb_app. Qed.

Lemma all_plain_cons (c : ascii) (s : string) :
  all_plain (String c s) = is_plain c && all_plain s.
Proof. reflexivity. Qed.

Lemma pretty_N_char_plain (n : N) : is_plain (pretty_N_char n) = true.
Proof. unfold pretty_N_char. repeat case_match; reflexivity. Qed.

Lemma pretty_N_go_plain (n : N) (s : string) :
  all_plain s = true → all_plain (pretty_N_go n s) = true.
Proof.
  revert s. induction (N.lt_wf_0 n) as [n _ IH]. intros s Hs.
  destruct (decide (n = 0%N)) as [->|Hn]; [exact Hs|].
  rewrite pretty_N_go_step by lia. apply IH.
  - apply N.div_lt; lia.
  - rewrite all_plain_cons, pretty_N_char_plain, Hs. reflexivity.
Qed.

Lemma pretty_N_plain (n : N) : all_plain (pretty n) = true.
Proof.
  unfold pretty, pretty_N. case_decide; [reflexivity|].
  apply pretty_N_go_plain. reflexivity.
Qed.

(** [str] of an integer is made of digits and a sign. *)
Lemma str_int_plain (z : Z) : all_plain (str_int z) = true.
Proof.
  destruct z as [|p|p].
  - reflexivity.
  - exact (pretty_N_plain (N.pos p)).
  - change (all_plain ("-" +:+ pretty (N.pos p)) = true).
    rewrite all_plain_app, (pretty_N_plain (N.pos p)). reflexivity.
Qed.

End TextFacts.

(** ** Binarization *)

Section RasterFacts.
Import Raster.

Lemma lookup_map {A B} (f : A → B) (l : list A) (i : nat) :
  map f l !! i = f <$> l !! i.
Proof.
  revert i. induction l as [|a l IH]; intros [|i]; simpl; auto.
Qed.

Lemma pixel_map {A B} (f : A → B) (m : list (list A)) (r c : nat) :
  pixel (map (map f) m) r c = f <$> pixel m r c.
Proof.
  unfold pixel. rewrite lookup_map.
  destruct (m !! r) as [row|]; simpl; [apply lookup_map | reflexivity].
Qed.

Lemma pixel_img_bw (img_gray : Image) (threshold : Z) (invert : bool) (r c : nat) :
  pixel (rows (img_bw img_gray threshold invert)) r c
  = (λ lum, if invert then invert_lut (threshold_lut threshold lum)
            else threshold_lut threshold lum) <$> pixel (rows img_gray) r c.
Proof.
  unfold img_bw. destruct invert; simpl; rewrite !pixel_map;
    destruct (pixel (rows img_gray) r c); reflexivity.
Qed.

Lemma threshold_lut_cases (threshold lum : Z) :
  threshold_lut threshold lum = 0 ∨ threshold_lut threshold lum = 255.
Proof. unfold threshold_lut. destruct (lum >? threshold); auto. Qed.

Lemma pixel_pypotrace_bitmap (img_gray : Image) (threshold : Z)
  (invert : bool) (r c : nat) :
  pixel (pypotrace_bitmap img_gray threshold invert) r c
  = (λ lum, if invert then negb (lum >? threshold) else lum >? threshold)
      <$> pixel (rows img_gray) r c.
Proof.
  unfold pypotrace_bitmap, bitmap_array.
  rewrite pixel_map, pixel_img_bw.
  destruct (pixel (rows img_gray) r c) as [lum|]; simpl; [|auto].
  unfold invert_lut, threshold_lut.
  destruct invert, (lum >? threshold); simpl; auto.
Qed.

Lemma pixel_cli_bitmap (img_gray : Image) (threshold : Z)
  (invert : bool) (r c : nat) :
  pixel (cli_bitmap img_gray threshold invert) r c
  = (λ lum, if (if invert then negb (lum >? threshold) else lum >? threshold)
            then 255 else 0)
      <$> pixel (rows img_gray) r c.
Proof.
  unfold cli_bitmap. rewrite pixel_img_bw.
  destruct (pixel (rows img_gray) r c) as [lum|]; simpl; [|auto].
  unfold invert_lut, threshold_lut.
  destruct invert, (lum >? threshold); simpl; auto.
Qed.

Lemma pixel_pbm_bits (img_gray : Image) (threshold : Z)
  (invert : bool) (r c : nat) :
  pixel (pbm_bits (cli_bitmap img_gray threshold invert)) r c
  = (λ lum, negb (if invert then negb (lum >? threshold) else lum >? threshold))
      <$> pixel (rows img_gray) r c.
Proof.
  unfold pbm_bits. rewrite pixel_map, pixel_cli_bitmap.
  destruct (pixel (rows img_gray) r c) as [lum|]; simpl; [|reflexivity].
  destruct invert, (lum >? threshold); reflexivity.
Qed.

(** C2. The two backends binarize with opposite polarity.  In the array the
    in-process backend gives to the tracer a pixel is set, and so traced,
    exactly when its luminance is strictly greater than the threshold (the
    other way round with [invert]).  In the PBM file the command-line
    backend saves, whose data are the packed rows of [pbm_bits], the bit of
    a pixel is one, black, what [potrace] traces, exactly when its luminance
    is not greater than the threshold (the other way round with [invert]):
    pixel by pixel the complement of the array. *)
Theorem backends_binarize_oppositely (img_gray : Image) (threshold : Z)
  (invert : bool) (r c : nat) :
  pixel (pypotrace_bitmap img_gray threshold invert) r c
  = (λ lum, if invert then negb (lum >? threshold) else lum >? threshold)
      <$> pixel (rows img_gray) r c
  ∧ pixel (pbm_bits (cli_bitmap img_gray threshold invert)) r c
    = (λ lum, negb (if invert then negb (lum >? threshold) else lum >? threshold))
        <$> pixel (rows img_gray) r c
  ∧ pixel (pbm_bits (cli_bitmap img_gray threshold invert)) r c
    = negb <$> pixel (pypotrace_bitmap img_gray threshold invert) r c
  ∧ save_pbm (img_bw img_gray threshold invert)
    = "P4" +:+ String "010" (str_int (width img_gray) +:+ " " +:+ str_int (height img_gray))
      +:+ String "010"
            (fold_right String.append ""
               (map pack_row (pbm_bits (cli_bitmap img_gray threshold invert)))).
Proof.
  rewrite pixel_pypotrace_bitmap, pixel_pbm_bits.
  repeat split.
  - destruct (pixel (rows img_gray) r c) as [lum|]; reflexivity.
  - unfold save_pbm, cli_bitmap. destruct invert; reflexivity.
Qed.

(** C9. The bitmap handed to the tracer with [invert=true] is the pixelwise
    complement of the one for [invert=false]: [not] on the boolean array of
    the in-process backend, [255 - v] on the 1-bit image of the command-line
    backend, whose pixels are all 0 or 255. *)
Theorem invert_is_complement (img_gray : Image) (threshold : Z) (r c : nat) :
  pixel (pypotrace_bitmap img_gray threshold true) r c
  = negb <$> pixel (pypotrace_bitmap img_gray threshold false) r c
  ∧ pixel (cli_bitmap img_gray threshold true) r c
    = (λ v, 255 - v) <$> pixel (cli_bitmap img_gray threshold false) r c
  ∧ Forall (Forall (λ v, v = 0 ∨ v = 255)) (cli_bitmap img_gray threshold false).
Proof.
  split; [|split].
  - rewrite !pixel_pypotrace_bitmap.
    destruct (pixel (rows img_gray) r c); reflexivity.
  - unfold cli_bitmap. rewrite !pixel_img_bw.
    destruct (pixel (rows img_gray) r c); reflexivity.
  - unfold cli_bitmap, img_bw, point. simpl.
    apply List.Forall_forall. intros row Hrow.
    apply in_map_iff in Hrow as [row0 [<- _]].
    apply List.Forall_forall. intros v Hv. apply in_map_iff in Hv as [lum [<- _]].
    apply threshold_lut_cases.
Qed.

End RasterFacts.

(** ** The SVG builder *)

Section BuilderFacts.
Import Raster ET Potrace OS VectorizationService PathSyntax.

Lemma join_cons (sep a b : string) (l : list string) :
  join sep (a :: b :: l) = a +:+ sep +:+ join sep (b :: l).
Proof. reflexivity. Qed.





Lemma children_fold_append (path : list Curve) (svg : Element) :
  children (fold_left (λ svg curve, append (path_elem curve) svg) path svg)
  = children svg ++ map path_elem path.
Proof.
  revert svg. induction path as [|curve path IH]; intros svg; simpl.
  - rewrite app_nil_r. reflexivity.
  - rewrite IH. destruct svg; simpl. rewrite <- app_assoc. reflexivity.
Qed.

Lemma attrib_fold_append (path : list Curve) (svg : Element) :
  attrib (fold_left (λ svg curve, append (path_elem curve) svg) path svg) = attrib svg
  ∧ tag (fold_left (λ svg curve, append (path_elem curve) svg) path svg) = tag svg.
Proof.
  revert svg. induction path as [|curve path IH]; intros svg; simpl; [auto|].
  destruct (IH (append (path_elem curve) svg)) as [-> ->]. destruct svg; auto.
Qed.

Lemma children_svg_tree (path : list Curve) (width height : Z) :
  children (svg_tree path width height) = map path_elem path.
Proof. unfold svg_tree. rewrite children_fold_append. reflexivity. Qed.


(** C5. Every element the builder emits for a traced contour is a [path]
    with [fill="black"] and [stroke="none"], and there is one per contour. *)
Theorem paths_are_filled_and_strokeless (path : list Curve) (width height : Z) :
  Forall (λ e,
      tag e = Name "path"
      ∧ get e "fill" = Some "black"
      ∧ get e "stroke" = Some "none"
      ∧ map fst (attrib e) = [ "d"; "fill"; "stroke" ])
    (children (svg_tree path width height))
  ∧ length (children (svg_tree path width height)) = length path.
Proof.
  rewrite children_svg_tree. split; [|apply length_map].
  apply List.Forall_forall. intros e He.
  apply in_map_iff in He as [curve [<- _]]. repeat split.
Qed.

End BuilderFacts.

(** ** Reading back what was written *)

Section ParserFacts.
Import ET XMLParser VectorizationService.

Lemma append_nil_r (s : string) : s +:+ "" = s.
Proof. induction s as [|c s IH]; [reflexivity|]. rewrite append_cons, IH. reflexivity. Qed.

Lemma replace_char_plain (c : ascii) (by_ s : string) :
  is_plain c = false → all_plain s = true → replace_char c by_ s = s.
Proof.
  intros Hc. induction s as [|d s IH]; [reflexivity|].
  rewrite all_plain_cons. intros [Hd Hs]%andb_prop. simpl.
  destruct (Ascii.eqb_spec d c) as [->|_]; [congruence|].
  rewrite (IH Hs). reflexivity.
Qed.

Lemma escape_attrib_plain (s : string) : all_plain s = true → escape_attrib s = s.
Proof.
  intros H. unfold escape_attrib, escape_cdata.
  rewrite (replace_char_plain "&" _ s), (replace_char_plain "<" _ s),
    (replace_char_plain ">" _ s), (replace_char_plain "034" _ s),
    (replace_char_plain "013" _ s), (replace_char_plain "010" _ s),
    (replace_char_plain "009" _ s) by (reflexivity || assumption).
  reflexivity.
Qed.

Lemma name_start_facts (c : ascii) :
  is_name_start c = true →
  is_space c = false ∧ Ascii.eqb c ">" = false ∧ Ascii.eqb c "/" = false
  ∧ is_name_char c = true.
Proof.
  destruct c as [[] [] [] [] [] [] [] []]; intros H; try discriminate H; repeat split.
Qed.

Lemma plain_is_value_char (c : ascii) : is_plain c = true → is_value_char c = true.
Proof.
  destruct c as [[] [] [] [] [] [] [] []]; intros H; try discriminate H; reflexivity.
Qed.

Lemma plain_is_value (s : string) : all_plain s = true → is_value s = true.
Proof.
  unfold all_plain, is_value. induction (list_ascii_of_string s) as [|c l IH]; [reflexivity|].
  simpl. intros [Hc Hl]%andb_prop. rewrite (plain_is_value_char _ Hc), (IH Hl). reflexivity.
Qed.

Lemma is_value_app (a b : string) : is_value (a +:+ b) = is_value a && is_value b.
Proof. unfold is_value. rewrite list_ascii_of_string_app. apply forallb_app. Qed.

Lemma scan_name_chars_app (name : string) (d : ascii) (rest : string) :
  forallb is_name_char (list_ascii_of_string name) = true →
  is_name_char d = false →
  scan_name_chars (name +:+ String d rest) = (name, String d rest).
Proof.
  intros Hn Hd. induction name as [|c name IH].
  - rewrite append_nil_l. simpl. rewrite Hd. reflexivity.
  - simpl in Hn. apply andb_prop in Hn as [Hc Hn]. rewrite append_cons. simpl.
    rewrite Hc, (IH Hn). reflexivity.
Qed.

Lemma scan_name_app (name : string) (d : ascii) (rest : string) :
  is_name name = true →
  is_name_char d = false →
  scan_name (name +:+ String d rest) = Some (name, String d rest).
Proof.
  destruct name as [|c name]; [discriminate|].
  unfold is_name. intros [Hc Hn]%andb_prop Hd.
  rewrite append_cons. unfold scan_name. rewrite Hc. f_equal.
  rewrite <- append_cons. apply scan_name_chars_app; [|exact Hd]. simpl.
  rewrite Hn. destruct (name_start_facts c Hc) as (_ & _ & _ & ->). reflexivity.
Qed.

Lemma skip_spaces_name (name rest : string) :
  is_name name = true → skip_spaces (name +:+ rest) = name +:+ rest.
Proof.
  destruct name as [|c name]; [discriminate|].
  unfold is_name. intros [Hc _]%andb_prop. rewrite append_cons. simpl.
  destruct (name_start_facts c Hc) as (-> & _). reflexivity.
Qed.

Lemma scan_attr_value_written (v : string) :
  ∀ n acc rest,
    is_value v = true →
    scan_attr_value (S (String.length v + n)) "034" acc (v +:+ String "034" rest)
    = Some (acc +:+ v, rest).
Proof.
  induction v as [|c v IH]; intros n acc rest Hv.
  - rewrite append_nil_l, append_nil_r. reflexivity.
  - unfold is_value in Hv. simpl in Hv. apply andb_prop in Hv as [Hc Hv].
    rewrite append_cons. cbn [scan_attr_value String.length Nat.add].
    assert (Hstep : (Ascii.eqb c "034" = false) ∧ (Ascii.eqb c "<" = false)
                    ∧ (Ascii.eqb c "&" = false)
                    ∧ (if is_space c then snoc acc space else snoc acc c) = snoc acc c
                    ∧ (is_space c || is_char c = true)).
    { clear -Hc. destruct c as [[] [] [] [] [] [] [] []]; try discriminate Hc; repeat split. }
    destruct Hstep as (-> & -> & -> & Hsp & Hch).
    replace (acc +:+ String c v) with (snoc acc c +:+ v)
      by (unfold snoc; rewrite append_assoc; reflexivity).
    destruct (is_space c) eqn:Esp.
    + rewrite Hsp. apply IH, Hv.
    + simpl in Hch. rewrite Hch. apply IH, Hv.
Qed.

Lemma eqb_cons_self (c : ascii) (s : string) : String.eqb (String c s) s = false.
Proof.
  apply String.eqb_neq. intros H. apply (f_equal String.length) in H. simpl in H. lia.
Qed.

Lemma scan_attributes_written (attrs : list (string * string)) :
  ∀ fuel rest,
    forallb ok_attribute attrs = true →
    (length attrs < fuel)%nat →
    scan_attributes fuel (concat_strings (map written_attribute attrs) +:+ String ">" rest)
    = Some (attrs, String ">" rest).
Proof.
  induction attrs as [|[k v] attrs IH]; intros fuel rest Hok Hfuel.
  - destruct fuel; [simpl in Hfuel; lia|]. reflexivity.
  - destruct fuel; [simpl in Hfuel; lia|].
    simpl in Hok. apply andb_prop in Hok as [[Hk Hv]%andb_prop Hok].
    simpl in Hk, Hv.
    cbn [map concat_strings fold_right]. unfold written_attribute at 1, dquote.
    cbn [fst snd].
    rewrite !append_assoc, !append_cons, !append_nil_l.
    cbn [scan_attributes]. cbv zeta.
    change (skip_spaces (String " " ?x)) with (skip_spaces x).
    rewrite (skip_spaces_name k _ Hk).
    match goal with |- context [k +:+ ?t] => remember t as tl eqn:Htl end.
    destruct k as [|c k]; [discriminate|].
    rewrite !append_cons.
    pose proof Hk as Hk'. unfold is_name in Hk'. apply andb_prop in Hk' as [Hc _].
    destruct (name_start_facts c Hc) as (_ & -> & -> & _). cbn [orb].
    rewrite eqb_cons_self.
    rewrite <- !append_cons. subst tl. rewrite (scan_name_app _ "="%char _ Hk (eq_refl false)).
    cbn [skip_spaces is_space]. simpl (strip_prefix _ _). simpl (skip_spaces _).
    cbv beta iota. simpl (skip_spaces _). cbv beta iota.
    simpl (Ascii.eqb _ _ || _). cbv beta iota.
    rewrite length_append.
    rewrite (scan_attr_value_written v _ _ _ Hv). rewrite append_nil_l.
    fold (concat_strings (map written_attribute attrs)).
    rewrite IH; [reflexivity | exact Hok | simpl in Hfuel; lia].
Qed.

Lemma written_attributes_head (attrs : list (string * string)) (rest : string) :
  ∃ d r, concat_strings (map written_attribute attrs) +:+ String ">" rest = String d r
         ∧ is_name_char d = false.
Proof.
  destruct attrs as [|kv attrs].
  - exists ">"%char, rest. split; reflexivity.
  - exists " "%char. eexists. split; [|reflexivity].
    cbn [map concat_strings fold_right]. unfold written_attribute at 1.
    rewrite !append_assoc, append_cons, append_nil_l. reflexivity.
Qed.

Lemma length_written_attributes (attrs : list (string * string)) :
  (length attrs ≤ String.length (concat_strings (map written_attribute attrs)))%nat.
Proof.
  induction attrs as [|kv attrs IH]; [simpl; lia|].
  cbn [map concat_strings fold_right length].
  change (foldr String.append "" (map written_attribute attrs))
    with (concat_strings (map written_attribute attrs)).
  unfold written_attribute at 1. rewrite !length_append.
  change (String.length " ") with 1%nat. lia.
Qed.

(** A start tag written with plain attribute values reads back. *)
Lemma scan_start_tag (name : string) (attrs : list (string * string)) (rest : string) :
  is_name name = true →
  forallb ok_attribute attrs = true →
  let s1 := concat_strings (map written_attribute attrs) +:+ String ">" rest in
  scan_name (name +:+ s1) = Some (name, s1)
  ∧ scan_attributes (S (String.length s1)) s1 = Some (attrs, String ">" rest).
Proof.
  intros Hname Hattrs s1. split.
  - destruct (written_attributes_head attrs rest) as (d & r & Hs1 & Hd).
    unfold s1. rewrite Hs1. apply scan_name_app; assumption.
  - apply scan_attributes_written; [exact Hattrs|].
    unfold s1. rewrite length_append.
    pose proof (length_written_attributes attrs). lia.
Qed.

Lemma normalize_newlines_id (s : string) :
  no_carriage_return s = true → normalize_newlines s = s.
Proof.
  unfold no_carriage_return. induction s as [|c s IH]; [reflexivity|].
  simpl. intros [Hc Hs]%andb_prop. apply negb_true_iff in Hc. rewrite Hc, (IH Hs).
  reflexivity.
Qed.

Lemma no_carriage_return_app (a b : string) :
  no_carriage_return (a +:+ b) = no_carriage_return a && no_carriage_return b.
Proof.
  unfold no_carriage_return. rewrite list_ascii_of_string_app. apply forallb_app.
Qed.

Lemma forallb_weaken {A} (p q : A → bool) (l : list A) :
  (∀ x, p x = true → q x = true) → forallb p l = true → forallb q l = true.
Proof.
  intros Hpq. induction l as [|x l IH]; [reflexivity|].
  simpl. intros [Hx Hl]%andb_prop. rewrite (Hpq _ Hx), (IH Hl). reflexivity.
Qed.

Lemma name_no_carriage_return (s : string) :
  is_name s = true → no_carriage_return s = true.
Proof.
  destruct s as [|c s]; [discriminate|]. unfold is_name, no_carriage_return.
  intros [Hc Hs]%andb_prop. simpl. apply andb_true_intro. split.
  - clear -Hc. destruct c as [[] [] [] [] [] [] [] []]; try discriminate Hc; reflexivity.
  - revert Hs. apply forallb_weaken. clear. intros c Hc.
    destruct c as [[] [] [] [] [] [] [] []]; try discriminate Hc; reflexivity.
Qed.

Lemma value_no_carriage_return (s : string) :
  is_value s = true → no_carriage_return s = true.
Proof.
  unfold is_value, no_carriage_return. apply forallb_weaken. intros c Hc.
  destruct c as [[] [] [] [] [] [] [] []]; try discriminate Hc; reflexivity.
Qed.

Lemma written_no_carriage_return (attrs : list (string * string)) :
  forallb ok_attribute attrs = true →
  no_carriage_return (concat_strings (map written_attribute attrs)) = true.
Proof.
  induction attrs as [|[k v] attrs IH]; [reflexivity|].
  simpl forallb. intros [[Hk Hv]%andb_prop Hok]%andb_prop. simpl in Hk, Hv.
  cbn [map concat_strings fold_right]. unfold written_attribute at 1. cbn [fst snd].
  rewrite !no_carriage_return_app.
  rewrite (name_no_carriage_return _ Hk), (value_no_carriage_return _ Hv).
  change (foldr String.append "" (map written_attribute attrs))
    with (concat_strings (map written_attribute attrs)).
  rewrite (IH Hok). reflexivity.
Qed.


(** A text that begins with a start tag has an empty prolog. *)
Lemma prolog_of_element (c : ascii) (r : string) (f : nat) :
  is_name_start c = true →
  let s := String "<" (String c r) in
  skip_xml_declaration s = Some s
  ∧ skip_misc (S f) s = Some s
  ∧ strip_prefix "<" s = Some (String c r).
Proof.
  intros Hc s. unfold s.
  destruct c as [[] [] [] [] [] [] [] []]; try discriminate Hc; repeat split.
Qed.

Lemma parse_content_end_tag (f : nat) (env : list (string * string)) (r : string) :
  parse_content (S f) env EmptyString (String "<" (String "/" r))
  = Some (EmptyString, [], r).
Proof. reflexivity. Qed.

Lemma skip_misc_end (f : nat) : skip_misc (S f) EmptyString = Some EmptyString.
Proof. reflexivity. Qed.

(** An element without content whose start tag was written with plain
    attribute values reads back. *)
Lemma parse_empty_element (f : nat) (env : list (string * string))
  (name : string) (attrs : list (string * string)) (tag : string)
  (items env' : list (string * string)) :
  is_name name = true →
  forallb ok_attribute attrs = true →
  open_element env name attrs = Some (tag, items, env') →
  parse_element (S (S f)) env
    (name +:+ concat_strings (map written_attribute attrs)
          +:+ String ">" ("</" +:+ name +:+ ">"))
  = Some (mkElement (Name tag) items None None [], EmptyString).
Proof.
  intros Hname Hattrs Hopen.
  destruct (scan_start_tag name attrs ("</" +:+ name +:+ ">") Hname Hattrs)
    as [Hscan_name Hscan_attrs].
  cbn [parse_element]. rewrite Hscan_name, Hscan_attrs, Hopen.
  cbn [strip_prefix]. change (Ascii.eqb "/" ">") with false. cbv beta iota.
  change (Ascii.eqb ">" ">") with true. cbv beta iota.
  rewrite !append_cons, append_nil_l, parse_content_end_tag.
  rewrite (scan_name_app name ">" EmptyString Hname eq_refl).
  cbn [skip_spaces is_space strip_prefix]. change (Ascii.eqb ">" ">") with true.
  cbv beta iota. rewrite String.eqb_refl. reflexivity.
Qed.

(** The placeholder is a well-formed document: an [svg] element in the
    SVG namespace, without children, whose attributes are the dimensions. *)
Lemma placeholder_parses (w h : Z) :
  fromstring (_placeholder_svg w h)
  = Some (mkElement (Name "{http://www.w3.org/2000/svg}svg")
            [ ("width", str_int w); ("height", str_int h);
              ("viewBox", "0 0 " +:+ str_int w +:+ " " +:+ str_int h);
              ("version", "1.1") ] None None []).
Proof.
  pose proof (plain_is_value _ (str_int_plain w)) as Hw.
  pose proof (plain_is_value _ (str_int_plain h)) as Hh.
  unfold _placeholder_svg.
  generalize dependent (str_int w). intros sw Hw.
  generalize dependent (str_int h). intros sh Hh. clear w h.
  assert (Hvb : is_value ("0 0 " +:+ sw +:+ " " +:+ sh) = true)
    by (rewrite !is_value_app, Hw, Hh; reflexivity).
  match goal with
  | |- fromstring ?s = _ =>
      assert (Hs : s = String "<"
                         ("svg" +:+ concat_strings (map written_attribute
                             [ ("xmlns", "http://www.w3.org/2000/svg");
                               ("width", sw); ("height", sh);
                               ("viewBox", "0 0 " +:+ sw +:+ " " +:+ sh);
                               ("version", "1.1") ])
                          +:+ String ">" ("</" +:+ "svg" +:+ ">")))
  end.
  { unfold written_attribute, dquote. cbn [map concat_strings fold_right fst snd].
    rewrite !append_assoc, !append_cons, !append_nil_l. reflexivity. }
  rewrite Hs. clear Hs.
  generalize dependent ("0 0 " +:+ sw +:+ " " +:+ sh). intros vb Hvb.
  set (attrs := [ ("xmlns", "http://www.w3.org/2000/svg"); ("width", sw);
                  ("height", sh); ("viewBox", vb); ("version", "1.1") ]).
  assert (Hattrs : forallb ok_attribute attrs = true).
  { unfold attrs, ok_attribute. cbn [forallb fst snd]. rewrite Hw, Hh, Hvb. reflexivity. }
  assert (Hopen : open_element initial_env "svg" attrs
                  = Some ("{http://www.w3.org/2000/svg}svg",
                          [ ("width", sw); ("height", sh); ("viewBox", vb);
                            ("version", "1.1") ],
                          ("", "http://www.w3.org/2000/svg") :: initial_env))
    by reflexivity.
  pose proof (λ f, parse_empty_element f initial_env "svg" attrs _ _ _
                     eq_refl Hattrs Hopen) as Hparse.
  assert (Hcr : no_carriage_return
                  (String "<" ("svg" +:+ concat_strings (map written_attribute attrs)
                               +:+ String ">" ("</" +:+ "svg" +:+ ">"))) = true).
  { change (String "<" ?x) with ("<" +:+ x).
    rewrite !no_carriage_return_app, (written_no_carriage_return _ Hattrs).
    reflexivity. }
  unfold fromstring. rewrite (normalize_newlines_id _ Hcr). clear Hcr. cbv zeta.
  revert Hparse.
  generalize (concat_strings (map written_attribute attrs)). intros body Hparse.
  rewrite (append_cons "s" "vg" _) in *.
  change (String.length (String "<" (String "s" ?r)))
    with (S (S (String.length r))).
  destruct (prolog_of_element "s" ("vg" +:+ body +:+ String ">" ("</" +:+ "svg" +:+ ">"))
              (S (S (String.length
                       ("vg" +:+ body +:+ String ">" ("</" +:+ "svg" +:+ ">")))))
              eq_refl)
    as (H1 & H2 & H4).
  rewrite H1. cbn [mbind option_bind].
  rewrite H2. cbn [mbind option_bind].
  rewrite H4. cbn [mbind option_bind].
  rewrite Hparse. cbn [mbind option_bind].
  rewrite skip_misc_end. reflexivity.
Qed.

End ParserFacts.

(** ** The tracing backends *)

Section BackendFacts.
Import Raster ET Potrace OS VectorizationService PathSyntax Further.

Lemma last_char_app (a b : string) :
  b ≠ EmptyString → last_char (a +:+ b) = last_char b.
Proof.
  intros Hb. induction a as [|c a IH]; [reflexivity|].
  rewrite append_cons. simpl. rewrite IH.
  destruct (a +:+ b) eqn:E; [|reflexivity].
  destruct a; [|discriminate]. rewrite append_nil_l in E. contradiction.
Qed.

Lemma path_join_suffix (a b : string) : ∃ pre, path_join a b = pre +:+ b.
Proof.
  unfold path_join. destruct (String.eqb a ""); [exists EmptyString; reflexivity|].
  destruct (ends_with_slash a); [exists a; reflexivity|].
  exists (a +:+ "/"). rewrite append_assoc. reflexivity.
Qed.

Lemma last_char_path_join (a b : string) :
  b ≠ EmptyString → last_char (path_join a b) = last_char b.
Proof.
  intros Hb. destruct (path_join_suffix a b) as [pre ->].
  apply last_char_app, Hb.
Qed.

(** C4. The keyword arguments of the in-process trace call carry the
    turn policy "minority", [turdsize] 2 and [opttolerance] 0.2; the command
    line of the other backend carries [--turdsize], [--alphamax] and
    [--opttolerance] and nothing else from the parameters: neither a
    [--turnpolicy] option nor the configured policy occurs in it. *)
Theorem cli_command_omits_turnpolicy (tmpdir : string) :
  let cmd := potrace_cmd default_params (pbm_path tmpdir) (svg_path tmpdir) in
  turnpolicy trace_kwargs = "minority"
  ∧ turdsize trace_kwargs = 2
  ∧ opttolerance trace_kwargs = Float "0.2"
  ∧ cmd = [ "potrace"; pbm_path tmpdir; "--svg"; "--output"; svg_path tmpdir;
            "--turdsize"; "2"; "--alphamax"; "1.0"; "--opttolerance"; "0.2" ]
  ∧ ¬ In "--turnpolicy" cmd
  ∧ ¬ In (turnpolicy default_params) cmd.
Proof.
  assert (Hp : last_char (pbm_path tmpdir) = Some "m"%char)
    by (unfold pbm_path; rewrite last_char_path_join; [reflexivity | discriminate]).
  assert (Hs : last_char (svg_path tmpdir) = Some "g"%char)
    by (unfold svg_path; rewrite last_char_path_join; [reflexivity | discriminate]).
  repeat split.
  - simpl. intros H.
    repeat (destruct H as [H|H]; [first [discriminate H | rewrite H in *; discriminate] |]).
    exact H.
  - simpl. intros H.
    repeat (destruct H as [H|H]; [first [discriminate H | rewrite H in *; discriminate] |]).
    exact H.
Qed.

(** The builder's output for an empty path set. *)
Lemma tostring_svg_element (width height : Z) :
  tostring (svg_element width height)
  = "<svg xmlns=" +:+ dquote +:+ "http://www.w3.org/2000/svg" +:+ dquote
    +:+ " width=" +:+ dquote +:+ str_int width +:+ dquote
    +:+ " height=" +:+ dquote +:+ str_int height +:+ dquote
    +:+ " viewBox=" +:+ dquote
    +:+ "0 0 " +:+ str_int width +:+ " " +:+ str_int height
    +:+ dquote +:+ " version=" +:+ dquote +:+ "1.1" +:+ dquote +:+ " />".
Proof.
  pose proof (str_int_plain width) as Hw. pose proof (str_int_plain height) as Hh.
  assert (Hvb : all_plain ("0 0 " +:+ str_int width +:+ " " +:+ str_int height) = true)
    by (rewrite !all_plain_app, Hw, Hh; reflexivity).
  apply escape_attrib_plain in Hw, Hh, Hvb.
  unfold svg_element. revert Hw Hh Hvb.
  generalize (str_int width), (str_int height). intros sw sh Hw Hh Hvb.
  cbv -[String.append escape_attrib]. rewrite Hw, Hh, Hvb.
  rewrite !append_assoc. reflexivity.
Qed.

(** X21. When the binarized bitmap has no set pixel, and the tracer
    returns no contour for such a bitmap, the in-process backend returns the
    serialization of an [svg] root without children whose [width], [height]
    and [viewBox] are the dimensions of the source image. *)
Theorem blank_raster_has_no_paths (trace : Tracer) (w : World)
  (img_gray : Image) (threshold : Z) (invert : bool) (fs : FS) :
  (∀ bitmap params, no_foreground bitmap → trace bitmap params = []) →
  no_foreground (pypotrace_bitmap img_gray threshold invert) →
  let svg := traced_tree trace img_gray threshold invert in
  bitmap_to_svg (Some trace) w img_gray threshold invert fs
  = (Returned (tostring svg), fs)
  ∧ tag svg = Name "svg"
  ∧ children svg = []
  ∧ get svg "width" = Some (str_int (width img_gray))
  ∧ get svg "height" = Some (str_int (height img_gray))
  ∧ get svg "viewBox"
    = Some ("0 0 " +:+ str_int (width img_gray) +:+ " " +:+ str_int (height img_gray))
  ∧ tostring svg
    = "<svg xmlns=" +:+ dquote +:+ "http://www.w3.org/2000/svg" +:+ dquote
      +:+ " width=" +:+ dquote +:+ str_int (width img_gray) +:+ dquote
      +:+ " height=" +:+ dquote +:+ str_int (height img_gray) +:+ dquote
      +:+ " viewBox=" +:+ dquote
      +:+ "0 0 " +:+ str_int (width img_gray) +:+ " " +:+ str_int (height img_gray)
      +:+ dquote +:+ " version=" +:+ dquote +:+ "1.1" +:+ dquote +:+ " />".
Proof.
  intros Htrace Hblank svg.
  assert (Hsvg : svg = svg_element (width img_gray) (height img_gray)).
  { unfold svg, traced_tree. rewrite (Htrace _ _ Hblank). reflexivity. }
  split; [reflexivity|]. rewrite Hsvg.
  repeat split.
  apply tostring_svg_element.
Qed.

Lemma blank_raster_has_no_paths_witness :
  let svg := traced_tree toy_tracer (solid 256 256 0) 128 false in
  children svg = []
  ∧ get svg "width" = Some "256"
  ∧ get svg "height" = Some "256"
  ∧ get svg "viewBox" = Some "0 0 256 256".
Proof.
  assert (Htrace : ∀ bitmap params,
             no_foreground bitmap → toy_tracer bitmap params = []).
  { intros bitmap params H. unfold toy_tracer. rewrite H. reflexivity. }
  assert (Hblank : no_foreground (pypotrace_bitmap (solid 256 256 0) 128 false)).
  { vm_compute. reflexivity. }
  destruct (blank_raster_has_no_paths toy_tracer no_potrace_world
              (solid 256 256 0) 128 false empty_fs Htrace Hblank)
    as (_ & _ & Hkids & Hw & Hh & Hv & _).
  repeat split; assumption.
Defined.

(** C6. The all-white 256x256 raster at the default threshold 128, not
    inverted: in the array the in-process backend gives to the tracer every
    pixel is set, so that the whole image is foreground to trace, while the
    PBM file the command-line backend saves for the same input has no black
    bit. *)
Theorem all_white_raster_is_all_foreground :
  all_foreground (pypotrace_bitmap (solid 256 256 255) 128 false)
  ∧ ¬ no_foreground (pypotrace_bitmap (solid 256 256 255) 128 false)
  ∧ forallb (forallb negb) (pbm_bits (cli_bitmap (solid 256 256 255) 128 false)) = true.
Proof.
  split; [vm_compute; reflexivity|].
  split; [vm_compute; discriminate | vm_compute; reflexivity].
Qed.

(** What the command-line backend returns and leaves behind, in terms of how
    the process ended and what it left. *)
Lemma cli_outcome (w : World) (img_gray : Image) (threshold : Z) (invert : bool)
  (fs : FS) :
  _vectorize_with_cli w img_gray threshold invert fs
  = (match potrace_result w img_gray threshold invert fs with
     | Completed rc out err =>
         if utf8_valid out && utf8_valid err then
           if rc =? 0
           then read_file (svg_path (cli_tmpdir w fs))
                  (potrace_fs w img_gray threshold invert fs)
           else Returned (_placeholder_svg (width img_gray) (height img_gray))
         else Raised UnicodeDecodeError
     | NoSuchBinary | TimedOut =>
         Returned (_placeholder_svg (width img_gray) (height img_gray))
     | NotExecutable => Raised PermissionError
     end,
     rmtree (cli_tmpdir w fs) (potrace_fs w img_gray threshold invert fs)).
Proof.
  unfold potrace_result, potrace_fs, cli_tmpdir, _vectorize_with_cli,
    with_TemporaryDirectory, cli_body, subprocess_run.
  destruct (run_process w _ 60 _) as [r fs'] eqn:E. cbn [fst snd].
  destruct r as [rc out err| | |]; [|reflexivity..].
  destruct (utf8_valid out && utf8_valid err); [|reflexivity].
  destruct (rc =? 0); reflexivity.
Qed.

(** C1. A failing run can raise.  When the bytes the process wrote to its
    standard output or standard error are not UTF-8, decoding them raises
    [UnicodeDecodeError] inside [subprocess.run], whatever the exit status,
    and none of the three [except] clauses catches it: [bitmap_to_svg]
    raises it instead of returning the placeholder. *)
Theorem undecodable_failure_escapes (w : World) (img_gray : Image)
  (threshold : Z) (invert : bool) (fs : FS) (rc : Z) (out err : string) :
  potrace_result w img_gray threshold invert fs = Completed rc out err →
  utf8_valid out && utf8_valid err = false →
  (bitmap_to_svg None w img_gray threshold invert fs).1 = Raised UnicodeDecodeError.
Proof.
  intros Hrun Hbytes. unfold bitmap_to_svg. rewrite cli_outcome, Hrun, Hbytes.
  reflexivity.
Qed.

Lemma undecodable_failure_escapes_witness :
  potrace_result garbled_world (solid 256 256 255) 128 false empty_fs
  = Completed 2 "" (String "255" EmptyString)
  ∧ (bitmap_to_svg None garbled_world (solid 256 256 255) 128 false empty_fs).1
    = Raised UnicodeDecodeError.
Proof.
  split; [reflexivity|].
  apply (undecodable_failure_escapes garbled_world (solid 256 256 255) 128 false
           empty_fs 2 "" (String "255" EmptyString)); reflexivity.
Defined.

(** X20. The failures the backend is written for: when the [potrace]
    process is missing, runs into its timeout, or exits with a non-zero
    status after output that can be decoded, [bitmap_to_svg] returns the
    placeholder SVG for the dimensions of the input image and does not
    raise.  The placeholder is a well-formed document: an [svg] element
    without children whose [width], [height] and [viewBox] are those
    dimensions. *)
Theorem cli_failure_gives_placeholder (w : World) (img_gray : Image)
  (threshold : Z) (invert : bool) (fs : FS) :
  handled_failure (potrace_result w img_gray threshold invert fs) →
  (bitmap_to_svg None w img_gray threshold invert fs).1
  = Returned (_placeholder_svg (width img_gray) (height img_gray))
  ∧ XMLParser.fromstring (_placeholder_svg (width img_gray) (height img_gray))
    = Some (mkElement (Name "{http://www.w3.org/2000/svg}svg")
              [ ("width", str_int (width img_gray));
                ("height", str_int (height img_gray));
                ("viewBox", "0 0 " +:+ str_int (width img_gray) +:+ " "
                            +:+ str_int (height img_gray));
                ("version", "1.1") ] None None []).
Proof.
  intros Hfail. split; [|apply placeholder_parses].
  unfold bitmap_to_svg. rewrite cli_outcome. cbn [fst].
  destruct (potrace_result w img_gray threshold invert fs) as [rc out err| | |];
    cbn [handled_failure] in Hfail; try reflexivity; [|contradiction].
  destruct Hfail as [Hrc ->].
  destruct (Z.eqb_spec rc 0) as [->|_]; [contradiction | reflexivity].
Qed.

Lemma cli_failure_gives_placeholder_witness :
  (bitmap_to_svg None failing_world (solid 256 256 255) 128 false empty_fs).1
  = Returned (_placeholder_svg 256 256).
Proof.
  apply (cli_failure_gives_placeholder failing_world (solid 256 256 255)
           128 false empty_fs).
  split; [discriminate | reflexivity].
Defined.

Lemma elem_of_dirs_rmtree (d p : string) (fs : FS) :
  p ∈ dirs (rmtree d fs) ↔ under d p = false ∧ p ∈ dirs fs.
Proof.
  unfold rmtree. simpl. rewrite elem_of_filter.
  destruct (under d p); simpl; intuition (auto; discriminate).
Qed.

Lemma lookup_files_rmtree (d p : string) (fs : FS) :
  files (rmtree d fs) !! p = if under d p then None else files fs !! p.
Proof.
  unfold rmtree. simpl. destruct (under d p) eqn:E.
  - apply map_lookup_filter_None_2. right. intros content _ H.
    simpl in H. rewrite E in H. apply H. exact I.
  - destruct (files fs !! p) as [content|] eqn:F.
    + apply map_lookup_filter_Some_2; [exact F|]. simpl. rewrite E. auto.
    + apply map_lookup_filter_None_2. left. exact F.
Qed.

Lemma under_refl (d : string) : under d d = true.
Proof. unfold under. rewrite String.eqb_refl. reflexivity. Qed.

Lemma prefix_append (a b : string) : String.prefix a (a +:+ b) = true.
Proof.
  induction a as [|c a IH]; [destruct b; reflexivity|].
  rewrite append_cons. simpl. destruct (ascii_dec c c); [exact IH | contradiction].
Qed.

(** The two files of the backend lie in the temporary directory, for a
    directory name as [tempfile] returns them. *)
Lemma temp_files_under (tmpdir : string) :
  String.eqb tmpdir "" = false → ends_with_slash tmpdir = false →
  under tmpdir (pbm_path tmpdir) = true ∧ under tmpdir (svg_path tmpdir) = true.
Proof.
  intros Hne Hslash. unfold under, pbm_path, svg_path, path_join.
  rewrite Hne, Hslash, <- !append_assoc, !prefix_append, !orb_true_r. auto.
Qed.

(** C8. Whatever the [potrace] process does and however it ends, after the
    command-line backend has returned the temporary directory is gone and
    no file remains at or below it; paths outside it are as the body of the
    [with] block left them. *)
Theorem temporary_directory_is_removed (w : World) (img_gray : Image)
  (threshold : Z) (invert : bool) (fs : FS) :
  let tmpdir := mkdtemp w fs in
  let after := (_vectorize_with_cli w img_gray threshold invert fs).2 in
  let inside := (cli_body w img_gray threshold invert tmpdir (mkdir tmpdir fs)).2 in
  (tmpdir ∉ dirs after)
  ∧ (∀ p, under tmpdir p = true → (p ∉ dirs after) ∧ files after !! p = None)
  ∧ (∀ p, under tmpdir p = false →
          (p ∈ dirs after ↔ p ∈ dirs inside) ∧ files after !! p = files inside !! p).
Proof.
  intros tmpdir after inside.
  assert (Hafter : after = rmtree tmpdir inside).
  { unfold after, inside, _vectorize_with_cli, with_TemporaryDirectory.
    fold tmpdir. destruct (cli_body _ _ _ _ _ _); reflexivity. }
  rewrite Hafter. split; [|split].
  - rewrite elem_of_dirs_rmtree, under_refl. intros [? _]; discriminate.
  - intros p Hp. rewrite elem_of_dirs_rmtree, lookup_files_rmtree, Hp.
    split; [intros [? _]; discriminate | reflexivity].
  - intros p Hp. rewrite elem_of_dirs_rmtree, lookup_files_rmtree, Hp.
    split; [tauto | reflexivity].
Qed.

End BackendFacts.

(** ** The fallback optimizer *)

Section OptimizerFacts.
Import ET XMLParser VectorizationService.

Lemma Element_ind' (P : Element → Prop) :
  (∀ t a tx tl kids, Forall P kids → P (mkElement t a tx tl kids)) → ∀ e, P e.
Proof.
  intros step. fix IH 1. intros [t a tx tl kids]. apply step.
  induction kids as [|k kids IHkids]; constructor; [apply IH | exact IHkids].
Qed.

Lemma no_comments_cons (e : Element) (l : list Element) :
  no_comments (e :: l) = comment_free e && no_comments l.
Proof.
  unfold comment_free, no_comments. simpl.
  rewrite app_nil_r, existsb_app, negb_orb. reflexivity.
Qed.

Lemma comment_free_named (q : string) a tx tl (kids : list Element) :
  comment_free (mkElement (Name q) a tx tl kids) = no_comments kids.
Proof. unfold comment_free, no_comments. simpl. rewrite app_nil_r. reflexivity. Qed.

Lemma comment_free_set_tail (x : option string) (e : Element) :
  comment_free (set_tail x e) = comment_free e.
Proof. destruct e. reflexivity. Qed.

Lemma comment_free_inv (e : Element) :
  comment_free e = true → is_comment e = false ∧ no_comments (children e) = true.
Proof.
  destruct e as [t a tx tl kids]. unfold comment_free, no_comments. simpl.
  rewrite app_nil_r, negb_orb. intros [H1 H2]%andb_prop.
  split; [apply negb_true_iff, H1 | exact H2].
Qed.

(** The parser builds named elements only. *)
Lemma parse_comment_free (fuel : nat) :
  (∀ env data s txt kids rest,
      parse_content fuel env data s = Some (txt, kids, rest) →
      no_comments kids = true)
  ∧ (∀ env s e rest,
        parse_element fuel env s = Some (e, rest) → comment_free e = true).
Proof.
  induction fuel as [|fuel [IHc IHe]]; [split; intros; discriminate|].
  split.
  - intros env data s txt kids rest H.
    destruct s as [|c s1]; [discriminate|].
    cbn [parse_content] in H.
    destruct (Ascii.eqb c "<").
    + destruct (strip_prefix "/" s1); [injection H as <- <- <-; reflexivity|].
      destruct (strip_prefix "!--" s1).
      { destruct (skip_comment _); [eauto | discriminate]. }
      destruct (strip_prefix "![CDATA[" s1).
      { destruct (scan_until _ _) as [[cdata s3]|]; [|discriminate].
        destruct (all_chars cdata); [eauto | discriminate]. }
      destruct (strip_prefix "?" s1).
      { destruct (skip_pi _); [eauto | discriminate]. }
      destruct (parse_element fuel env s1) as [[child s2]|] eqn:He; [|discriminate].
      destruct (parse_content fuel env EmptyString s2) as [[[tl sibs] s3]|] eqn:Hc;
        [|discriminate].
      injection H as <- <- <-.
      rewrite no_comments_cons, comment_free_set_tail.
      rewrite (IHe _ _ _ _ He), (IHc _ _ _ _ _ _ Hc). reflexivity.
    + destruct (Ascii.eqb c "&").
      { destruct (scan_reference s1) as [[d s2]|]; [eauto | discriminate]. }
      destruct (strip_prefix "]]>" _); [discriminate|].
      destruct (is_char c); [eauto | discriminate].
  - intros env s e rest H. cbn [parse_element] in H.
    destruct (scan_name s) as [[name s1]|]; [|discriminate].
    destruct (scan_attributes _ s1) as [[attrs s2]|]; [|discriminate].
    destruct (open_element env name attrs) as [[[tg items] env']|]; [|discriminate].
    destruct (strip_prefix "/>" s2); [injection H as <- <-; reflexivity|].
    destruct (strip_prefix ">" s2) as [s3|]; [|discriminate].
    destruct (parse_content fuel env' EmptyString s3) as [[[data kids] s4]|] eqn:Hc;
      [|discriminate].
    destruct (scan_name s4) as [[name' s5]|]; [|discriminate].
    destruct (strip_prefix ">" (skip_spaces s5)); [|discriminate].
    destruct (String.eqb name name'); [|discriminate].
    injection H as <- <-. rewrite comment_free_named. eauto.
Qed.

Lemma fromstring_comment_free (text : string) (root : Element) :
  fromstring text = Some root → comment_free root = true.
Proof.
  unfold fromstring. cbv zeta. intros H.
  do 3 (match type of H with
        | mbind _ ?m = Some _ =>
            destruct m as [?s|] eqn:?; cbn [mbind option_bind] in H;
            [|discriminate H]
        end).
  destruct (parse_element _ _ _) as [[e rest]|] eqn:He;
    cbn [mbind option_bind] in H; [|discriminate H].
  destruct (skip_misc _ rest) as [[|]|]; cbn [mbind option_bind] in H;
    try discriminate H.
  injection H as <-. eapply parse_comment_free, He.
Qed.

Lemma remove_comments_unchanged (kids : list Element) :
  no_comments kids = true → remove_comments kids = Returned kids.
Proof.
  induction kids as [|child kids IH]; [reflexivity|].
  rewrite no_comments_cons. intros [Hc Hk]%andb_prop.
  apply comment_free_inv in Hc as [Hself Hbelow].
  simpl. unfold comment_below. unfold no_comments in Hbelow.
  apply negb_true_iff in Hbelow. rewrite Hbelow, Hself, (IH Hk). reflexivity.
Qed.

Lemma strip_comments_unchanged (root : Element) :
  comment_free root = true → strip_comments root = Returned root.
Proof.
  intros H. apply comment_free_inv in H as [Hself Hkids].
  destruct root as [t a tx tl kids]. unfold strip_comments.
  rewrite Hself. simpl in Hkids. rewrite (remove_comments_unchanged _ Hkids).
  reflexivity.
Qed.

(** The fallback on a text: the removal loop drops out. *)
Lemma basic_optimization_parsed (svg_content : string) :
  _basic_svg_optimization svg_content
  = if outside svg_content then Beyond
    else
      match fromstring svg_content with
      | Some root =>
          if Nat.leb (depth root) covered_depth
          then Returned (tostring (_indent_xml root 0))
          else Beyond
      | None => Raised ParseError
      end.
Proof.
  unfold _basic_svg_optimization.
  destruct (outside svg_content); [reflexivity|].
  destruct (fromstring svg_content) as [root|] eqn:E; [|reflexivity].
  rewrite (strip_comments_unchanged _ (fromstring_comment_free _ _ E)).
  reflexivity.
Qed.

(** *** [_indent_xml] is idempotent *)

Lemma spaces_blank (level : nat) :
  forallb isspace (list_ascii_of_string (spaces level)) = true.
Proof.
  induction level as [|n IH]; [reflexivity|].
  simpl. rewrite list_ascii_of_string_app, forallb_app, IH. reflexivity.
Qed.

Lemma blank_indent (level : nat) : blank (Some (indent_of level)) = true.
Proof. unfold indent_of. simpl. apply spaces_blank. Qed.

Lemma blank_indent_text (level : nat) :
  blank (Some (indent_of level +:+ "  ")) = true.
Proof.
  unfold indent_of. rewrite append_cons. simpl.
  rewrite list_ascii_of_string_app, forallb_app, spaces_blank. reflexivity.
Qed.

Lemma dedent_last_snoc (indent : string) (l : list Element) (c : Element) :
  dedent_last indent (l ++ [c]) = l ++ [dedent indent c].
Proof.
  induction l as [|k l IH]; [reflexivity|].
  simpl. rewrite IH. destruct (l ++ [c]) eqn:E; [|reflexivity].
  destruct l; discriminate.
Qed.

Lemma indent_node t a tx tl (kids : list Element) (level : nat) :
  kids ≠ [] →
  _indent_xml (mkElement t a tx tl kids) level
  = mkElement t a
      (if blank tx then Some (indent_of level +:+ "  ") else tx)
      (if blank tl then Some (indent_of level) else tl)
      (dedent_last (indent_of level)
         (map (λ child, _indent_xml child (S level)) kids)).
Proof. destruct kids; [contradiction | reflexivity]. Qed.

Lemma tail_indent (e : Element) (n : nat) :
  tail (_indent_xml e (S n))
  = if blank (tail e) then Some (indent_of (S n)) else tail e.
Proof.
  destruct e as [t a tx tl [|k kids]]; cbn [_indent_xml tail];
    destruct (blank tl); reflexivity.
Qed.

Lemma indent_set_tail (x : option string) (e : Element) (n : nat) :
  _indent_xml (set_tail x e) (S n)
  = set_tail (if blank x then Some (indent_of (S n)) else x) (_indent_xml e (S n)).
Proof.
  destruct e as [t a tx tl [|k kids]]; cbn [_indent_xml set_tail];
    destruct (blank x), (blank tl); reflexivity.
Qed.

Lemma set_tail_same (e : Element) (x : option string) :
  tail e = x → set_tail x e = e.
Proof. destruct e. simpl. intros ->. reflexivity. Qed.

Lemma blank_choice (x : option string) (v : string) :
  blank (Some v) = true →
  (if blank (if blank x then Some v else x) then Some v
   else (if blank x then Some v else x))
  = (if blank x then Some v else x).
Proof.
  intros Hv. destruct (blank x) eqn:E; [rewrite Hv | rewrite E]; reflexivity.
Qed.

Lemma indent_dedent_indent (c : Element) (n : nat) :
  _indent_xml (_indent_xml c (S n)) (S n) = _indent_xml c (S n) →
  _indent_xml (dedent (indent_of n) (_indent_xml c (S n))) (S n)
  = _indent_xml c (S n).
Proof.
  intros IH. unfold dedent.
  destruct (blank (tail (_indent_xml c (S n)))) eqn:E; [|exact IH].
  rewrite indent_set_tail, blank_indent, IH.
  apply set_tail_same. rewrite tail_indent in *.
  destruct (blank (tail c)) eqn:F; [reflexivity|]. congruence.
Qed.

(** X1. Indenting an indented tree changes nothing: [_indent_xml] is
    idempotent at every level. *)
Lemma indent_xml_idempotent (e : Element) (level : nat) :
  _indent_xml (_indent_xml e level) level = _indent_xml e level.
Proof.
  revert level. induction e as [t a tx tl kids IH] using Element_ind'.
  intros level. destruct (decide (kids = [])) as [->|Hkids].
  - cbn [_indent_xml]. destruct (negb (Nat.eqb level 0) && blank tl) eqn:E;
      cbn [_indent_xml]; [|rewrite E; reflexivity].
    apply andb_prop in E as [-> _]. rewrite blank_indent. reflexivity.
  - destruct (exists_last Hkids) as [init [last ->]].
    rewrite indent_node by exact Hkids.
    rewrite map_app. cbn [map]. rewrite dedent_last_snoc.
    rewrite indent_node by (intros H; destruct (map _ init); discriminate H).
    rewrite !blank_choice by auto using blank_indent, blank_indent_text.
    f_equal. rewrite map_app. cbn [map]. rewrite dedent_last_snoc.
    apply Forall_app in IH as [IHinit IHlast].
    f_equal.
    + rewrite map_map. apply map_ext_in. intros k Hk.
      rewrite List.Forall_forall in IHinit. apply IHinit, Hk.
    + f_equal. rewrite indent_dedent_indent; [reflexivity|].
      inversion IHlast; subst. auto.
Qed.

(** In the fallback, a second pass can change bytes: a carriage return
    written as a character reference comes back as a raw one, which the next
    parse normalizes to a line feed.  The elements and attributes stay. *)
Lemma carriage_return_not_byte_idempotent :
  ∃ once twice,
    optimize_svg None carriage_return_svg = Returned once
    ∧ optimize_svg None once = Returned twice
    ∧ once ≠ twice.
Proof.
  eexists. eexists. split; [vm_compute; reflexivity|].
  split; [vm_compute; reflexivity|]. vm_compute. discriminate.
Qed.



End OptimizerFacts.

(** ** What [_indent_xml] changes *)

Section LayoutFacts.
Import ET VectorizationService Further.

Lemma significant_blank (x : option string) (v : string) :
  blank (Some v) = true →
  significant (if blank x then Some v else x) = significant x.
Proof.
  intros Hv. unfold significant. destruct (blank x) eqn:E; [rewrite Hv | rewrite E];
    reflexivity.
Qed.

Lemma content_set_tail (x : option string) (e : Element) :
  content (set_tail x e)
  = set_tail (significant x) (content e).
Proof. destruct e. reflexivity. Qed.

Lemma content_dedent (indent : string) (e : Element) :
  blank (Some indent) = true → content (dedent indent e) = content e.
Proof.
  intros Hb. unfold dedent. destruct e as [t a tx tl kids]. cbn [tail].
  destruct (blank tl) eqn:E; [|reflexivity].
  cbn [set_tail content]. unfold significant. rewrite Hb, E. reflexivity.
Qed.

Lemma content_dedent_last (indent : string) (kids : list Element) :
  blank (Some indent) = true →
  map content (dedent_last indent kids) = map content kids.
Proof.
  intros Hb. induction kids as [|k kids IH]; [reflexivity|].
  destruct kids as [|k' kids].
  - simpl. rewrite (content_dedent _ _ Hb). reflexivity.
  - change (dedent_last indent (k :: k' :: kids))
      with (k :: dedent_last indent (k' :: kids)).
    cbn [map]. rewrite IH. reflexivity.
Qed.

(** X2. [_indent_xml] only lays out: it changes text and tails that are
    blank and nothing else, so the tree without its layout stays the same,
    at every level. *)
Theorem indent_keeps_content (e : Element) (level : nat) :
  content (_indent_xml e level) = content e.
Proof.
  revert level. induction e as [t a tx tl kids IH] using Element_ind'.
  intros level. destruct (decide (kids = [])) as [->|Hkids].
  - cbn [_indent_xml]. destruct (negb (Nat.eqb level 0) && blank tl) eqn:E;
      [|reflexivity].
    apply andb_prop in E as [_ E]. cbn [content map]. f_equal.
    unfold significant. rewrite blank_indent, E. reflexivity.
  - rewrite indent_node by exact Hkids. cbn [content]. f_equal.
    + apply significant_blank, blank_indent_text.
    + apply significant_blank, blank_indent.
    + rewrite content_dedent_last by apply blank_indent.
      rewrite map_map. apply map_ext_in. intros k Hk.
      rewrite List.Forall_forall in IH. apply IH, Hk.
Qed.

Lemma spaces_comm (n : nat) : spaces n +:+ "  " = "  " +:+ spaces n.
Proof.
  induction n as [|n IH]; [reflexivity|].
  cbn [spaces]. rewrite append_assoc, IH. reflexivity.
Qed.

Lemma indent_of_S (n : nat) : indent_of n +:+ "  " = indent_of (S n).
Proof. unfold indent_of. rewrite append_cons, spaces_comm. reflexivity. Qed.

Lemma tail_dedent_indent (k : Element) (n : nat) :
  tail (dedent (indent_of n) (_indent_xml k (S n)))
  = if blank (tail k) then Some (indent_of n) else tail k.
Proof.
  unfold dedent. rewrite tail_indent.
  destruct (blank (tail k)) eqn:E.
  - rewrite blank_indent. destruct (_indent_xml k (S n)). reflexivity.
  - rewrite E, tail_indent, E. reflexivity.
Qed.

(** X3. The layout of an element with children: blank text becomes a
    line end and the indentation of the level below, a blank tail a line end
    and the indentation of the level itself; the blank tail of every child
    but the last is indented like the children, that of the last child like
    the element. *)
Theorem indent_layout t a tx tl (init : list Element) (last : Element) (level : nat) :
  let e := _indent_xml (mkElement t a tx tl (init ++ [last])) level in
  text e = (if blank tx then Some (indent_of (S level)) else tx)
  ∧ tail e = (if blank tl then Some (indent_of level) else tl)
  ∧ map tail (children e)
    = map (λ k, if blank (tail k) then Some (indent_of (S level)) else tail k) init
      ++ [ if blank (tail last) then Some (indent_of level) else tail last ].
Proof.
  intros e. unfold e.
  rewrite indent_node by (destruct init; discriminate).
  cbn [text tail children]. rewrite indent_of_S. repeat split.
  rewrite map_app. cbn [map]. rewrite dedent_last_snoc, map_app, map_map.
  cbn [map]. rewrite tail_dedent_indent. f_equal.
  apply map_ext. intros k. apply tail_indent.
Qed.

End LayoutFacts.

(** ** The threshold *)

Section ThresholdFacts.
Import Raster Further.

Lemma pypotrace_bitmap_rows (img_gray : Image) (threshold : Z) (invert : bool) :
  pypotrace_bitmap img_gray threshold invert
  = map (map (λ lum, if invert then negb (lum >? threshold) else lum >? threshold))
        (rows img_gray).
Proof.
  unfold pypotrace_bitmap, bitmap_array, img_bw, point.
  destruct invert; cbn [rows]; rewrite !map_map; apply map_ext; intros row;
    rewrite !map_map; apply map_ext; intros lum;
    unfold invert_lut, threshold_lut; destruct (lum >? threshold); reflexivity.
Qed.

Lemma Forall2_map_same {A B} (R : B → B → Prop) (f g : A → B) (l : list A) :
  (∀ x, R (f x) (g x)) → Forall2 R (map f l) (map g l).
Proof. intros H. induction l; simpl; constructor; auto. Qed.

(** X4. Binarization is monotone in the threshold: raising it only
    clears pixels of the array handed to the tracer, and with [invert] it
    only sets them. *)
Theorem threshold_monotone (img_gray : Image) (t1 t2 : Z) :
  t1 ≤ t2 →
  Forall2 (Forall2 (λ low high, implb high low = true))
    (pypotrace_bitmap img_gray t1 false) (pypotrace_bitmap img_gray t2 false)
  ∧ Forall2 (Forall2 (λ low high, implb low high = true))
      (pypotrace_bitmap img_gray t1 true) (pypotrace_bitmap img_gray t2 true).
Proof.
  intros Hle. rewrite !pypotrace_bitmap_rows. split.
  - apply Forall2_map_same. intros row. apply Forall2_map_same. intros lum.
    destruct (Z.gtb_spec lum t2), (Z.gtb_spec lum t1); simpl; auto; lia.
  - apply Forall2_map_same. intros row. apply Forall2_map_same. intros lum.
    destruct (Z.gtb_spec lum t2), (Z.gtb_spec lum t1); simpl; auto; lia.
Qed.

Lemma threshold_monotone_witness :
  Forall2 (Forall2 (λ low high, implb high low = true))
    (pypotrace_bitmap row3 100 false) (pypotrace_bitmap row3 128 false).
Proof.
  apply (threshold_monotone row3 100 128). lia.
Defined.

Lemma forallb_map {A B} (p : B → bool) (f : A → B) (l : list A) :
  forallb p (map f l) = forallb (λ x, p (f x)) l.
Proof. induction l as [|x l IH]; simpl; [|rewrite IH]; reflexivity. Qed.

Lemma forallb_map_map {A B} (p : B → bool) (f : A → B) (m : list (list A)) :
  forallb (forallb p) (map (map f) m) = forallb (forallb (λ x, p (f x))) m.
Proof.
  induction m as [|row m IH]; [reflexivity|].
  simpl. rewrite forallb_map, IH. reflexivity.
Qed.

Lemma forallb_rows (p : Z → bool) (m : list (list Z)) :
  (∀ lum, (0 <=? lum) && (lum <=? 255) = true → p lum = true) →
  forallb (forallb (λ v, (0 <=? v) && (v <=? 255))) m = true →
  forallb (forallb p) m = true.
Proof.
  intros H. apply forallb_weaken. intros row. apply forallb_weaken, H.
Qed.

(** X5. At the ends of the range: for an 8-bit image a threshold of 255
    or more leaves no pixel set (all of them with [invert]), and a negative
    threshold sets every pixel (none with [invert]). *)
Theorem threshold_extremes (img_gray : Image) (high low : Z) :
  eight_bit img_gray = true → 255 ≤ high → low < 0 →
  no_foreground (pypotrace_bitmap img_gray high false)
  ∧ all_foreground (pypotrace_bitmap img_gray high true)
  ∧ all_foreground (pypotrace_bitmap img_gray low false)
  ∧ no_foreground (pypotrace_bitmap img_gray low true).
Proof.
  intros H8 Hhigh Hlow. unfold no_foreground, all_foreground, eight_bit in *.
  rewrite !pypotrace_bitmap_rows.
  repeat split; rewrite forallb_map_map;
    revert H8; apply forallb_rows; intros lum [H0 H255]%andb_prop;
    apply Z.leb_le in H0, H255; unfold id;
    match goal with
    | |- context [lum >? ?t] => destruct (Z.gtb_spec lum t)
    end; simpl; auto; lia.
Qed.

Lemma threshold_extremes_witness :
  no_foreground (pypotrace_bitmap row3 255 false)
  ∧ all_foreground (pypotrace_bitmap row3 (-1) false).
Proof.
  destruct (threshold_extremes row3 255 (-1)) as (H1 & _ & H3 & _);
    [reflexivity | lia | lia |].
  split; assumption.
Defined.

Lemma cli_bitmap_rows (img_gray : Image) (threshold : Z) (invert : bool) :
  cli_bitmap img_gray threshold invert
  = map (map (λ lum, if invert then invert_lut (threshold_lut threshold lum)
                     else threshold_lut threshold lum))
        (rows img_gray).
Proof.
  unfold cli_bitmap, img_bw, point.
  destruct invert; cbn [rows]; [|reflexivity].
  rewrite map_map. apply map_ext. intros row. rewrite map_map. reflexivity.
Qed.

(** X6. The binarized image is a 1-bit image of the same shape: whatever
    the luminances and the threshold, with or without [invert], every pixel
    saved for the command-line tracer is 0 or 255, and every row is as long
    as the row of the source. *)
Theorem binarized_is_two_valued (img_gray : Image) (threshold : Z) (invert : bool) :
  Forall (Forall (λ v, v = 0 ∨ v = 255)) (cli_bitmap img_gray threshold invert)
  ∧ map length (cli_bitmap img_gray threshold invert) = map length (rows img_gray)
  ∧ map length (pypotrace_bitmap img_gray threshold invert) = map length (rows img_gray).
Proof.
  rewrite cli_bitmap_rows, pypotrace_bitmap_rows. repeat split.
  - apply Forall_map, Forall_forall. intros row _.
    apply Forall_map, Forall_forall. intros lum _.
    unfold invert_lut, threshold_lut. cbn beta.
    destruct invert, (lum >? threshold); auto.
  - rewrite map_map. apply map_ext. intros row. apply length_map.
  - rewrite map_map. apply map_ext. intros row. apply length_map.
Qed.

End ThresholdFacts.

(** ** The command-line backend and the file system *)

Section CliFacts.
Import Raster ET Potrace OS VectorizationService Further.

(** X7. After a run that exits with status zero, and whose captured
    output can be decoded, the backend returns what reading [output.svg] as
    text gives: the bytes the process left there, decoded as UTF-8, with
    every line ending turned into a line feed.  It raises
    [UnicodeDecodeError] when the bytes are not UTF-8, [FileNotFoundError]
    when the process left no such file, and [IsADirectoryError] when it left
    a directory of that name. *)
Theorem cli_exit_zero (w : World) (img_gray : Image) (threshold : Z)
  (invert : bool) (fs : FS) (out err : string) :
  potrace_result w img_gray threshold invert fs = Completed 0 out err →
  utf8_valid out && utf8_valid err = true →
  (bitmap_to_svg None w img_gray threshold invert fs).1
  = match files (potrace_fs w img_gray threshold invert fs)
            !! svg_path (cli_tmpdir w fs) with
    | Some bytes =>
        match utf8_decode bytes with
        | Text text => Returned (translate_newlines text)
        | Wide => Beyond
        | Invalid => Raised UnicodeDecodeError
        end
    | None =>
        if bool_decide (svg_path (cli_tmpdir w fs)
                        ∈ dirs (potrace_fs w img_gray threshold invert fs))
        then Raised IsADirectoryError
        else Raised FileNotFoundError
    end.
Proof.
  intros H Hbytes. unfold bitmap_to_svg. rewrite cli_outcome, H, Hbytes.
  reflexivity.
Qed.

Lemma cli_exit_zero_witness :
  files (potrace_fs crlf_world row3 128 false empty_fs)
    !! svg_path (cli_tmpdir crlf_world empty_fs)
  = Some ("<svg>" +:+ String "013" (String "010" ("</svg>" +:+ String "013" "")))
  ∧ (bitmap_to_svg None crlf_world row3 128 false empty_fs).1
    = Returned ("<svg>" +:+ String "010" ("</svg>" +:+ String "010" "")).
Proof.
  split; [reflexivity|].
  rewrite (cli_exit_zero crlf_world row3 128 false empty_fs "" "" eq_refl eq_refl).
  reflexivity.
Defined.

Lemma under_neq (d p q : string) : under d p = false → under d q = true → q ≠ p.
Proof. intros Hp Hq ->. congruence. Qed.

(** X8. With a fresh temporary directory and a process that changes
    nothing outside it, the backend leaves the file system as it found
    it. *)
Theorem cli_restores_file_system (w : World) (img_gray : Image)
  (threshold : Z) (invert : bool) (fs : FS) :
  String.eqb (cli_tmpdir w fs) "" = false →
  ends_with_slash (cli_tmpdir w fs) = false →
  fresh (cli_tmpdir w fs) fs →
  confined w (cli_tmpdir w fs) →
  (bitmap_to_svg None w img_gray threshold invert fs).2 = fs.
Proof.
  intros Hne Hslash Hfresh Hconf. unfold bitmap_to_svg.
  rewrite cli_outcome. cbn [snd].
  set (d := cli_tmpdir w fs) in *.
  destruct (temp_files_under d Hne Hslash) as [Hpbm _].
  assert (Hout : ∀ p, under d p = false →
            (p ∈ dirs (potrace_fs w img_gray threshold invert fs) ↔ p ∈ dirs fs)
            ∧ files (potrace_fs w img_gray threshold invert fs) !! p = files fs !! p).
  { intros p Hp. unfold potrace_fs. fold (cli_tmpdir w fs). fold d.
    destruct (Hconf (write_file (pbm_path d)
                       (save_pbm (img_bw img_gray threshold invert))
                       (mkdir d fs)) p Hp) as [Hd Hf].
    split.
    - rewrite Hd. unfold write_file, mkdir. cbn [dirs].
      rewrite elem_of_union, elem_of_singleton.
      pose proof (under_neq d p d Hp (under_refl d)). split; [intros [->|]|]; tauto.
    - rewrite Hf. unfold write_file, mkdir. cbn [files].
      apply lookup_insert_ne. exact (under_neq d p _ Hp Hpbm). }
  destruct fs as [ds fl] eqn:Efs. rewrite <- Efs in *.
  assert (Hdirs : dirs (rmtree d (potrace_fs w img_gray threshold invert fs)) = dirs fs).
  { apply set_eq. intros p. rewrite elem_of_dirs_rmtree.
    destruct (under d p) eqn:Hp.
    - destruct (Hfresh p Hp) as [Hnd _]. split; [intros [? _]; discriminate | tauto].
    - destruct (Hout p Hp) as [Hd _]. rewrite Hd. tauto. }
  assert (Hfiles : files (rmtree d (potrace_fs w img_gray threshold invert fs)) = files fs).
  { apply map_eq. intros p. rewrite lookup_files_rmtree.
    destruct (under d p) eqn:Hp.
    - destruct (Hfresh p Hp) as [_ Hnf]. symmetry. exact Hnf.
    - apply (Hout p Hp). }
  destruct (rmtree d _) as [ds' fl']. cbn [dirs files] in *.
  rewrite Efs in Hdirs, Hfiles. cbn [dirs files] in *. subst. reflexivity.
Qed.

Lemma cli_restores_file_system_witness :
  (bitmap_to_svg None working_world row3 128 false empty_fs).2 = empty_fs.
Proof.
  apply cli_restores_file_system.
  - reflexivity.
  - reflexivity.
  - intros p _. split; [apply not_elem_of_empty | apply lookup_empty].
  - intros fs p Hp. split; [reflexivity|].
    apply lookup_insert_ne. intros <-. discriminate Hp.
Defined.

End CliFacts.

(** ** The comment removal loop on trees built by hand *)

Section LoopFacts.
Import ET VectorizationService Further.

Lemma remove_comments_sublist (kids kept : list Element) :
  remove_comments kids = Returned kept →
  sublist kept kids ∧ without_comments kept = without_comments kids.
Proof.
  revert kept. induction kids as [kids IH] using (induction_ltof1 _ (@length _)).
  unfold ltof in IH. intros kept H.
  destruct kids as [|child rest]; [injection H as <-; split; constructor|].
  cbn [remove_comments] in H.
  destruct (comment_below child); [discriminate|].
  destruct (is_comment child) eqn:Ec.
  - destruct rest as [|skipped rest].
    + injection H as <-. split; [apply sublist_nil_l|].
      unfold without_comments. simpl. rewrite Ec. reflexivity.
    + destruct (remove_comments rest) as [kept'|e'|] eqn:Er; [|discriminate..].
      injection H as <-.
      destruct (IH rest ltac:(simpl; lia) kept' Er) as [Hs Hw]. split.
      * apply sublist_cons, sublist_skip, Hs.
      * unfold without_comments in *. simpl. rewrite Ec. simpl.
        destruct (is_comment skipped); simpl; rewrite Hw; reflexivity.
  - destruct (remove_comments rest) as [kept'|e'|] eqn:Er; [|discriminate..].
    injection H as <-.
    destruct (IH rest ltac:(simpl; lia) kept' Er) as [Hs Hw]. split.
    + apply sublist_skip, Hs.
    + unfold without_comments in *. simpl. rewrite Ec. simpl. rewrite Hw. reflexivity.
Qed.

Lemma strip_comments_returned (root stripped : Element) :
  strip_comments root = Returned stripped →
  ∃ kept, remove_comments (children root) = Returned kept
          ∧ stripped = mkElement (tag root) (attrib root) (text root) (tail root) kept.
Proof.
  destruct root as [t a tx tl kids]. unfold strip_comments.
  destruct (is_comment _); [discriminate|]. cbn [children tag attrib text tail].
  destruct (remove_comments kids) as [kept|e|]; [|discriminate..].
  intros [= <-]. exists kept. split; reflexivity.
Qed.

(** X9. The removal loop only ever takes comments out of the root: when it
    ends normally, the root keeps its tag, attributes, text and tail, its
    children are a sublist of the children it had, and every child that is
    not a comment still stands, in the same order. *)
Theorem strip_comments_keeps_elements (root stripped : Element) :
  strip_comments root = Returned stripped →
  tag stripped = tag root ∧ attrib stripped = attrib root
  ∧ text stripped = text root ∧ tail stripped = tail root
  ∧ sublist (children stripped) (children root)
  ∧ without_comments (children stripped) = without_comments (children root).
Proof.
  intros H. destruct (strip_comments_returned _ _ H) as (kept & Hk & ->).
  cbn [tag attrib text tail children].
  destruct (remove_comments_sublist _ _ Hk) as [Hs Hw]. repeat split; assumption.
Qed.

Lemma strip_comments_keeps_elements_witness :
  tag (group [group []]) = tag (group [note; group []; note])
  ∧ attrib (group [group []]) = attrib (group [note; group []; note])
  ∧ text (group [group []]) = text (group [note; group []; note])
  ∧ tail (group [group []]) = tail (group [note; group []; note])
  ∧ sublist (children (group [group []])) (children (group [note; group []; note]))
  ∧ without_comments (children (group [group []]))
    = without_comments (children (group [note; group []; note])).
Proof.
  apply (strip_comments_keeps_elements (group [note; group []; note])
           (group [group []])).
  reflexivity.
Defined.

Lemma no_adjacent_comments_tail (a : Element) (l : list Element) :
  no_adjacent_comments (a :: l) = true → no_adjacent_comments l = true.
Proof.
  destruct l as [|b l]; [reflexivity|].
  cbn [no_adjacent_comments]. intros [_ H]%andb_prop. exact H.
Qed.

Lemma remove_comments_filter (kids kept : list Element) :
  no_adjacent_comments kids = true →
  remove_comments kids = Returned kept →
  kept = without_comments kids.
Proof.
  revert kept. induction kids as [kids IH] using (induction_ltof1 _ (@length _)).
  unfold ltof in IH. intros kept Hadj H.
  destruct kids as [|child rest]; [injection H as <-; reflexivity|].
  pose proof (no_adjacent_comments_tail _ _ Hadj) as Hrest.
  cbn [remove_comments] in H. unfold without_comments. cbn [List.filter].
  destruct (comment_below child); [discriminate|].
  destruct (is_comment child) eqn:Ec; cbn [negb].
  - destruct rest as [|skipped rest]; [injection H as <-; reflexivity|].
    cbn [no_adjacent_comments] in Hadj. rewrite Ec in Hadj.
    apply andb_prop in Hadj as [Hs _]. cbn [andb] in Hs. apply negb_true_iff in Hs.
    destruct (remove_comments rest) as [kept'|e'|] eqn:Er; [|discriminate..].
    injection H as <-. cbn [List.filter]. rewrite Hs. cbn [negb]. f_equal.
    apply (IH rest); [simpl; lia | | exact Er].
    exact (no_adjacent_comments_tail _ _ Hrest).
  - destruct (remove_comments rest) as [kept'|e'|] eqn:Er; [|discriminate..].
    injection H as <-. f_equal. apply (IH rest); [simpl; lia | exact Hrest | exact Er].
Qed.

(** X10. When no two comments stand next to each other among the children
    of the root, a run of the loop that ends normally has removed every
    comment child and nothing else. *)
Theorem strip_comments_without_neighbours (root stripped : Element) :
  no_adjacent_comments (children root) = true →
  strip_comments root = Returned stripped →
  children stripped = without_comments (children root).
Proof.
  intros Hadj H. destruct (strip_comments_returned _ _ H) as (kept & Hk & ->).
  cbn [children]. exact (remove_comments_filter _ _ Hadj Hk).
Qed.

Lemma strip_comments_without_neighbours_witness :
  children (group [group []]) = without_comments (children (group [note; group []; note])).
Proof.
  apply (strip_comments_without_neighbours (group [note; group []; note])
           (group [group []]));
    reflexivity.
Defined.

Lemma remove_comments_raised (kids : list Element) (e : Exn) :
  remove_comments kids = Raised e →
  e = ValueError ∧ existsb comment_below kids = true.
Proof.
  induction kids as [kids IH] using (induction_ltof1 _ (@length _)).
  unfold ltof in IH. intros H.
  destruct kids as [|child rest]; [discriminate|].
  cbn [remove_comments] in H. cbn [existsb].
  destruct (comment_below child); [injection H as <-; split; reflexivity|].
  cbn [orb].
  destruct (is_comment child) eqn:Ec.
  - destruct rest as [|skipped rest]; [discriminate|].
    destruct (remove_comments rest) as [kept'|e'|] eqn:Er; [discriminate| |discriminate].
    injection H as <-.
    destruct (IH rest ltac:(simpl; lia) Er) as [-> Hb].
    split; [reflexivity|]. cbn [existsb]. rewrite Hb, orb_true_r. reflexivity.
  - destruct (remove_comments rest) as [kept'|e'|] eqn:Er; [discriminate| |discriminate].
    injection H as <-. exact (IH rest ltac:(simpl; lia) Er).
Qed.

(** X11. The loop raises nothing but [ValueError], and only when the root
    is itself a comment or a comment stands below one of its children, a
    child that is a comment included. *)
Theorem strip_comments_raises_below (root : Element) (e : Exn) :
  strip_comments root = Raised e →
  e = ValueError
  ∧ (is_comment root = true ∨ existsb comment_below (children root) = true).
Proof.
  destruct root as [t a tx tl kids]. unfold strip_comments.
  destruct (is_comment _); [intros [= <-]; split; [reflexivity | left; reflexivity]|].
  cbn [children].
  destruct (remove_comments kids) as [kept|e'|] eqn:Er; [discriminate| |discriminate].
  intros [= <-]. destruct (remove_comments_raised _ _ Er) as [-> Hb].
  split; [reflexivity | right; exact Hb].
Qed.

Lemma strip_comments_raises_below_witness :
  ValueError = ValueError
  ∧ (is_comment (group [mkElement Comment [] None None [note]]) = true
     ∨ existsb comment_below
         (children (group [mkElement Comment [] None None [note]])) = true).
Proof.
  apply (strip_comments_raises_below (group [mkElement Comment [] None None [note]])
           ValueError).
  reflexivity.
Defined.

End LoopFacts.

(** ** The builder's output, written and read back *)

Section RoundTrip.
Import Raster ET XMLParser Potrace OS VectorizationService Further.

Lemma verbatim_app (a b : string) : verbatim (a +:+ b) = verbatim a && verbatim b.
Proof. unfold verbatim. rewrite list_ascii_of_string_app. apply forallb_app. Qed.

Lemma verbatim_cons (c : ascii) (s : string) :
  verbatim (String c s) = is_verbatim c && verbatim s.
Proof. reflexivity. Qed.

Lemma replace_char_verbatim (c : ascii) (by_ s : string) :
  is_verbatim c = false → verbatim s = true → replace_char c by_ s = s.
Proof.
  intros Hc. induction s as [|d s IH]; [reflexivity|].
  rewrite verbatim_cons. intros [Hd Hs]%andb_prop. simpl.
  destruct (Ascii.eqb_spec d c) as [->|_]; [congruence|].
  rewrite (IH Hs). reflexivity.
Qed.

Lemma escape_attrib_verbatim (s : string) : verbatim s = true → escape_attrib s = s.
Proof.
  intros H. unfold escape_attrib, escape_cdata.
  rewrite (replace_char_verbatim "&" _ s), (replace_char_verbatim "<" _ s),
    (replace_char_verbatim ">" _ s), (replace_char_verbatim "034" _ s),
    (replace_char_verbatim "013" _ s), (replace_char_verbatim "010" _ s),
    (replace_char_verbatim "009" _ s) by (reflexivity || assumption).
  reflexivity.
Qed.

Lemma verbatim_is_value (s : string) : verbatim s = true → is_value s = true.
Proof.
  unfold verbatim, is_value. apply forallb_weaken. intros c.
  unfold is_verbatim. intros [[H _]%andb_prop _]%andb_prop. exact H.
Qed.

Lemma plain_verbatim (s : string) : all_plain s = true → verbatim s = true.
Proof.
  unfold all_plain, verbatim. apply forallb_weaken. intros c Hc.
  destruct c as [[] [] [] [] [] [] [] []]; try discriminate Hc; reflexivity.
Qed.

Lemma repr_verbatim (f : float) : repr_ok f = true → verbatim (str_float f) = true.
Proof.
  unfold repr_ok, verbatim, str_float. apply forallb_weaken. intros c Hc.
  destruct c as [[] [] [] [] [] [] [] []]; try discriminate Hc; reflexivity.
Qed.

Lemma coords_verbatim (p : Point) : point_ok p = true → verbatim (coords p) = true.
Proof.
  unfold point_ok, coords. intros [Hx Hy]%andb_prop.
  rewrite !verbatim_app, (repr_verbatim _ Hx), (repr_verbatim _ Hy). reflexivity.
Qed.

Lemma join_verbatim (l : list string) :
  forallb verbatim l = true → verbatim (join " " l) = true.
Proof.
  induction l as [|a l IH]; [reflexivity|].
  cbn [forallb]. intros [Ha Hl]%andb_prop.
  destruct l as [|b l]; [exact Ha|].
  change (join " " (a :: b :: l)) with (a +:+ " " +:+ join " " (b :: l)).
  rewrite !verbatim_app, Ha, (IH Hl). reflexivity.
Qed.

Lemma segment_data_verbatim (s : Segment) :
  segment_ok s = true → forallb verbatim (segment_data s) = true.
Proof.
  destruct s as [c e|c1 c2 e]; cbn [segment_ok segment_data forallb].
  - intros [Hc He]%andb_prop.
    rewrite !verbatim_app, (coords_verbatim _ Hc), (coords_verbatim _ He). reflexivity.
  - intros [[H1 H2]%andb_prop He]%andb_prop.
    rewrite !verbatim_app, (coords_verbatim _ H1), (coords_verbatim _ H2),
      (coords_verbatim _ He). reflexivity.
Qed.

Lemma segments_verbatim (l : list Segment) :
  forallb segment_ok l = true → forallb verbatim (flat_map segment_data l) = true.
Proof.
  induction l as [|s l IH]; [reflexivity|].
  cbn [forallb flat_map]. intros [H1 H2]%andb_prop.
  rewrite forallb_app, (segment_data_verbatim _ H1), (IH H2). reflexivity.
Qed.

Lemma path_data_verbatim (curve : Curve) :
  curve_ok curve = true → verbatim (join " " (path_data curve)) = true.
Proof.
  unfold curve_ok, path_data. intros [Hs Hsegs]%andb_prop.
  apply join_verbatim. cbn [forallb].
  rewrite verbatim_app, (coords_verbatim _ Hs), forallb_app, (segments_verbatim _ Hsegs).
  reflexivity.
Qed.

Lemma fold_append_children (path : list Curve) t a tx tl (kids : list Element) :
  fold_left (λ svg curve, append (path_elem curve) svg) path (mkElement t a tx tl kids)
  = mkElement t a tx tl (kids ++ map path_elem path).
Proof.
  revert kids. induction path as [|c path IH]; intros kids; cbn [fold_left map].
  - rewrite app_nil_r. reflexivity.
  - cbn [append]. rewrite IH, <- app_assoc. reflexivity.
Qed.

Lemma svg_tree_node (path : list Curve) (width height : Z) :
  svg_tree path width height
  = mkElement (Name "svg") (("xmlns", svg_namespace) :: svg_items width height)
      None None (map path_elem path).
Proof. unfold svg_tree, svg_element, new_element. apply fold_append_children. Qed.

Lemma fold_add_qname (l : list string) (ns : list (string * string)) :
  Forall (λ q, split_qname q = None) l → fold_left add_qname l ns = ns.
Proof.
  induction 1 as [|q l Hq _ IH]; [reflexivity|].
  cbn [fold_left]. unfold add_qname at 2. rewrite Hq. exact IH.
Qed.

Lemma path_names_plain (path : list Curve) :
  Forall (λ q, split_qname q = None)
    (flat_map names_of (flat_map iter (map path_elem path))).
Proof.
  induction path as [|c path IH]; [constructor|].
  cbn [map flat_map iter path_elem new_element app names_of tag attrib fst].
  repeat (constructor; [reflexivity|]). exact IH.
Qed.

Lemma collect_namespaces_svg_tree (path : list Curve) (width height : Z) :
  collect_namespaces (svg_tree path width height) = [].
Proof.
  unfold collect_namespaces. rewrite svg_tree_node. apply fold_add_qname.
  cbn [iter flat_map names_of tag attrib svg_items map fst app].
  repeat (constructor; [reflexivity|]). apply path_names_plain.
Qed.

Lemma write_attribute_verbatim (k v : string) :
  split_qname k = None → verbatim v = true →
  write_attribute [] (k, v) = written_attribute (k, v).
Proof.
  intros Hk Hv. unfold write_attribute, written_attribute, qname. cbn [fst snd].
  rewrite Hk, (escape_attrib_verbatim _ Hv). reflexivity.
Qed.

Lemma serialize_path (curve : Curve) :
  curve_ok curve = true →
  serialize_xml [] [] (path_elem curve) = written_path curve.
Proof.
  intros Hok. pose proof (path_data_verbatim _ Hok) as Hd.
  unfold path_elem, new_element, written_path, path_items.
  cbn [serialize_xml map concat_strings fold_right sorted_by_prefix fold_left
       truthy orb negb write_text].
  rewrite (write_attribute_verbatim "d" _ eq_refl Hd).
  rewrite (write_attribute_verbatim "fill" "black" eq_refl eq_refl).
  rewrite (write_attribute_verbatim "stroke" "none" eq_refl eq_refl).
  change (qname [] "path") with "path".
  rewrite bool_decide_eq_true_2 by reflexivity. cbn [negb].
  rewrite !append_assoc, !append_nil_r, !append_cons, !append_nil_l. reflexivity.
Qed.

Lemma serialize_paths (path : list Curve) :
  forallb curve_ok path = true →
  map (serialize_xml [] []) (map path_elem path) = map written_path path.
Proof.
  induction path as [|c path IH]; [reflexivity|].
  cbn [forallb map]. intros [Hc Hp]%andb_prop.
  rewrite (serialize_path _ Hc), (IH Hp). reflexivity.
Qed.

Lemma svg_items_verbatim (width height : Z) :
  forallb (λ kv, verbatim (snd kv)) (svg_items width height) = true.
Proof.
  pose proof (plain_verbatim _ (str_int_plain width)) as Hw.
  pose proof (plain_verbatim _ (str_int_plain height)) as Hh.
  unfold svg_items. cbn [forallb snd]. rewrite !verbatim_app, Hw, Hh. reflexivity.
Qed.

(** The text the builder returns. *)
Lemma path_to_svg_written (path : list Curve) (width height : Z) :
  forallb curve_ok path = true →
  _path_to_svg path width height = written_svg path width height.
Proof.
  intros Hok. unfold _path_to_svg, tostring.
  rewrite collect_namespaces_svg_tree, svg_tree_node.
  pose proof (svg_items_verbatim width height) as Hv.
  unfold written_svg, svg_items in *. cbn [forallb snd] in Hv.
  apply andb_prop in Hv as [Hw Hv]. apply andb_prop in Hv as [Hh Hv].
  apply andb_prop in Hv as [Hvb _].
  cbn [serialize_xml map concat_strings fold_right sorted_by_prefix fold_left
       truthy orb write_text].
  rewrite (write_attribute_verbatim "xmlns" svg_namespace eq_refl eq_refl).
  rewrite (write_attribute_verbatim "width" _ eq_refl Hw).
  rewrite (write_attribute_verbatim "height" _ eq_refl Hh).
  rewrite (write_attribute_verbatim "viewBox" _ eq_refl Hvb).
  rewrite (write_attribute_verbatim "version" "1.1" eq_refl eq_refl).
  change (qname [] "svg") with "svg".
  fold (concat_strings (map (serialize_xml [] []) (map path_elem path))).
  rewrite (serialize_paths _ Hok).
  destruct path as [|c path].
  - rewrite bool_decide_eq_true_2 by reflexivity. cbn [negb].
    rewrite !append_assoc, !append_nil_r, !append_cons, !append_nil_l. reflexivity.
  - rewrite bool_decide_eq_false_2 by discriminate. cbn [negb].
    rewrite !append_assoc, !append_nil_r, !append_cons, !append_nil_l. reflexivity.
Qed.

Lemma scan_attributes_before (term term' : string) (attrs : list (string * string)) :
  (∀ f, scan_attributes (S f) term = Some ([], term')) →
  ∀ fuel,
    forallb ok_attribute attrs = true →
    (length attrs < fuel)%nat →
    scan_attributes fuel (concat_strings (map written_attribute attrs) +:+ term)
    = Some (attrs, term').
Proof.
  intros Hterm.
  induction attrs as [|[k v] attrs IH]; intros fuel Hok Hfuel.
  - destruct fuel; [simpl in Hfuel; lia|]. cbn [map concat_strings fold_right].
    rewrite append_nil_l. apply Hterm.
  - destruct fuel; [simpl in Hfuel; lia|].
    simpl in Hok. apply andb_prop in Hok as [[Hk Hv]%andb_prop Hok].
    simpl in Hk, Hv.
    cbn [map concat_strings fold_right]. unfold written_attribute at 1, dquote.
    cbn [fst snd].
    rewrite !append_assoc, !append_cons, !append_nil_l.
    cbn [scan_attributes]. cbv zeta.
    change (skip_spaces (String " " ?x)) with (skip_spaces x).
    rewrite (skip_spaces_name k _ Hk).
    match goal with |- context [k +:+ ?t] => remember t as tl eqn:Htl end.
    destruct k as [|c k]; [discriminate|].
    rewrite !append_cons.
    pose proof Hk as Hk'. unfold is_name in Hk'. apply andb_prop in Hk' as [Hc _].
    destruct (name_start_facts c Hc) as (_ & -> & -> & _). cbn [orb].
    rewrite eqb_cons_self.
    rewrite <- !append_cons. subst tl. rewrite (scan_name_app _ "="%char _ Hk (eq_refl false)).
    cbn [skip_spaces is_space]. simpl (strip_prefix _ _). simpl (skip_spaces _).
    cbv beta iota. simpl (skip_spaces _). cbv beta iota.
    simpl (Ascii.eqb _ _ || _). cbv beta iota.
    rewrite length_append.
    rewrite (scan_attr_value_written v _ _ _ Hv). rewrite append_nil_l.
    fold (concat_strings (map written_attribute attrs)).
    rewrite IH; [reflexivity | exact Hok | simpl in Hfuel; lia].
Qed.

Lemma written_attributes_before (attrs : list (string * string)) (d : ascii) (r : string) :
  is_name_char d = false →
  ∃ d' r', concat_strings (map written_attribute attrs) +:+ String d r = String d' r'
           ∧ is_name_char d' = false.
Proof.
  intros Hd. destruct attrs as [|kv attrs].
  - exists d, r. split; [reflexivity | exact Hd].
  - exists " "%char. eexists. split; [|reflexivity].
    cbn [map concat_strings fold_right]. unfold written_attribute at 1.
    rewrite !append_assoc, append_cons, append_nil_l. reflexivity.
Qed.

(** An element written in the self-closing form reads back. *)
Lemma parse_self_closed (f : nat) (env : list (string * string))
  (name : string) (attrs : list (string * string)) (tag : string)
  (items env' : list (string * string)) (rest : string) :
  is_name name = true →
  forallb ok_attribute attrs = true →
  open_element env name attrs = Some (tag, items, env') →
  parse_element (S f) env
    (name +:+ concat_strings (map written_attribute attrs)
          +:+ String " " (String "/" (String ">" rest)))
  = Some (mkElement (Name tag) items None None [], rest).
Proof.
  intros Hname Hattrs Hopen.
  set (term := String " " (String "/" (String ">" rest))).
  assert (Hterm : ∀ f, scan_attributes (S f) term = Some ([], String "/" (String ">" rest)))
    by reflexivity.
  destruct (written_attributes_before attrs " " (String "/" (String ">" rest)) eq_refl)
    as (d & r & Hs1 & Hd).
  fold term in Hs1.
  cbn [parse_element].
  rewrite Hs1, (scan_name_app name d r Hname Hd), <- Hs1.
  rewrite (scan_attributes_before term _ attrs Hterm); [|exact Hattrs|].
  - rewrite Hopen. reflexivity.
  - rewrite length_append. pose proof (length_written_attributes attrs). lia.
Qed.

Lemma parse_content_child (f : nat) (env : list (string * string))
  (data : string) (c : ascii) (r : string) :
  is_name_start c = true →
  parse_content (S f) env data (String "<" (String c r))
  = match parse_element f env (String c r) with
    | Some (child, s2) =>
        match parse_content f env EmptyString s2 with
        | Some (tail_data, siblings, s3) =>
            Some (data, set_tail (flushed tail_data) child :: siblings, s3)
        | None => None
        end
    | None => None
    end.
Proof.
  intros Hc.
  destruct c as [[] [] [] [] [] [] [] []]; try discriminate Hc; reflexivity.
Qed.

Lemma path_items_ok (curve : Curve) :
  curve_ok curve = true → forallb ok_attribute (path_items curve) = true.
Proof.
  intros Hok. pose proof (verbatim_is_value _ (path_data_verbatim _ Hok)) as Hd.
  unfold path_items, ok_attribute. cbn [forallb fst snd]. rewrite Hd. reflexivity.
Qed.

Lemma parse_written_path (f : nat) (curve : Curve) (rest : string) :
  curve_ok curve = true →
  parse_element (S f) svg_env
    ("path" +:+ concat_strings (map written_attribute (path_items curve))
            +:+ String " " (String "/" (String ">" rest)))
  = Some (parsed_path curve, rest).
Proof.
  intros Hok.
  apply (parse_self_closed f svg_env "path" (path_items curve) _ _ svg_env rest eq_refl
           (path_items_ok _ Hok)).
  reflexivity.
Qed.

Lemma written_path_cons (curve : Curve) (rest : string) :
  written_path curve +:+ rest
  = String "<" (String "p"
      ("ath" +:+ concat_strings (map written_attribute (path_items curve))
             +:+ String " " (String "/" (String ">" rest)))).
Proof.
  unfold written_path. rewrite !append_assoc, !append_cons, !append_nil_l. reflexivity.
Qed.

Lemma parse_written_paths (path : list Curve) :
  ∀ f rest,
    forallb curve_ok path = true →
    (length path < f)%nat →
    parse_content f svg_env EmptyString
      (concat_strings (map written_path path) +:+ String "<" (String "/" rest))
    = Some (EmptyString, map parsed_path path, rest).
Proof.
  induction path as [|c path IH]; intros f rest Hok Hf.
  - destruct f; [simpl in Hf; lia|]. reflexivity.
  - destruct f as [|[|f]]; [simpl in Hf; lia | simpl in Hf; lia |].
    cbn [forallb] in Hok. apply andb_prop in Hok as [Hc Hp].
    cbn [map concat_strings fold_right].
    fold (concat_strings (map written_path path)).
    rewrite append_assoc, written_path_cons.
    rewrite (parse_content_child (S f) svg_env EmptyString "p" _ eq_refl).
    rewrite <- append_cons.
    rewrite (parse_written_path f c _ Hc).
    rewrite (IH (S f) rest Hp) by (simpl in Hf; lia).
    reflexivity.
Qed.

Lemma svg_attrs_ok (width height : Z) :
  forallb ok_attribute (("xmlns", svg_namespace) :: svg_items width height) = true.
Proof.
  pose proof (svg_items_verbatim width height) as Hv.
  unfold svg_items in *. cbn [forallb snd] in Hv.
  apply andb_prop in Hv as [Hw Hv]. apply andb_prop in Hv as [Hh Hv].
  apply andb_prop in Hv as [Hvb _].
  unfold ok_attribute. cbn [forallb fst snd].
  rewrite (verbatim_is_value _ Hw), (verbatim_is_value _ Hh), (verbatim_is_value _ Hvb).
  reflexivity.
Qed.

Lemma open_svg (width height : Z) :
  distinct (map fst (svg_items width height)) = true →
  open_element initial_env "svg" (("xmlns", svg_namespace) :: svg_items width height)
  = Some ("{" +:+ svg_namespace +:+ "}svg", svg_items width height, svg_env).
Proof. intros _. reflexivity. Qed.

Lemma length_written_paths (path : list Curve) :
  (length path ≤ String.length (concat_strings (map written_path path)))%nat.
Proof.
  induction path as [|c path IH]; [simpl; lia|].
  cbn [map concat_strings fold_right length].
  fold (concat_strings (map written_path path)).
  rewrite written_path_cons. cbn [String.length]. rewrite !length_append.
  cbn [String.length]. lia.
Qed.

(** What follows the [<] of the builder's output reads back as the tree. *)
Lemma parse_written_svg (path : list Curve) (width height : Z) (f : nat) :
  forallb curve_ok path = true →
  (length path + 1 < f)%nat →
  parse_element f initial_env
    ("svg" +:+ concat_strings
                 (map written_attribute
                    (("xmlns", svg_namespace) :: svg_items width height))
           +:+ match path with
               | [] => " />"
               | _ :: _ => ">" +:+ concat_strings (map written_path path) +:+ "</svg>"
               end)
  = Some (parsed_svg path width height, EmptyString).
Proof.
  intros Hok Hf.
  destruct f as [|f]; [lia|].
  pose proof (svg_attrs_ok width height) as Hattrs.
  pose proof (open_svg width height eq_refl) as Hopen.
  destruct path as [|c path].
  - change " />" with (String " " (String "/" (String ">" EmptyString))).
    apply (parse_self_closed f initial_env "svg" _ _ _ _ EmptyString eq_refl Hattrs Hopen).
  - set (kids := c :: path) in *. clearbody kids.
    rewrite (append_cons ">" "" _), append_nil_l.
    change ("</svg>") with (String "<" (String "/" "svg>")).
    destruct (scan_start_tag "svg" (("xmlns", svg_namespace) :: svg_items width height)
                (concat_strings (map written_path kids) +:+ String "<" (String "/" "svg>"))
                eq_refl Hattrs) as [Hname Hscan].
    cbn [parse_element]. rewrite Hname, Hscan, Hopen.
    cbn [strip_prefix]. change (Ascii.eqb "/" ">") with false. cbv beta iota.
    change (Ascii.eqb ">" ">") with true. cbv beta iota.
    rewrite (parse_written_paths kids f "svg>" Hok) by lia.
    reflexivity.
Qed.

(** A text that is one element, without carriage returns, parses to what
    the element parser returns for it. *)
Lemma fromstring_element (c : ascii) (r : string) (root : Element) :
  is_name_start c = true →
  no_carriage_return (String "<" (String c r)) = true →
  parse_element (S (S (S (String.length r)))) initial_env (String c r)
  = Some (root, EmptyString) →
  fromstring (String "<" (String c r)) = Some root.
Proof.
  intros Hc Hcr Hparse.
  unfold fromstring. rewrite (normalize_newlines_id _ Hcr). cbv zeta.
  change (String.length (String "<" (String c r))) with (S (S (String.length r))).
  destruct (prolog_of_element c r (S (S (String.length r))) Hc) as (H1 & H2 & H4).
  rewrite H1. cbn [mbind option_bind].
  rewrite H2. cbn [mbind option_bind].
  rewrite H4. cbn [mbind option_bind].
  rewrite Hparse. cbn [mbind option_bind].
  rewrite skip_misc_end. reflexivity.
Qed.

Lemma verbatim_no_carriage_return (s : string) :
  verbatim s = true → no_carriage_return s = true.
Proof. intros H. apply value_no_carriage_return, verbatim_is_value, H. Qed.

Lemma written_paths_no_carriage_return (path : list Curve) :
  forallb curve_ok path = true →
  no_carriage_return (concat_strings (map written_path path)) = true.
Proof.
  induction path as [|c path IH]; [reflexivity|].
  cbn [forallb map concat_strings fold_right]. intros [Hc Hp]%andb_prop.
  fold (concat_strings (map written_path path)).
  unfold written_path at 1.
  rewrite !no_carriage_return_app, (written_no_carriage_return _ (path_items_ok _ Hc)),
    (IH Hp). reflexivity.
Qed.

Lemma written_svg_no_carriage_return (path : list Curve) (width height : Z) :
  forallb curve_ok path = true →
  no_carriage_return (written_svg path width height) = true.
Proof.
  intros Hok. unfold written_svg.
  rewrite !no_carriage_return_app,
    (written_no_carriage_return _ (svg_attrs_ok width height)).
  destruct path as [|c path]; [reflexivity|].
  rewrite !no_carriage_return_app, (written_paths_no_carriage_return _ Hok).
  reflexivity.
Qed.

Lemma fromstring_written_svg (path : list Curve) (width height : Z) :
  forallb curve_ok path = true →
  fromstring (written_svg path width height) = Some (parsed_svg path width height).
Proof.
  intros Hok.
  pose proof (written_svg_no_carriage_return path width height Hok) as Hcr.
  pose proof (λ f, parse_written_svg path width height f Hok) as Hparse.
  pose proof (length_written_paths path) as Hlen.
  unfold written_svg in *.
  rewrite (append_cons "<" "svg" _), (append_cons "s" "vg" _) in Hcr |- *.
  setoid_rewrite (append_cons "s" "vg" _) in Hparse.
  apply (fromstring_element "s" _ _ eq_refl Hcr).
  apply Hparse. rewrite length_append.
  destruct path as [|c path]; [simpl; lia|].
  rewrite !length_append. simpl in *. lia.
Qed.

(** X12. What the builder writes, the parser reads back: the same [svg]
    element with one [path] child per curve, now named in the SVG namespace,
    with the same attributes and no text. *)
Theorem builder_output_parses (path : list Curve) (width height : Z) :
  forallb curve_ok path = true →
  fromstring (_path_to_svg path width height) = Some (parsed_svg path width height).
Proof.
  intros Hok. rewrite (path_to_svg_written _ _ _ Hok).
  apply fromstring_written_svg, Hok.
Qed.

Lemma builder_output_parses_witness :
  fromstring (_path_to_svg [leaf_curve] 4 3) = Some (parsed_svg [leaf_curve] 4 3).
Proof. apply builder_output_parses. reflexivity. Defined.

(** X13. With float coordinates, the in-process backend returns the plain
    text of the tree: no character is escaped, no prefix is written, the
    root is self-closing when nothing was traced; the file system is left
    alone. *)
Theorem in_process_backend_text (trace : Tracer) (w : World) (img_gray : Image)
  (threshold : Z) (invert : bool) (fs : FS) :
  let path := trace (pypotrace_bitmap img_gray threshold invert) trace_kwargs in
  forallb curve_ok path = true →
  bitmap_to_svg (Some trace) w img_gray threshold invert fs
  = (Returned (written_svg path (width img_gray) (height img_gray)), fs).
Proof.
  intros path Hok. unfold bitmap_to_svg, _vectorize_with_pypotrace, traced_tree.
  cbv zeta. fold path. fold (_path_to_svg path (width img_gray) (height img_gray)).
  rewrite (path_to_svg_written _ _ _ Hok). reflexivity.
Qed.

Lemma in_process_backend_text_witness :
  bitmap_to_svg (Some toy_tracer) no_potrace_world row3 128 false empty_fs
  = (Returned (written_svg (toy_tracer (pypotrace_bitmap row3 128 false) trace_kwargs) 3 1),
     empty_fs).
Proof.
  apply (in_process_backend_text toy_tracer no_potrace_world row3 128 false empty_fs).
  reflexivity.
Defined.

(** X14. The placeholder and the builder's output for no curves are
    different texts of the same document: a caller that parses the result
    cannot tell a failed run of the binary from a trace without contours. *)
Theorem placeholder_is_empty_trace (width height : Z) :
  _placeholder_svg width height ≠ _path_to_svg [] width height
  ∧ fromstring (_placeholder_svg width height)
    = fromstring (_path_to_svg [] width height).
Proof.
  split.
  - rewrite (path_to_svg_written [] width height eq_refl).
    intros H. apply (f_equal String.length) in H. revert H.
    unfold _placeholder_svg, written_svg, svg_items, written_attribute, dquote,
      svg_namespace.
    cbn [map concat_strings fold_right fst snd].
    rewrite !length_append. cbn [String.length]. lia.
  - rewrite placeholder_parses, (path_to_svg_written [] width height eq_refl), (fromstring_written_svg [] width height eq_refl).
    reflexivity.
Qed.

End RoundTrip.

(** ** Texts and trees the model covers *)

Section Coverage.
Import Raster ET XMLParser Potrace OS VectorizationService Further.

Lemma tame_app (a b : string) : tame (a +:+ b) = tame a && tame b.
Proof. unfold tame. rewrite list_ascii_of_string_app. apply forallb_app. Qed.

Lemma tame_cons (c : ascii) (s : string) : tame (String c s) = is_tame c && tame s.
Proof. reflexivity. Qed.

Lemma verbatim_tame (s : string) : verbatim s = true → tame s = true.
Proof.
  unfold verbatim, tame. apply forallb_weaken. intros c Hc.
  destruct c as [[] [] [] [] [] [] [] []]; try discriminate Hc; reflexivity.
Qed.

Lemma plain_tame (s : string) : all_plain s = true → tame s = true.
Proof. intros H. apply verbatim_tame, plain_verbatim, H. Qed.

(** A text without [!] has no document type declaration, and a text without
    [&] no reference. *)
Lemma tame_has_no_doctype (s : string) : tame s = true → has_doctype s = false.
Proof.
  induction s as [|c s IH]; [reflexivity|].
  rewrite tame_cons. intros [Hc Hs]%andb_prop.
  cbn [has_doctype strip_prefix]. rewrite (IH Hs).
  destruct (Ascii.eqb "<" c); [|reflexivity].
  destruct s as [|d s]; [reflexivity|].
  rewrite tame_cons in Hs. apply andb_prop in Hs as [Hd _].
  cbn [strip_prefix]. destruct (Ascii.eqb_spec "!" d) as [<-|_]; [discriminate Hd|].
  reflexivity.
Qed.

Lemma tame_has_no_reference (s : string) : tame s = true → wide_reference s = false.
Proof.
  induction s as [|c s IH]; [reflexivity|].
  rewrite tame_cons. intros [Hc Hs]%andb_prop.
  cbn [wide_reference strip_prefix]. rewrite (IH Hs).
  destruct (Ascii.eqb_spec "&" c) as [<-|_]; [discriminate Hc|].
  reflexivity.
Qed.

Lemma tame_inside (s : string) : tame s = true → outside s = false.
Proof.
  intros H. unfold outside.
  rewrite (tame_has_no_doctype _ H), (tame_has_no_reference _ H). reflexivity.
Qed.

Lemma written_tame (attrs : list (string * string)) :
  forallb (λ kv, tame (fst kv) && tame (snd kv)) attrs = true →
  tame (concat_strings (map written_attribute attrs)) = true.
Proof.
  induction attrs as [|[k v] attrs IH]; [reflexivity|].
  cbn [forallb fst snd]. intros [[Hk Hv]%andb_prop Hok]%andb_prop.
  cbn [map concat_strings fold_right]. unfold written_attribute at 1. cbn [fst snd].
  fold (concat_strings (map written_attribute attrs)).
  rewrite !tame_app, Hk, Hv, (IH Hok). reflexivity.
Qed.

Lemma path_items_tame (curve : Curve) :
  curve_ok curve = true →
  forallb (λ kv, tame (fst kv) && tame (snd kv)) (path_items curve) = true.
Proof.
  intros Hok. pose proof (verbatim_tame _ (path_data_verbatim _ Hok)) as Hd.
  unfold path_items. cbn [forallb fst snd]. rewrite Hd. reflexivity.
Qed.

Lemma svg_items_tame (width height : Z) :
  forallb (λ kv, tame (fst kv) && tame (snd kv)) (svg_items width height) = true.
Proof.
  pose proof (plain_tame _ (str_int_plain width)) as Hw.
  pose proof (plain_tame _ (str_int_plain height)) as Hh.
  unfold svg_items. cbn [forallb fst snd]. rewrite !tame_app, Hw, Hh. reflexivity.
Qed.

Lemma placeholder_tame (width height : Z) : tame (_placeholder_svg width height) = true.
Proof.
  pose proof (plain_tame _ (str_int_plain width)) as Hw.
  pose proof (plain_tame _ (str_int_plain height)) as Hh.
  unfold _placeholder_svg. rewrite !tame_app, Hw, Hh. reflexivity.
Qed.

Lemma written_paths_tame (path : list Curve) :
  forallb curve_ok path = true →
  tame (concat_strings (map written_path path)) = true.
Proof.
  induction path as [|c path IH]; [reflexivity|].
  cbn [forallb map concat_strings fold_right]. intros [Hc Hp]%andb_prop.
  fold (concat_strings (map written_path path)).
  unfold written_path at 1.
  rewrite !tame_app, (written_tame _ (path_items_tame _ Hc)), (IH Hp). reflexivity.
Qed.

Lemma written_svg_tame (path : list Curve) (width height : Z) :
  forallb curve_ok path = true → tame (written_svg path width height) = true.
Proof.
  intros Hok. unfold written_svg.
  rewrite !tame_app, (written_tame (_ :: _)).
  2:{ cbn [forallb fst snd]. rewrite svg_items_tame. reflexivity. }
  destruct path as [|c path]; [reflexivity|].
  rewrite !tame_app, (written_paths_tame _ Hok). reflexivity.
Qed.

Lemma spaces_tame (n : nat) : tame (spaces n) = true.
Proof.
  induction n as [|n IH]; [reflexivity|].
  cbn [spaces]. rewrite tame_app, IH. reflexivity.
Qed.

Lemma indent_tame (n : nat) : tame (indent_of n) = true.
Proof. unfold indent_of. rewrite tame_cons, spaces_tame. reflexivity. Qed.

Lemma optimized_paths_tame (path : list Curve) :
  forallb curve_ok path = true →
  tame (join (indent_of 1) (map optimized_path path)) = true.
Proof.
  induction path as [|c path IH]; [reflexivity|].
  cbn [forallb map]. intros [Hc Hp]%andb_prop.
  assert (Hone : tame (optimized_path c) = true).
  { unfold optimized_path.
    rewrite !tame_app, (written_tame _ (path_items_tame _ Hc)). reflexivity. }
  destruct path as [|c' path]; [exact Hone|].
  change (join ?sep (?a :: map optimized_path (c' :: path)))
    with (a +:+ sep +:+ join sep (map optimized_path (c' :: path))).
  rewrite !tame_app, Hone, (IH Hp), indent_tame. reflexivity.
Qed.

Lemma optimized_svg_tame (path : list Curve) (width height : Z) :
  forallb curve_ok path = true → tame (optimized_svg path width height) = true.
Proof.
  intros Hok. unfold optimized_svg.
  rewrite !tame_app, (written_tame _ (svg_items_tame width height)).
  destruct path as [|c path]; [reflexivity|].
  rewrite !tame_app, (optimized_paths_tame _ Hok), !indent_tame. reflexivity.
Qed.

(** Neither indenting nor a new tail changes the depth of a tree. *)
Lemma depth_set_tail (x : option string) (e : Element) :
  depth (set_tail x e) = depth e.
Proof. destruct e; reflexivity. Qed.

Lemma depth_dedent (indent : string) (child : Element) :
  depth (dedent indent child) = depth child.
Proof. unfold dedent. destruct (blank _); [apply depth_set_tail | reflexivity]. Qed.

Lemma depth_dedent_last (indent : string) (kids : list Element) :
  fold_right (λ k m, Nat.max (depth k) m) O (dedent_last indent kids)
  = fold_right (λ k m, Nat.max (depth k) m) O kids.
Proof.
  induction kids as [|a kids IH]; [reflexivity|].
  destruct kids as [|b kids].
  - cbn [dedent_last fold_right]. rewrite depth_dedent. reflexivity.
  - change (dedent_last indent (a :: b :: kids))
      with (a :: dedent_last indent (b :: kids)).
    cbn [fold_right] in *. rewrite IH. reflexivity.
Qed.

Lemma depth_indent (e : Element) : ∀ level, depth (_indent_xml e level) = depth e.
Proof.
  induction e as [t a tx tl kids IH] using Element_ind'. intros level.
  destruct kids as [|k kids].
  - cbn [_indent_xml]. destruct (negb _ && blank tl); reflexivity.
  - rewrite indent_node by discriminate. cbn [depth]. f_equal.
    rewrite depth_dedent_last.
    induction IH as [|c l Hc Hl IHl]; [reflexivity|].
    cbn [map fold_right]. rewrite Hc, IHl. reflexivity.
Qed.

Lemma depth_parsed_svg (path : list Curve) (width height : Z) :
  (depth (parsed_svg path width height) <= 2)%nat.
Proof.
  unfold parsed_svg. cbn [depth]. apply le_n_S.
  induction path as [|c path IH]; [cbn; lia|].
  cbn [map fold_right]. change (depth (parsed_path c)) with 1%nat. lia.
Qed.

Lemma parsed_svg_covered (path : list Curve) (width height : Z) :
  Nat.leb (depth (parsed_svg path width height)) covered_depth = true.
Proof.
  apply Nat.leb_le. pose proof (depth_parsed_svg path width height).
  unfold covered_depth. lia.
Qed.

Lemma indented_svg_covered (path : list Curve) (width height : Z) :
  Nat.leb (depth (set_tail None (_indent_xml (parsed_svg path width height) 0)))
    covered_depth = true.
Proof. rewrite depth_set_tail, depth_indent. apply parsed_svg_covered. Qed.

End Coverage.

(** ** The fallback optimizer on the service's own output *)

Section OptimizedText.
Import Raster ET XMLParser Potrace OS VectorizationService Further.

Lemma replace_char_blank (c : ascii) (by_ s : string) :
  isspace c = false →
  forallb isspace (list_ascii_of_string s) = true →
  replace_char c by_ s = s.
Proof.
  intros Hc. induction s as [|d s IH]; [reflexivity|].
  cbn [list_ascii_of_string forallb]. intros [Hd Hs]%andb_prop. simpl.
  destruct (Ascii.eqb_spec d c) as [->|_]; [congruence|].
  rewrite (IH Hs). reflexivity.
Qed.

Lemma write_text_indent (n : nat) : write_text (Some (indent_of n)) = indent_of n.
Proof.
  pose proof (blank_indent n) as Hb. unfold blank in Hb.
  unfold write_text, indent_of in *. cbn [truthy default]. unfold escape_cdata.
  rewrite (replace_char_blank "&" _ _ eq_refl Hb), (replace_char_blank "<" _ _ eq_refl Hb),
    (replace_char_blank ">" _ _ eq_refl Hb). reflexivity.
Qed.

Lemma write_attribute_plain_name (ns : list (string * string)) (k v : string) :
  split_qname k = None → verbatim v = true →
  write_attribute ns (k, v) = written_attribute (k, v).
Proof.
  intros Hk Hv. unfold write_attribute, written_attribute, qname. cbn [fst snd].
  rewrite Hk, (escape_attrib_verbatim _ Hv). reflexivity.
Qed.

Lemma serialize_parsed_path (curve : Curve) (x : option string) :
  curve_ok curve = true →
  serialize_xml [(svg_namespace, "ns0")] [] (set_tail x (parsed_path curve))
  = optimized_path curve +:+ write_text x.
Proof.
  intros Hok. pose proof (path_data_verbatim _ Hok) as Hd.
  unfold parsed_path, optimized_path, path_items.
  cbn [set_tail serialize_xml map concat_strings fold_right sorted_by_prefix fold_left
       truthy orb negb].
  set (ns := [(svg_namespace, "ns0")]).
  rewrite (write_attribute_plain_name ns "d" _ eq_refl Hd).
  rewrite (write_attribute_plain_name ns "fill" "black" eq_refl eq_refl).
  rewrite (write_attribute_plain_name ns "stroke" "none" eq_refl eq_refl).
  change (qname ns ("{" +:+ svg_namespace +:+ "}path")) with "ns0:path".
  rewrite bool_decide_eq_true_2 by reflexivity. cbn [negb].
  rewrite !append_assoc, !append_cons, !append_nil_l. reflexivity.
Qed.

Lemma indent_parsed_svg (init : list Curve) (last : Curve) (width height : Z) :
  _indent_xml (parsed_svg (init ++ [last]) width height) 0
  = mkElement (Name ("{" +:+ svg_namespace +:+ "}svg")) (svg_items width height)
      (Some (indent_of 1)) (Some (indent_of 0))
      (map (λ c, set_tail (Some (indent_of 1)) (parsed_path c)) init
       ++ [ set_tail (Some (indent_of 0)) (parsed_path last) ]).
Proof.
  unfold parsed_svg.
  rewrite indent_node by (rewrite map_app; intros H; apply app_eq_nil in H as [_ H];
                          discriminate H).
  rewrite !map_app. cbn [map]. rewrite dedent_last_snoc, map_map.
  reflexivity.
Qed.

Lemma path_names_seen (kids : list Element) :
  Forall (λ k, ∃ c x, k = set_tail x (parsed_path c)) kids →
  Forall (λ q, add_qname [(svg_namespace, "ns0")] q = [(svg_namespace, "ns0")])
    (flat_map names_of (flat_map iter kids)).
Proof.
  induction 1 as [|k kids (c & x & ->) _ IH]; [constructor|].
  cbn [flat_map set_tail parsed_path iter app names_of tag attrib path_items map fst].
  repeat (constructor; [reflexivity|]). exact IH.
Qed.

Lemma fold_add_qname_seen (l : list string) (ns : list (string * string)) :
  Forall (λ q, add_qname ns q = ns) l → fold_left add_qname l ns = ns.
Proof.
  induction 1 as [|q l Hq _ IH]; [reflexivity|].
  cbn [fold_left]. rewrite Hq. exact IH.
Qed.

Lemma collect_namespaces_parsed (width height : Z) (tx tl : option string)
  (kids : list Element) :
  Forall (λ k, ∃ c x, k = set_tail x (parsed_path c)) kids →
  collect_namespaces
    (mkElement (Name ("{" +:+ svg_namespace +:+ "}svg")) (svg_items width height)
       tx tl kids)
  = [(svg_namespace, "ns0")].
Proof.
  intros Hkids. unfold collect_namespaces.
  cbn [iter flat_map names_of tag attrib svg_items map fst app fold_left].
  change (add_qname [] ("{" +:+ svg_namespace +:+ "}svg"))
    with [(svg_namespace, "ns0")].
  apply fold_add_qname_seen.
  repeat (constructor; [reflexivity|]). apply path_names_seen, Hkids.
Qed.

Lemma serialize_parsed_paths (init : list Curve) (last : Curve) :
  forallb curve_ok (init ++ [last]) = true →
  concat_strings
    (map (serialize_xml [(svg_namespace, "ns0")] [])
       (map (λ c, set_tail (Some (indent_of 1)) (parsed_path c)) init
        ++ [ set_tail (Some (indent_of 0)) (parsed_path last) ]))
  = join (indent_of 1) (map optimized_path (init ++ [last])) +:+ indent_of 0.
Proof.
  induction init as [|c init IH]; cbn [app forallb map].
  - intros [Hl _]%andb_prop. cbn [concat_strings fold_right join].
    rewrite (serialize_parsed_path _ _ Hl), write_text_indent, append_nil_r.
    reflexivity.
  - intros [Hc Hrest]%andb_prop. cbn [concat_strings fold_right].
    fold (concat_strings
            (map (serialize_xml [(svg_namespace, "ns0")] [])
               (map (λ c, set_tail (Some (indent_of 1)) (parsed_path c)) init
                ++ [ set_tail (Some (indent_of 0)) (parsed_path last) ]))).
    rewrite (IH Hrest), (serialize_parsed_path _ _ Hc), write_text_indent.
    destruct (map optimized_path (init ++ [last])) as [|b l] eqn:E.
    { destruct init; discriminate E. }
    rewrite join_cons, !append_assoc. reflexivity.
Qed.

Lemma serialize_svg_start (width height : Z) (tx tl : option string)
  (kids : list Element) :
  let ns := [(svg_namespace, "ns0")] in
  serialize_xml ns ns
    (mkElement (Name ("{" +:+ svg_namespace +:+ "}svg")) (svg_items width height)
       tx tl kids)
  = ("<ns0:svg xmlns:ns0=" +:+ dquote +:+ svg_namespace +:+ dquote
     +:+ concat_strings (map written_attribute (svg_items width height))
     +:+ (if truthy tx || negb (bool_decide (kids = []))
          then ">" +:+ write_text tx
               +:+ concat_strings (map (serialize_xml ns []) kids)
               +:+ "</ns0:svg>"
          else " />"))
    +:+ write_text tl.
Proof.
  intros ns.
  pose proof (svg_items_verbatim width height) as Hv.
  unfold svg_items in *. cbn [forallb snd] in Hv.
  apply andb_prop in Hv as [Hw Hv]. apply andb_prop in Hv as [Hh Hv].
  apply andb_prop in Hv as [Hvb _].
  cbn [serialize_xml map concat_strings fold_right].
  rewrite (write_attribute_plain_name ns "width" _ eq_refl Hw).
  rewrite (write_attribute_plain_name ns "height" _ eq_refl Hh).
  rewrite (write_attribute_plain_name ns "viewBox" _ eq_refl Hvb).
  rewrite (write_attribute_plain_name ns "version" "1.1" eq_refl eq_refl).
  change (qname ns ("{" +:+ svg_namespace +:+ "}svg")) with "ns0:svg".
  change (foldr String.append "" (map write_declaration (sorted_by_prefix ns)))
    with (" xmlns:ns0=" +:+ dquote +:+ svg_namespace +:+ dquote +:+ "").
  fold (concat_strings (map (serialize_xml ns []) kids)).
  reflexivity.
Qed.

Lemma optimized_svg_snoc (init : list Curve) (last : Curve) (width height : Z) :
  optimized_svg (init ++ [last]) width height
  = "<ns0:svg xmlns:ns0=" +:+ dquote +:+ svg_namespace +:+ dquote
    +:+ concat_strings (map written_attribute (svg_items width height))
    +:+ ">" +:+ indent_of 1
    +:+ join (indent_of 1) (map optimized_path (init ++ [last]))
    +:+ indent_of 0 +:+ "</ns0:svg>" +:+ indent_of 0.
Proof. unfold optimized_svg. destruct init; reflexivity. Qed.

(** The text of the indented parse tree of the builder's output. *)
Lemma tostring_indented_svg (path : list Curve) (width height : Z) :
  forallb curve_ok path = true →
  tostring (_indent_xml (parsed_svg path width height) 0)
  = optimized_svg path width height.
Proof.
  intros Hok. destruct (decide (path = [])) as [->|Hne].
  - change (_indent_xml (parsed_svg [] width height) 0)
      with (parsed_svg [] width height).
    unfold tostring, parsed_svg. cbn [map].
    rewrite collect_namespaces_parsed by constructor.
    rewrite serialize_svg_start. cbn [truthy orb].
    rewrite bool_decide_eq_true_2 by reflexivity. cbn [negb write_text truthy].
    unfold optimized_svg. rewrite append_nil_r. reflexivity.
  - destruct (exists_last Hne) as [init [last ->]].
    rewrite indent_parsed_svg, optimized_svg_snoc. unfold tostring.
    rewrite collect_namespaces_parsed.
    2:{ apply Forall_app. split.
        - apply Forall_map. apply Forall_forall. intros c _. eauto.
        - constructor; [eauto | constructor]. }
    rewrite serialize_svg_start. cbn [truthy orb indent_of].
    fold (indent_of 1). fold (indent_of 0).
    rewrite (serialize_parsed_paths _ _ Hok), !write_text_indent.
    rewrite !append_assoc. reflexivity.
Qed.

Lemma basic_optimization_builder (path : list Curve) (width height : Z) :
  forallb curve_ok path = true →
  _basic_svg_optimization (_path_to_svg path width height)
  = Returned (optimized_svg path width height).
Proof.
  intros Hok.
  rewrite basic_optimization_parsed, (path_to_svg_written _ _ _ Hok),
    (tame_inside _ (written_svg_tame _ _ _ Hok)),
    (fromstring_written_svg _ _ _ Hok), parsed_svg_covered,
    (tostring_indented_svg _ _ _ Hok).
  reflexivity.
Qed.

Lemma basic_optimization_placeholder (width height : Z) :
  _basic_svg_optimization (_placeholder_svg width height)
  = Returned (optimized_svg [] width height).
Proof.
  rewrite basic_optimization_parsed, (tame_inside _ (placeholder_tame _ _)),
    placeholder_parses.
  change (mkElement _ _ None None []) with (parsed_svg [] width height).
  rewrite parsed_svg_covered, (tostring_indented_svg [] width height eq_refl).
  reflexivity.
Qed.

(** X15. Without scour, optimizing the builder's output succeeds and
    returns the same elements and attributes with the SVG namespace written
    as the prefix [ns0], one child per line, and a line end after the
    root. *)
Theorem fallback_on_builder_output (path : list Curve) (width height : Z) :
  forallb curve_ok path = true →
  optimize_svg None (_path_to_svg path width height)
  = Returned (optimized_svg path width height).
Proof. intros Hok. unfold optimize_svg. apply basic_optimization_builder, Hok. Qed.

Lemma fallback_on_builder_output_witness :
  optimize_svg None (_path_to_svg [leaf_curve; leaf_curve] 4 3)
  = Returned (optimized_svg [leaf_curve; leaf_curve] 4 3).
Proof. apply fallback_on_builder_output. reflexivity. Defined.

(** X16. Without scour, optimizing the placeholder succeeds and returns a
    self-closing root with the prefix [ns0], the same text as for the
    builder's output without curves. *)
Theorem fallback_on_placeholder (width height : Z) :
  optimize_svg None (_placeholder_svg width height)
  = Returned ("<ns0:svg xmlns:ns0=" +:+ dquote +:+ "http://www.w3.org/2000/svg"
              +:+ dquote
              +:+ " width=" +:+ dquote +:+ str_int width +:+ dquote
              +:+ " height=" +:+ dquote +:+ str_int height +:+ dquote
              +:+ " viewBox=" +:+ dquote
              +:+ "0 0 " +:+ str_int width +:+ " " +:+ str_int height +:+ dquote
              +:+ " version=" +:+ dquote +:+ "1.1" +:+ dquote +:+ " />")
  ∧ optimize_svg None (_placeholder_svg width height)
    = optimize_svg None (_path_to_svg [] width height).
Proof.
  unfold optimize_svg. rewrite basic_optimization_placeholder. split.
  - f_equal. unfold optimized_svg, svg_items, written_attribute, svg_namespace.
    cbn [map concat_strings fold_right fst snd].
    rewrite !append_assoc, !append_nil_l, ?append_nil_r. reflexivity.
  - rewrite (basic_optimization_builder [] width height eq_refl). reflexivity.
Qed.

End OptimizedText.

(** ** A second pass of the fallback optimizer *)

Section SecondPass.
Import Raster ET XMLParser Potrace OS VectorizationService Further.

(** Character data made of white space is collected as it stands. *)
Lemma parse_content_blank (t : string) :
  forallb is_space (list_ascii_of_string t) = true →
  ∀ f env data rest,
    parse_content (String.length t + f) env data (t +:+ rest)
    = parse_content f env (data +:+ t) rest.
Proof.
  induction t as [|c t IH]; intros Ht f env data rest.
  - rewrite append_nil_l, append_nil_r. reflexivity.
  - cbn [list_ascii_of_string forallb] in Ht. apply andb_prop in Ht as [Hc Ht].
    rewrite append_cons. cbn [String.length Nat.add parse_content].
    assert (Hstep : Ascii.eqb c "<" = false ∧ Ascii.eqb c "&" = false
                    ∧ is_char c = true
                    ∧ ∀ r, strip_prefix "]]>" (String c r) = None).
    { clear -Hc. destruct c as [[] [] [] [] [] [] [] []]; try discriminate Hc;
        repeat split. }
    destruct Hstep as (-> & -> & -> & ->).
    rewrite (IH Ht). unfold snoc. rewrite append_assoc. reflexivity.
Qed.

Lemma spaces_are_space (n : nat) :
  forallb is_space (list_ascii_of_string (spaces n)) = true.
Proof.
  induction n as [|n IH]; [reflexivity|].
  cbn [spaces]. rewrite list_ascii_of_string_app, forallb_app, IH. reflexivity.
Qed.

Lemma indent_is_space (n : nat) :
  forallb is_space (list_ascii_of_string (indent_of n)) = true.
Proof. unfold indent_of. cbn [list_ascii_of_string forallb]. apply spaces_are_space. Qed.

Lemma parse_optimized_path (f : nat) (curve : Curve) (rest : string) :
  curve_ok curve = true →
  parse_element (S f) (("ns0", svg_namespace) :: initial_env)
    ("ns0:path" +:+ concat_strings (map written_attribute (path_items curve))
                +:+ String " " (String "/" (String ">" rest)))
  = Some (parsed_path curve, rest).
Proof.
  intros Hok.
  apply (parse_self_closed f _ "ns0:path" (path_items curve) _ _
           (("ns0", svg_namespace) :: initial_env) rest eq_refl (path_items_ok _ Hok)).
  reflexivity.
Qed.

Lemma optimized_path_cons (curve : Curve) (rest : string) :
  optimized_path curve +:+ rest
  = String "<" (String "n"
      ("s0:path" +:+ concat_strings (map written_attribute (path_items curve))
                 +:+ String " " (String "/" (String ">" rest)))).
Proof.
  unfold optimized_path. rewrite !append_assoc, !append_cons, !append_nil_l. reflexivity.
Qed.

Lemma parse_content_close (f : nat) (env : list (string * string)) (data r : string) :
  parse_content (S f) env data (String "<" (String "/" r)) = Some (data, [], r).
Proof. reflexivity. Qed.

(** The children of the optimized text read back with the white space
    between them as their tails. *)
Lemma parse_optimized_paths (path : list Curve) :
  ∀ F data rest,
    forallb curve_ok path = true →
    (4 * length path + 2 ≤ F)%nat →
    parse_content F (("ns0", svg_namespace) :: initial_env) data
      (concat_strings (map (λ c, indent_of 1 +:+ optimized_path c) path)
       +:+ indent_of 0 +:+ String "<" (String "/" rest))
    = Some (data +:+ match path with [] => indent_of 0 | _ :: _ => indent_of 1 end,
            dedent_last (indent_of 0)
              (map (λ c, set_tail (Some (indent_of 1)) (parsed_path c)) path),
            rest).
Proof.
  induction path as [|c path IH]; intros F data rest Hok HF.
  - cbn [map concat_strings fold_right]. rewrite append_nil_l.
    destruct F as [|[|f]]; [simpl in HF; lia | simpl in HF; lia |].
    change (S (S f)) with (String.length (indent_of 0) + S f)%nat.
    rewrite (parse_content_blank _ (indent_is_space 0)).
    apply parse_content_close.
  - cbn [forallb] in Hok. apply andb_prop in Hok as [Hc Hp].
    cbn [map concat_strings fold_right length] in *.
    fold (concat_strings (map (λ c, indent_of 1 +:+ optimized_path c) path)).
    destruct F as [|[|[|[|[|f]]]]]; try (simpl in HF; lia).
    change (S (S (S (S (S f))))) with (String.length (indent_of 1) + S (S f))%nat.
    rewrite !append_assoc.
    rewrite (parse_content_blank _ (indent_is_space 1)).
    rewrite optimized_path_cons.
    rewrite (parse_content_child (S f) _ _ "n" _ eq_refl).
    rewrite <- append_cons.
    rewrite (parse_optimized_path f c _ Hc).
    rewrite (IH (S f) EmptyString rest Hp) by lia.
    destruct path as [|c' path]; reflexivity.
Qed.

Lemma join_indent (T : string) (P : Curve → string) (c : Curve) (path : list Curve) :
  T +:+ join T (map P (c :: path)) = concat_strings (map (λ c, T +:+ P c) (c :: path)).
Proof.
  revert c. induction path as [|c' path IH]; intros c.
  - cbn [map join concat_strings fold_right]. rewrite append_assoc, append_nil_r.
    reflexivity.
  - change (map P (c :: c' :: path)) with (P c :: P c' :: map P path).
    rewrite join_cons. change (P c' :: map P path) with (map P (c' :: path)).
    rewrite IH. cbn [map concat_strings fold_right]. rewrite !append_assoc. reflexivity.
Qed.

Lemma length_optimized_paths (path : list Curve) :
  (4 * length path
   ≤ String.length (concat_strings (map (λ c, indent_of 1 +:+ optimized_path c) path)))%nat.
Proof.
  induction path as [|c path IH]; [simpl; lia|].
  cbn [map concat_strings fold_right length].
  fold (concat_strings (map (λ c, indent_of 1 +:+ optimized_path c) path)).
  rewrite append_assoc, optimized_path_cons, !length_append. cbn [String.length].
  change (String.length (indent_of 1)) with 3%nat.
  rewrite !length_append. cbn [String.length]. lia.
Qed.

Lemma indent_no_carriage_return (n : nat) : no_carriage_return (indent_of n) = true.
Proof.
  pose proof (indent_is_space n) as H. unfold no_carriage_return.
  unfold indent_of in *. cbn [list_ascii_of_string forallb] in *.
  apply andb_true_intro. split; [reflexivity|].
  clear H. induction n as [|n IH]; [reflexivity|].
  cbn [spaces]. rewrite list_ascii_of_string_app, forallb_app, IH. reflexivity.
Qed.

(** A text that is one element followed by white space parses to what the
    element parser returns for it. *)
Lemma fromstring_element_then (c : ascii) (r trailing : string) (root : Element) :
  is_name_start c = true →
  no_carriage_return (String "<" (String c r)) = true →
  parse_element (S (S (S (String.length r)))) initial_env (String c r)
  = Some (root, trailing) →
  skip_misc (S (S (S (String.length r)))) trailing = Some EmptyString →
  fromstring (String "<" (String c r)) = Some root.
Proof.
  intros Hc Hcr Hparse Htrail.
  unfold fromstring. rewrite (normalize_newlines_id _ Hcr). cbv zeta.
  change (String.length (String "<" (String c r))) with (S (S (String.length r))).
  destruct (prolog_of_element c r (S (S (String.length r))) Hc) as (H1 & H2 & H4).
  rewrite H1. cbn [mbind option_bind].
  rewrite H2. cbn [mbind option_bind].
  rewrite H4. cbn [mbind option_bind].
  rewrite Hparse. cbn [mbind option_bind].
  rewrite Htrail. reflexivity.
Qed.

Lemma ns0_attrs_ok (width height : Z) :
  forallb ok_attribute (("xmlns:ns0", svg_namespace) :: svg_items width height) = true.
Proof.
  pose proof (svg_attrs_ok width height) as H. cbn [forallb] in *.
  apply andb_prop in H as [_ H]. rewrite H. reflexivity.
Qed.

(** What follows the [<] of the optimized text reads back as the indented
    tree; the line end after the root is left over. *)
Lemma indent_parsed_svg_cons (c : Curve) (path : list Curve) (width height : Z) :
  _indent_xml (parsed_svg (c :: path) width height) 0
  = mkElement (Name ("{" +:+ svg_namespace +:+ "}svg")) (svg_items width height)
      (Some (indent_of 1)) (Some (indent_of 0))
      (dedent_last (indent_of 0)
         (map (λ c, set_tail (Some (indent_of 1)) (parsed_path c)) (c :: path))).
Proof.
  unfold parsed_svg. rewrite indent_node by discriminate. rewrite map_map. reflexivity.
Qed.

Lemma parse_optimized_svg (path : list Curve) (width height : Z) (f : nat) :
  path ≠ [] →
  forallb curve_ok path = true →
  (4 * length path + 2 < f)%nat →
  parse_element f initial_env
    ("ns0:svg" +:+ concat_strings
                     (map written_attribute
                        (("xmlns:ns0", svg_namespace) :: svg_items width height))
     +:+ String ">"
           (concat_strings (map (λ c, indent_of 1 +:+ optimized_path c) path)
            +:+ indent_of 0 +:+ String "<" (String "/" ("ns0:svg>" +:+ indent_of 0))))
  = Some (set_tail None (_indent_xml (parsed_svg path width height) 0),
          indent_of 0).
Proof.
  intros Hne Hok Hf.
  destruct f as [|f]; [lia|].
  pose proof (ns0_attrs_ok width height) as Hattrs.
  assert (Hopen : open_element initial_env "ns0:svg"
                    (("xmlns:ns0", svg_namespace) :: svg_items width height)
                  = Some ("{" +:+ svg_namespace +:+ "}svg", svg_items width height,
                          ("ns0", svg_namespace) :: initial_env)) by reflexivity.
  destruct (scan_start_tag "ns0:svg"
              (("xmlns:ns0", svg_namespace) :: svg_items width height)
              (concat_strings (map (λ c, indent_of 1 +:+ optimized_path c) path)
               +:+ indent_of 0 +:+ String "<" (String "/" ("ns0:svg>" +:+ indent_of 0)))
              eq_refl Hattrs) as [Hname Hscan].
  cbn [parse_element]. rewrite Hname, Hscan, Hopen.
  cbn [strip_prefix]. change (Ascii.eqb "/" ">") with false. cbv beta iota.
  change (Ascii.eqb ">" ">") with true. cbv beta iota.
  rewrite (parse_optimized_paths path f EmptyString _ Hok) by lia.
  change ("ns0:svg>" +:+ indent_of 0) with ("ns0:svg" +:+ String ">" (indent_of 0)).
  rewrite (scan_name_app "ns0:svg" ">" (indent_of 0) eq_refl eq_refl).
  cbn [skip_spaces is_space strip_prefix]. change (Ascii.eqb ">" ">") with true.
  cbv beta iota. rewrite String.eqb_refl.
  destruct path as [|c path]; [contradiction|].
  rewrite indent_parsed_svg_cons. reflexivity.
Qed.

Lemma optimized_paths_no_carriage_return (path : list Curve) :
  forallb curve_ok path = true →
  no_carriage_return
    (concat_strings (map (λ c, indent_of 1 +:+ optimized_path c) path)) = true.
Proof.
  induction path as [|c path IH]; [reflexivity|].
  cbn [forallb map concat_strings fold_right]. intros [Hc Hp]%andb_prop.
  fold (concat_strings (map (λ c, indent_of 1 +:+ optimized_path c) path)).
  unfold optimized_path at 1.
  rewrite !no_carriage_return_app, (written_no_carriage_return _ (path_items_ok _ Hc)),
    (IH Hp). reflexivity.
Qed.

Lemma optimized_svg_cons (c : Curve) (path : list Curve) (width height : Z) :
  optimized_svg (c :: path) width height
  = String "<" (String "n"
      ("s0:svg" +:+ concat_strings
                      (map written_attribute
                         (("xmlns:ns0", svg_namespace) :: svg_items width height))
       +:+ String ">"
             (concat_strings (map (λ c, indent_of 1 +:+ optimized_path c) (c :: path))
              +:+ indent_of 0
              +:+ String "<" (String "/" ("ns0:svg>" +:+ indent_of 0))))).
Proof.
  unfold optimized_svg. rewrite <- join_indent.
  cbn [map concat_strings fold_right]. unfold written_attribute at 2. cbn [fst snd].
  rewrite !append_assoc, !append_cons, !append_nil_l. reflexivity.
Qed.

Lemma optimized_svg_nil (width height : Z) :
  optimized_svg [] width height
  = String "<" (String "n"
      ("s0:svg" +:+ concat_strings
                      (map written_attribute
                         (("xmlns:ns0", svg_namespace) :: svg_items width height))
       +:+ String " " (String "/" (String ">" EmptyString)))).
Proof.
  unfold optimized_svg.
  cbn [map concat_strings fold_right]. unfold written_attribute at 2. cbn [fst snd].
  rewrite !append_assoc, !append_cons, !append_nil_l. reflexivity.
Qed.

(** The optimized text reads back as the indented tree, without the line
    end after the root. *)
Lemma fromstring_optimized_svg (path : list Curve) (width height : Z) :
  forallb curve_ok path = true →
  fromstring (optimized_svg path width height)
  = Some (set_tail None (_indent_xml (parsed_svg path width height) 0)).
Proof.
  intros Hok.
  pose proof (written_no_carriage_return _ (ns0_attrs_ok width height)) as Hcr.
  destruct path as [|c path].
  - rewrite optimized_svg_nil.
    apply fromstring_element; [reflexivity | |].
    + change (String "<" (String "n" ?x)) with ("<n" +:+ x).
      rewrite !no_carriage_return_app, Hcr. reflexivity.
    + rewrite <- append_cons.
      apply (parse_self_closed _ initial_env "ns0:svg"
               (("xmlns:ns0", svg_namespace) :: svg_items width height)
               ("{" +:+ svg_namespace +:+ "}svg") (svg_items width height)
               (("ns0", svg_namespace) :: initial_env) EmptyString eq_refl
               (ns0_attrs_ok width height)).
      reflexivity.
  - rewrite optimized_svg_cons.
    apply (fromstring_element_then "n" _ (indent_of 0)); [reflexivity | | |reflexivity].
    + change (String "<" (String "n" ?x)) with ("<n" +:+ x).
      change (String ">" ?x) with (">" +:+ x).
      change (String "<" (String "/" ?x)) with ("</" +:+ x).
      rewrite !no_carriage_return_app, Hcr, (optimized_paths_no_carriage_return _ Hok).
      reflexivity.
    + rewrite <- append_cons.
      apply parse_optimized_svg; [discriminate | exact Hok |].
      pose proof (length_optimized_paths (c :: path)) as Hlen.
      rewrite !length_append. cbn [String.length]. rewrite !length_append. lia.
Qed.

Lemma reindent_parsed_svg (path : list Curve) (width height : Z) :
  _indent_xml (set_tail None (_indent_xml (parsed_svg path width height) 0)) 0
  = _indent_xml (parsed_svg path width height) 0.
Proof.
  destruct (decide (path = [])) as [->|Hne]; [reflexivity|].
  destruct (exists_last Hne) as [init [last ->]].
  rewrite indent_parsed_svg. cbn [set_tail].
  rewrite indent_node by (intros H; apply app_eq_nil in H as [_ H]; discriminate H).
  rewrite map_app. cbn [map]. rewrite dedent_last_snoc, map_map.
  reflexivity.
Qed.

Lemma basic_optimization_optimized (path : list Curve) (width height : Z) :
  forallb curve_ok path = true →
  _basic_svg_optimization (optimized_svg path width height)
  = Returned (optimized_svg path width height).
Proof.
  intros Hok.
  rewrite basic_optimization_parsed,
    (tame_inside _ (optimized_svg_tame _ _ _ Hok)),
    (fromstring_optimized_svg _ _ _ Hok), indented_svg_covered,
    reindent_parsed_svg, (tostring_indented_svg _ _ _ Hok).
  reflexivity.
Qed.

(** X17. On what the builder returns, the fallback optimizer is
    idempotent byte for byte: a second pass returns the text of the first. *)
Theorem fallback_idempotent_on_builder_output (path : list Curve) (width height : Z) :
  forallb curve_ok path = true →
  ∃ once,
    optimize_svg None (_path_to_svg path width height) = Returned once
    ∧ optimize_svg None once = Returned once.
Proof.
  intros Hok. exists (optimized_svg path width height). unfold optimize_svg.
  split; [apply basic_optimization_builder | apply basic_optimization_optimized];
    exact Hok.
Qed.

Lemma fallback_idempotent_on_builder_output_witness :
  ∃ once,
    optimize_svg None (_path_to_svg [leaf_curve; leaf_curve] 4 3) = Returned once
    ∧ optimize_svg None once = Returned once.
Proof. apply fallback_idempotent_on_builder_output. reflexivity. Defined.

(** X18. On the placeholder too the fallback optimizer is idempotent byte
    for byte. *)
Theorem fallback_idempotent_on_placeholder (width height : Z) :
  ∃ once,
    optimize_svg None (_placeholder_svg width height) = Returned once
    ∧ optimize_svg None once = Returned once.
Proof.
  exists (optimized_svg [] width height). unfold optimize_svg. split.
  - apply basic_optimization_placeholder.
  - apply (basic_optimization_optimized [] width height eq_refl).
Qed.

End SecondPass.

(** ** Worked examples *)

Section Examples.
Import Raster ET Potrace OS VectorizationService PathSyntax.

Example binarize_row3 :
  pypotrace_bitmap row3 128 false = [ [ false; false; true ] ]
  ∧ pypotrace_bitmap row3 128 true = [ [ true; true; false ] ]
  ∧ cli_bitmap row3 128 false = [ [ 0; 0; 255 ] ]
  ∧ cli_bitmap row3 128 true = [ [ 255; 255; 0 ] ].
Proof. repeat split. Qed.

Example leaf_path_data :
  get (path_elem leaf_curve) "d"
  = Some "M 0.0,0.0 L 4.0,0.0 L 4.0,2.0 C 3.5,3.0 1.0,3.0 0.0,0.0 Z".
Proof. reflexivity. Qed.

Example leaf_svg :
  _path_to_svg [ leaf_curve ] 4 3
  = concat_strings
      [ "<svg xmlns="; dquote; "http://www.w3.org/2000/svg"; dquote;
        " width="; dquote; "4"; dquote; " height="; dquote; "3"; dquote;
        " viewBox="; dquote; "0 0 4 3"; dquote;
        " version="; dquote; "1.1"; dquote; ">";
        "<path d="; dquote;
        "M 0.0,0.0 L 4.0,0.0 L 4.0,2.0 C 3.5,3.0 1.0,3.0 0.0,0.0 Z"; dquote;
        " fill="; dquote; "black"; dquote;
        " stroke="; dquote; "none"; dquote; " />";
        "</svg>" ].
Proof. vm_compute. reflexivity. Qed.

Example placeholder_256 :
  _placeholder_svg 256 256
  = concat_strings
      [ "<svg xmlns="; dquote; "http://www.w3.org/2000/svg"; dquote;
        " width="; dquote; "256"; dquote; " height="; dquote; "256"; dquote;
        " viewBox="; dquote; "0 0 256 256"; dquote;
        " version="; dquote; "1.1"; dquote; "></svg>" ].
Proof. vm_compute. reflexivity. Qed.

(** The file the command-line backend saves for a row of three pixels that
    binarize to 0, 0, 255: one byte with the bits 1, 1, 0 in front. *)
Example pbm_row3 :
  save_pbm (img_bw row3 128 false)
  = "P4" +:+ String "010" ("3 1" +:+ String "010" (String "192" EmptyString)).
Proof. reflexivity. Qed.

(** A process that exits with status zero and leaves no [output.svg] makes
    the backend raise. *)
Example cli_silent :
  (_vectorize_with_cli silent_world row3 128 false empty_fs).1
  = Raised FileNotFoundError.
Proof. reflexivity. Qed.

(** On success the backend returns what the process wrote, and nothing of
    the temporary directory is left. *)
Example cli_success :
  let end_ := _vectorize_with_cli working_world row3 128 false empty_fs in
  end_.1 = Returned "<svg><path d='M0 0z'/></svg>"
  ∧ ("/tmp/tmpa1b2c3" ∉ dirs end_.2)
  ∧ files end_.2 !! "/tmp/tmpa1b2c3/input.pbm" = None
  ∧ files end_.2 !! "/tmp/tmpa1b2c3/output.svg" = None.
Proof.
  unfold _vectorize_with_cli, with_TemporaryDirectory. simpl.
  split; [reflexivity|]. split; [|split].
  - rewrite elem_of_filter. intros [H _]. apply H. reflexivity.
  - apply map_lookup_filter_None_2. right. intros x _ H. apply H. reflexivity.
  - apply map_lookup_filter_None_2. right. intros x _ H. apply H. reflexivity.
Qed.

End Examples.
